(** * Archivematica: Elasticsearch indexing functions

    A shallow embedding of
    [src/archivematicaCommon/lib/elasticSearchFunctions.py] and the
    properties of it that the specification states.

    Python values are modelled by the inductive type [value]; a [dict] is an
    association list in insertion order with unique keys.  Code that talks to
    the search store, the file system, the data base or the clock runs in the
    monad [M], which threads a [world] (what the code has done so far) and
    reads an [env] (what the outside answers).  An exception leaves the
    world as it was when it was raised.

    Conventions of the model:
    - type names are those of Python 3 ([str], [dict], [OrderedDict]);
    - the result of a true division ([/] under [from __future__ import
      division]) is kept as a rational number;
    - the clock and the date are read as constants of the environment;
    - functions that update a list or a dict in place and return it are
      given by the value they return; the one list object that is shared
      between calls, the default of [_list_files_in_dir], lives in the
      [heap] of the world;
    - setting up the client and the indexes has a state of its own
      ([module_state], [setup_world]) and its own answers of the cluster
      ([cluster]). *)

From Stdlib Require Import String Ascii List ZArith QArith Bool Lia Arith.
From Stdlib Require Import DecimalString Permutation.
Import ListNotations.
Local Open Scope string_scope.
Local Open Scope Z_scope.

Set Implicit Arguments.

(* ===================================================================== *)
(** * Python values *)
(* ===================================================================== *)

(** [xmltodict] builds [OrderedDict]s, the renaming pass builds plain
    dicts ([new = {}]); [isinstance(v, dict)] holds for both, their
    [type(v).__name__] differs. *)
Inductive dict_kind := PlainDict | OrderedDict.

Unset Elimination Schemes.
Inductive value :=
| VNone
| VBool (b : bool)
| VInt (z : Z)
| VFloat (q : Q)
| VStr (s : string)
| VList (l : list value)
| VDict (k : dict_kind) (d : list (string * value)).
Set Elimination Schemes.

Definition entries := list (string * value).

Section ValueInduction.
Variable P : value -> Prop.
Hypothesis HNone : P VNone.
Hypothesis HBool : forall b, P (VBool b).
Hypothesis HInt : forall z, P (VInt z).
Hypothesis HFloat : forall q, P (VFloat q).
Hypothesis HStr : forall s, P (VStr s).
Hypothesis HList : forall l, Forall P l -> P (VList l).
Hypothesis HDict : forall k d, Forall (fun e => P (snd e)) d -> P (VDict k d).

Fixpoint value_ind (v : value) : P v :=
  match v with
  | VNone => HNone
  | VBool b => HBool b
  | VInt z => HInt z
  | VFloat q => HFloat q
  | VStr s => HStr s
  | VList l =>
      HList ((fix elems (l : list value) : Forall P l :=
                match l with
                | [] => Forall_nil _
                | x :: r => Forall_cons x (value_ind x) (elems r)
                end) l)
  | VDict k d =>
      HDict k ((fix items (d : entries) : Forall (fun e => P (snd e)) d :=
                  match d with
                  | [] => Forall_nil _
                  | e :: r => Forall_cons e (value_ind (snd e)) (items r)
                  end) d)
  end.
End ValueInduction.

(** [type(v).__name__] *)
Definition type_name (v : value) : string :=
  match v with
  | VNone => "NoneType"
  | VBool _ => "bool"
  | VInt _ => "int"
  | VFloat _ => "float"
  | VStr _ => "str"
  | VList _ => "list"
  | VDict PlainDict _ => "dict"
  | VDict OrderedDict _ => "OrderedDict"
  end.

Definition is_dict (v : value) : bool :=
  match v with VDict _ _ => true | _ => false end.

Definition is_list (v : value) : bool :=
  match v with VList _ => true | _ => false end.

Definition is_scalar (v : value) : bool := negb (is_dict v) && negb (is_list v).

(** [d[key]] as a lookup and [d[key] = v] as an update: an existing key keeps
    its place, a new key goes to the end. *)
Fixpoint dict_get (d : entries) (key : string) : option value :=
  match d with
  | [] => None
  | (k, v) :: r => if String.eqb k key then Some v else dict_get r key
  end.

Fixpoint dict_set (d : entries) (key : string) (v : value) : entries :=
  match d with
  | [] => [(key, v)]
  | (k, x) :: r =>
      if String.eqb k key then (k, v) :: r else (k, x) :: dict_set r key v
  end.

Definition keys (d : entries) : list string := map fst d.

(* ===================================================================== *)
(** * Exceptions and results *)
(* ===================================================================== *)

Inductive exn :=
| IndexError
| KeyError (key : string)
| AttributeError
| TypeError
| ValueError (msg : string)
| OSError (path : string)
| ParseError
| TransportError (msg : string)
| ElasticsearchError (msg : string)
| EmptySearchResultError (msg : string)
| TooManyResultsError (msg : string).

Inductive result (A : Type) :=
| Ok (a : A)
| Raise (e : exn).
Arguments Raise {A} e.

Definition rbind {A B} (r : result A) (f : A -> result B) : result B :=
  match r with Ok a => f a | Raise e => Raise e end.

(* ===================================================================== *)
(** * Schema normalizer *)
(* ===================================================================== *)

(** ** Shape stabilization: [_normalize_dict_values] and
       [_normalize_list_dict_elements]

    Both functions update their argument in place and return it; the
    embedding gives the returned value.  The two loops are written over the
    function [stab] they call on the nested values. *)

(** What [_normalize_dict_values] stores under a key that held [x]. *)
Definition normalized_dict_value (stab : value -> value) (x : value) : value :=
  match x with
  | VDict _ _ => VList [stab x]
  | VList _ => stab x
  | _ => x
  end.

(** [stabilize v] is [_normalize_dict_values(v)] for a dict,
    [_normalize_list_dict_elements(v)] for a list, and [v] for any other
    list element (the loop leaves it alone). *)
Fixpoint stabilize (v : value) : value :=
  match v with
  | VDict k d =>
      VDict k (map (fun e => let '(key, x) := e in
                             (key, normalized_dict_value stabilize x)) d)
  | VList l => VList (map stabilize l)
  | _ => v
  end.

(** What the loop of [_normalize_dict_values] makes of one item. *)
Definition stabilized_item (e : string * value) : string * value :=
  let '(key, x) := e in (key, normalized_dict_value stabilize x).

Definition _normalize_dict_values (data : value) : value := stabilize data.
Definition _normalize_list_dict_elements (data : value) : value := stabilize data.

(** ** Key renaming: [_rename_dict_keys_with_child_dicts] and
       [_rename_list_elements_if_they_are_dicts]

    [data[key][0]] raises [IndexError] on an empty list. *)

(** The key and the value that the loop of
    [_rename_dict_keys_with_child_dicts] stores for the item [key: x]. *)
Definition renamed_item (ren : value -> result value) (key : string) (x : value)
  : result (string * value) :=
  match x with
  | VDict _ _ =>
      rbind (ren x) (fun x' => Ok (key ++ "_data", x'))
  | VList l =>
      match l with
      | [] => Raise IndexError
      | first :: _ =>
          let type_of_list := type_name first in
          rbind (ren x) (fun value =>
          Ok (key ++ "_" ++ type_of_list ++ "_list", value))
      end
  | _ => Ok (key, x)
  end.

(** [for key in data: new[...] = ...] *)
Fixpoint rename_items (ren : value -> result value) (d : entries) (new : entries)
  : result entries :=
  match d with
  | [] => Ok new
  | (key, x) :: r =>
      rbind (renamed_item ren key x) (fun kv =>
      rename_items ren r (dict_set new (fst kv) (snd kv)))
  end.

(** [for index, value in enumerate(data): data[index] = ...] *)
Fixpoint rename_elements (ren : value -> result value) (l : list value)
  : result (list value) :=
  match l with
  | [] => Ok []
  | x :: r =>
      rbind (ren x) (fun x' =>
      rbind (rename_elements ren r) (fun r' => Ok (x' :: r')))
  end.

(** [rename v] is [_rename_dict_keys_with_child_dicts(v)] for a dict,
    [_rename_list_elements_if_they_are_dicts(v)] for a list, and [v] for
    any other list element. *)
Fixpoint rename (v : value) : result value :=
  match v with
  | VDict _ d =>
      rbind (rename_items rename d []) (fun new => Ok (VDict PlainDict new))
  | VList l =>
      rbind (rename_elements rename l) (fun l' => Ok (VList l'))
  | _ => Ok v
  end.

Definition _rename_dict_keys_with_child_dicts (data : value) : result value :=
  rename data.
Definition _rename_list_elements_if_they_are_dicts (data : value) : result value :=
  rename data.

(** The composition every caller uses:
    [_rename_dict_keys_with_child_dicts(_normalize_dict_values(x))]. *)
Definition normalize (x : value) : result value :=
  _rename_dict_keys_with_child_dicts (_normalize_dict_values x).

Definition normalize_twice (x : value) : result value :=
  rbind (normalize x) normalize.

(** The key under which the renaming pass stores the item [key: x]. *)
Definition renamed_key (key : string) (x : value) : string :=
  match x with
  | VDict _ _ => key ++ "_data"
  | VList (first :: _) => key ++ "_" ++ type_name first ++ "_list"
  | _ => key
  end.

(** The keys of [new] after [new[k] = ...]. *)
Definition add_key (acc : list string) (k : string) : list string :=
  if existsb (String.eqb k) acc then acc else (acc ++ [k])%list.

(** The characters of a list of keys, counted together. *)
Definition total_length (l : list string) : nat :=
  fold_right (fun s n => (String.length s + n)%nat) O l.

(* ===================================================================== *)
(** * Strings and paths *)
(* ===================================================================== *)

Definition slash : ascii := "/"%char.
Definition dot : ascii := "."%char.

Fixpoint starts_with (p s : string) : bool :=
  match p, s with
  | EmptyString, _ => true
  | String a p', String b s' => Ascii.eqb a b && starts_with p' s'
  | String _ _, EmptyString => false
  end.

Fixpoint last_char (s : string) : option ascii :=
  match s with
  | EmptyString => None
  | String c EmptyString => Some c
  | String _ r => last_char r
  end.

(** [s.replace(old, new)]: every occurrence, left to right, not
    overlapping.  With an empty [old], Python puts [new] before every
    character and at the end. *)
Fixpoint replace_from (skip : nat) (old new s : string) : string :=
  match s with
  | EmptyString => EmptyString
  | String c r =>
      match skip with
      | S k => replace_from k old new r
      | O =>
          if starts_with old s
          then new ++ replace_from (String.length old - 1) old new r
          else String c (replace_from O old new r)
      end
  end.

Fixpoint interleave (new s : string) : string :=
  match s with
  | EmptyString => new
  | String c r => new ++ String c (interleave new r)
  end.

Definition str_replace (s old new : string) : string :=
  match old with
  | EmptyString => interleave new s
  | _ => replace_from O old new s
  end.

(** [s.split('/')]: at least one component. *)
Fixpoint split_on (sep : ascii) (cur s : string) : list string :=
  match s with
  | EmptyString => [cur]
  | String c r =>
      if Ascii.eqb c sep then cur :: split_on sep EmptyString r
      else split_on sep (cur ++ String c EmptyString) r
  end.

Definition str_split (s : string) (sep : ascii) : list string :=
  split_on sep EmptyString s.

(** [l[-2]] *)
Definition second_to_last (l : list string) : result string :=
  match rev l with
  | _ :: x :: _ => Ok x
  | _ => Raise IndexError
  end.

(** [os.path.join(a, b)] *)
Definition path_join (a b : string) : string :=
  if starts_with "/" b then b
  else match last_char a with
       | None => b
       | Some c => if Ascii.eqb c slash then a ++ b else a ++ "/" ++ b
       end.

(** [os.path.basename(p)] *)
Definition basename (p : string) : string := last (str_split p slash) EmptyString.

(** The last dot of [s]: what stands before it, and the rest from the dot
    on. *)
Fixpoint last_dot (s : string) : option (string * string) :=
  match s with
  | EmptyString => None
  | String c r =>
      match last_dot r with
      | Some (pre, ext) => Some (String c pre, ext)
      | None => if Ascii.eqb c dot then Some (EmptyString, s) else None
      end
  end.

Fixpoint all_dots (s : string) : bool :=
  match s with
  | EmptyString => true
  | String c r => Ascii.eqb c dot && all_dots r
  end.

(** [os.path.splitext(p)[1]]: the extension of the last component; leading
    dots of the name do not start an extension. *)
Definition splitext_ext (p : string) : string :=
  match last_dot (basename p) with
  | Some (pre, ext) => if all_dots pre then EmptyString else ext
  | None => EmptyString
  end.

(** [s[1:]] *)
Definition drop_first (s : string) : string :=
  match s with EmptyString => EmptyString | String _ r => r end.

Definition lower_char (c : ascii) : ascii :=
  let n := nat_of_ascii c in
  if (65 <=? n)%nat && (n <=? 90)%nat then ascii_of_nat (n + 32) else c.

(** [s.lower()] on ASCII text *)
Fixpoint lower (s : string) : string :=
  match s with
  | EmptyString => EmptyString
  | String c r => String (lower_char c) (lower r)
  end.

(** [s[0:n]] *)
Definition str_prefix (n : nat) (s : string) : string := String.substring 0 n s.

(** [str(n)] for an integer *)
Definition str_of_Z (z : Z) : string := NilZero.string_of_int (Z.to_int z).
Definition str_of_nat (n : nat) : string := str_of_Z (Z.of_nat n).

(* ===================================================================== *)
(** * XML elements ([xml.etree.ElementTree]) *)
(* ===================================================================== *)

(** Tags and attribute names are kept in the prefixed form the path
    expressions of the source use ([mets:dmdSec]); the prefix table
    [ns.NSMAP] is not part of this file. *)
Unset Elimination Schemes.
Inductive element :=
| Element (tag : string) (attrib : list (string * string))
          (text : option string) (children : list element).
Set Elimination Schemes.

Definition tag_of (e : element) : string := let 'Element t _ _ _ := e in t.
Definition attrib_of (e : element) := let 'Element _ a _ _ := e in a.
Definition text_of (e : element) : option string := let 'Element _ _ t _ := e in t.
Definition children_of (e : element) : list element := let 'Element _ _ _ c := e in c.

Fixpoint assoc {A} (l : list (string * A)) (key : string) : option A :=
  match l with
  | [] => None
  | (k, v) :: r => if String.eqb k key then Some v else assoc r key
  end.

(** One step of a path: a tag, and possibly a test [[@name='value']]. *)
Record step := Step { step_tag : string; step_test : option (string * string) }.

Definition tagged (t : string) : step := Step t None.
Definition tagged_with (t name val : string) : step := Step t (Some (name, val)).

Definition step_matches (s : step) (e : element) : bool :=
  String.eqb (tag_of e) (step_tag s) &&
  match step_test s with
  | None => true
  | Some (name, val) =>
      match assoc (attrib_of e) name with
      | Some v => String.eqb v val
      | None => false
      end
  end.

(** [e.findall(path)] for a path of child steps, in document order. *)
Fixpoint findall (path : list step) (e : element) : list element :=
  match path with
  | [] => [e]
  | s :: rest => flat_map (findall rest) (filter (step_matches s) (children_of e))
  end.

(** [e.find(path)]: the first match or [None]. *)
Definition find (path : list step) (e : element) : option element :=
  hd_error (findall path e).

(** [e.findtext(path)]: [None] without a match, [''] for a match without
    text. *)
Definition findtext (path : list step) (e : element) : option string :=
  match find path e with
  | None => None
  | Some x => Some (match text_of x with Some t => t | None => EmptyString end)
  end.

(** [a or b] on the results of [findtext]: [None] and [''] are falsy. *)
Definition or_else (a b : option string) : option string :=
  match a with
  | Some (String _ _) => a
  | _ => b
  end.

Definition value_of_text (t : option string) : value :=
  match t with Some s => VStr s | None => VNone end.

(** [el.clear()] on every element the path selects: tag kept, attributes,
    text and children dropped. *)
Fixpoint clear_at (path : list step) (e : element) : element :=
  match path with
  | [] => Element (tag_of e) [] None []
  | s :: rest =>
      Element (tag_of e) (attrib_of e) (text_of e)
        (map (fun c => if step_matches s c then clear_at rest c else c)
             (children_of e))
  end.

(* ===================================================================== *)
(** * The file system *)
(* ===================================================================== *)

(** A tree of directories and regular files; a path names a node by its
    components from the root. *)
Unset Elimination Schemes.
Inductive fsnode :=
| File (st_size : Z) (st_ctime : Q)
| Dir (st_size : Z) (st_ctime : Q) (readable : bool)
      (listing : list (string * fsnode)).
Set Elimination Schemes.

Section FsnodeInduction.
Variable P : fsnode -> Prop.
Hypothesis HFile : forall size ctime, P (File size ctime).
Hypothesis HDir : forall size ctime readable listing,
    Forall (fun entry => P (snd entry)) listing -> P (Dir size ctime readable listing).

Fixpoint fsnode_ind (n : fsnode) : P n :=
  match n with
  | File size ctime => HFile size ctime
  | Dir size ctime readable listing =>
      HDir size ctime readable
        ((fix each (l : list (string * fsnode)) : Forall (fun entry => P (snd entry)) l :=
            match l with
            | [] => Forall_nil _
            | entry :: r => Forall_cons entry (fsnode_ind (snd entry)) (each r)
            end) listing)
  end.
End FsnodeInduction.

Definition components (path : string) : list string :=
  filter (fun c => negb (String.eqb c EmptyString)) (str_split path slash).

Fixpoint resolve (node : fsnode) (comps : list string) : option fsnode :=
  match comps with
  | [] => Some node
  | c :: rest =>
      match node with
      | Dir _ _ _ listing =>
          match assoc listing c with
          | Some child => resolve child rest
          | None => None
          end
      | File _ _ => None
      end
  end.

Definition node_at (root : fsnode) (path : string) : option fsnode :=
  match path with
  | EmptyString => None
  | _ => resolve root (components path)
  end.

Definition node_is_dir (n : fsnode) : bool :=
  match n with Dir _ _ _ _ => true | File _ _ => false end.

Definition node_readable (n : fsnode) : bool :=
  match n with Dir _ _ r _ => r | File _ _ => true end.

Definition node_size (n : fsnode) : Z :=
  match n with Dir s _ _ _ => s | File s _ => s end.

Definition node_ctime (n : fsnode) : Q :=
  match n with Dir _ c _ _ => c | File _ c => c end.

(* ===================================================================== *)
(** * The search store as the code sees it *)
(* ===================================================================== *)

(** Every query the modelled code sends is a term query on one field. *)
Record search_req := SearchReq {
  q_field : string;
  q_value : string;
  q_index : option string;
  q_doc_type : option string;
  q_size : option Z;
  q_fields : option string
}.

Record hit := Hit {
  hit_id : string;
  hit_source : entries;
  hit_fields : option entries
}.

(** [results['hits']['total']] and [results['hits']['hits']] *)
Record response := Response { total : Z; hits : list hit }.

Inductive es_call :=
| CHealth
| CIndex (index : string) (doc_type : string) (body : value)
| CUpdate (index : string) (doc_type : string) (id : string) (body : value)
| CSearch (req : search_req).

Definition is_index_call (c : es_call) : bool :=
  match c with CIndex _ _ _ => true | _ => false end.
Definition is_update_call (c : es_call) : bool :=
  match c with CUpdate _ _ _ _ => true | _ => false end.
Definition is_health_call (c : es_call) : bool :=
  match c with CHealth => true | _ => false end.
Definition is_write_call (c : es_call) : bool :=
  is_index_call c || is_update_call c.

Definition index_calls (t : list es_call) : list es_call := filter is_index_call t.
Definition update_calls (t : list es_call) : list es_call := filter is_update_call t.
Definition write_calls (t : list es_call) : list es_call := filter is_write_call t.
Definition health_calls (t : list es_call) : list es_call := filter is_health_call t.

(** The size a search without [size] is answered with. *)
Definition DEFAULT_SEARCH_SIZE : Z := 10.

Definition requested_size (req : search_req) : Z :=
  match q_size req with Some s => s | None => DEFAULT_SEARCH_SIZE end.

(** What the store answers: [total] counts the documents that match the
    query, [hits] holds them up to the size the request asks for. *)
Definition answers (r : response) (req : search_req) : Prop :=
  0 <= total r /\
  Z.of_nat (List.length (hits r)) = Z.min (total r) (requested_size req).

(* ===================================================================== *)
(** * Rows of the relational store *)
(* ===================================================================== *)

Record transfer_row := TransferRow {
  accessionid : string;
  currentlocation : string
}.

(** [modificationtime] is kept as its [strftime('%Y-%m-%d')] text. *)
Record file_row := FileRow {
  file_uuid : string;
  fileformatversions : list (string * string * string);
  modificationtime : option string
}.

(* ===================================================================== *)
(** * Environment, world and the monad of effects *)
(* ===================================================================== *)

(** What the outside answers.  The search store answers the [n]-th index
    call, the [n]-th update call and the [n]-th health call (counted from 0
    over the life of the client) and every search. *)
Record env := Env {
  fs_root : fsnode;
  xml_files : string -> option element;      (* ElementTree.parse(path) *)
  xmltodict_parse : element -> value;         (* externals.xmltodict *)
  time_time : Q;                              (* time.time() *)
  today : string;                             (* str(datetime.datetime.today()) *)
  timegm_strptime : string -> option Q;       (* '%Y-%m-%dT%H:%M:%S', None: ValueError *)
  dashboard_uuid : string;                    (* get_dashboard_uuid() *)
  am_version : string;                        (* version.get_version() *)
  db_transfer : string -> option transfer_row;
  db_file : string -> string -> option file_row;
  es_index : nat -> option exn;               (* None: the document is accepted *)
  es_update : nat -> option exn;              (* None: the update is applied *)
  es_health : nat -> result string;           (* health['status'] *)
  es_search : search_req -> response
}.

Inductive level := INFO | WARNING | ERROR.
Inductive stream := Stdout | Stderr.

(** What the code has done.  [heap] holds the list objects of path names;
    address 0 is the list that the [def] of [_list_files_in_dir] created
    once as the default of its parameter [filepaths]. *)
Record world := World {
  es_calls : list es_call;                (* calls on the client, oldest first *)
  logged : list (level * string);         (* logger.info / warning / error *)
  printed : list (stream * string);       (* calls of printfn *)
  stdout : list string;                   (* print *)
  slept : list Z;                         (* time.sleep *)
  heap : list (list string)
}.

Definition initial_world : world := World [] [] [] [] [] [[]].

Definition M (A : Type) : Type := env -> world -> result A * world.

Definition ret {A} (a : A) : M A := fun _ w => (Ok a, w).

Definition bind {A B} (m : M A) (f : A -> M B) : M B :=
  fun e w =>
    match m e w with
    | (Ok a, w') => f a e w'
    | (Raise x, w') => (Raise x, w')
    end.

Definition raise {A} (x : exn) : M A := fun _ w => (Raise x, w).

(** [try: m  except Exception as e: ...]: the outcome of [m] as a value. *)
Definition catching {A} (m : M A) : M (result A) :=
  fun e w => let (r, w') := m e w in (Ok r, w').

Definition lift {A} (r : result A) : M A := fun _ w => (r, w).

Definition ask {A} (f : env -> A) : M A := fun e w => (Ok (f e), w).

Declare Scope m_scope.
Delimit Scope m_scope with M.
Notation "x <- m ;; k" := (bind m (fun x => k))
  (at level 61, m at next level, right associativity) : m_scope.
Notation "m ;; k" := (bind m (fun _ => k))
  (at level 61, right associativity) : m_scope.
Local Open Scope m_scope.

(** [for x in l: body x] *)
Fixpoint for_each {A} (l : list A) (body : A -> M unit) : M unit :=
  match l with
  | [] => ret tt
  | x :: r => body x ;; for_each r body
  end.

(** ** Primitive effects *)

Definition logger (lv : level) (msg : string) : M unit :=
  fun _ w => (Ok tt, World (es_calls w) (logged w ++ [(lv, msg)]) (printed w)
                           (stdout w) (slept w) (heap w)).

Definition printfn (msg : string) (file : stream) : M unit :=
  fun _ w => (Ok tt, World (es_calls w) (logged w) (printed w ++ [(file, msg)])
                           (stdout w) (slept w) (heap w)).

Definition print (msg : string) : M unit :=
  fun _ w => (Ok tt, World (es_calls w) (logged w) (printed w)
                           (stdout w ++ [msg]) (slept w) (heap w)).

Definition time_sleep (seconds : Z) : M unit :=
  fun _ w => (Ok tt, World (es_calls w) (logged w) (printed w)
                           (stdout w) (slept w ++ [seconds]) (heap w)).

Definition called (c : es_call) (w : world) : world :=
  World (es_calls w ++ [c]) (logged w) (printed w) (stdout w) (slept w) (heap w).

(** [client.cluster.health()['status']] *)
Definition client_cluster_health : M string :=
  fun e w =>
    (es_health e (List.length (health_calls (es_calls w))), called CHealth w).

(** [client.index(body=data, index=index, doc_type=doc_type)] *)
Definition client_index (body : value) (index doc_type : string) : M unit :=
  fun e w =>
    (match es_index e (List.length (index_calls (es_calls w))) with
     | None => Ok tt
     | Some x => Raise x
     end,
     called (CIndex index doc_type body) w).

(** [client.update(body=..., index=..., doc_type=..., id=...)] *)
Definition client_update (body : value) (index doc_type id : string) : M unit :=
  fun e w =>
    (match es_update e (List.length (update_calls (es_calls w))) with
     | None => Ok tt
     | Some x => Raise x
     end,
     called (CUpdate index doc_type id body) w).

(** [client.search(...)] *)
Definition client_search (req : search_req) : M response :=
  fun e w => (Ok (es_search e req), called (CSearch req) w).

(** ** File system and data base *)

Definition os_path_exists (path : string) : M bool :=
  ask (fun e => match node_at (fs_root e) path with Some _ => true | None => false end).

Definition os_path_isfile (path : string) : M bool :=
  ask (fun e => match node_at (fs_root e) path with
                | Some n => negb (node_is_dir n)
                | None => false
                end).

Definition os_path_isdir (path : string) : M bool :=
  ask (fun e => match node_at (fs_root e) path with
                | Some n => node_is_dir n
                | None => false
                end).

Definition os_path_getsize (path : string) : M Z :=
  fun e w =>
    (match node_at (fs_root e) path with
     | Some n => Ok (node_size n)
     | None => Raise (OSError path)
     end, w).

Definition os_stat_ctime (path : string) : M Q :=
  fun e w =>
    (match node_at (fs_root e) path with
     | Some n => Ok (node_ctime n)
     | None => Raise (OSError path)
     end, w).

(** [ElementTree.parse(path).getroot()] *)
Definition ElementTree_parse (path : string) : M element :=
  fun e w =>
    (match xml_files e path with
     | Some root => Ok root
     | None => Raise ParseError
     end, w).

(* ===================================================================== *)
(** * Resilient writer *)
(* ===================================================================== *)

Definition DOC_TYPE : string := "_doc".
Definition MAX_QUERY_SIZE : Z := 50000.

Definition healthy (status : option string) : bool :=
  match status with
  | Some s => String.eqb s "yellow" || String.eqb s "green"
  | None => false
  end.

(** The [while] loop of [_wait_for_cluster_yellow_status]; [left] is
    [max_tries - tries]. *)
Fixpoint wait_loop (left : nat) (wait_between_tries : Z)
         (status : option string) : M unit :=
  if healthy status then ret tt
  else
    match left with
    | O => ret tt
    | S left' =>
        r <- catching client_cluster_health ;;
        status' <- match r with
                   | Ok s => ret (Some s)
                   | Raise _ => print "ERROR: failed health check." ;; ret None
                   end ;;
        (if healthy status' then ret tt
         else print "Cluster not in yellow or green state... waiting to retry." ;;
              time_sleep wait_between_tries) ;;
        wait_loop left' wait_between_tries status'
    end.

Definition _wait_for_cluster_yellow_status
           (wait_between_tries max_tries : Z) : M unit :=
  wait_loop (Z.to_nat max_tries) wait_between_tries None.

(** [str(e)] for the exceptions of this model *)
Definition exn_str (e : exn) : string :=
  match e with
  | IndexError => "list index out of range"
  | KeyError k => k
  | AttributeError => "'NoneType' object has no attribute"
  | TypeError => "unsupported operand"
  | ValueError m => m
  | OSError p => p
  | ParseError => "parse error"
  | TransportError m => m
  | ElasticsearchError m => m
  | EmptySearchResultError m => m
  | TooManyResultsError m => m
  end.

(** The [for _ in xrange(0, max_tries)] loop of [_try_to_index] followed by
    the final [if exception: raise exception]; [left] counts the rounds
    still to come, [exception] is the variable of that name. *)
Fixpoint try_loop (left : nat) (data : value) (index : string)
         (wait_between_tries : Z) (exception : option exn) : M unit :=
  match left with
  | O =>
      match exception with
      | Some e => raise e
      | None => ret tt
      end
  | S left' =>
      r <- catching (client_index data index DOC_TYPE) ;;
      match r with
      | Ok _ => ret tt
      | Raise e =>
          printfn "ERROR: error trying to index." Stdout ;;
          printfn (exn_str e) Stdout ;;
          time_sleep wait_between_tries ;;
          try_loop left' data index wait_between_tries (Some e)
      end
  end.

Definition _try_to_index (data : value) (index : string)
           (wait_between_tries max_tries : Z) : M unit :=
  if max_tries <? 1 then raise (ValueError "max_tries must be 1 or greater")
  else try_loop (Z.to_nat max_tries) data index wait_between_tries None.

(** How many index calls the client has seen. *)
Definition attempts (w : world) : nat := List.length (index_calls (es_calls w)).

(** How many update calls the client has seen. *)
Definition updates (w : world) : nat := List.length (update_calls (es_calls w)).

(** The world after a refused attempt: the call, the two lines printed and
    the pause. *)
Definition refused (data : value) (index : string) (wait_between_tries : Z)
           (x : exn) (w : world) : world :=
  World (es_calls w ++ [CIndex index DOC_TYPE data]) (logged w)
        ((printed w ++ [(Stdout, "ERROR: error trying to index.")])
           ++ [(Stdout, exn_str x)])
        (stdout w) (slept w ++ [wait_between_tries]) (heap w).

(** The call with the defaults [wait_between_tries=10, max_tries=10]. *)
Definition wait_and_index (data : value) (index : string) : M unit :=
  _wait_for_cluster_yellow_status 10 10 ;;
  _try_to_index data index 10 10.

(* ===================================================================== *)
(** * Queries and updates *)
(* ===================================================================== *)

(** [','.join(l)] *)
Definition comma_join (l : list string) : string := String.concat "," l.

Definition search_all_results (field value : string) (index : option string)
           (doc_type : option (list string)) : M response :=
  results <- client_search
               (SearchReq field value index (option_map comma_join doc_type)
                          (Some MAX_QUERY_SIZE) None) ;;
  (if total results >? MAX_QUERY_SIZE
   then logger WARNING
          ("Number of items in backlog (" ++ str_of_Z (total results) ++
           ") exceeds maximum amount fetched (" ++ str_of_Z MAX_QUERY_SIZE ++ ")")
   else ret tt) ;;
  ret results.

(** The parameter [index] is accepted and not passed on to the search. *)
Definition _document_ids_from_field_query (index : string)
           (doc_types : list string) (field value : string) : M (list string) :=
  let searchvalue := str_replace value "/" "\/" in
  documents <- search_all_results field searchvalue None (Some doc_types) ;;
  ret (map hit_id (hits documents)).

Definition _document_id_from_field_query (index : string)
           (doc_types : list string) (field value : string) : M (option string) :=
  ids <- _document_ids_from_field_query index doc_types field value ;;
  ret (match ids with
       | [id] => Some id
       | _ => None
       end).

Definition no_matches_msg (uuid : string) : string :=
  "No matches found for file with UUID " ++ uuid.

Definition too_many_msg (count : Z) (uuid : string) : string :=
  str_of_Z count ++ " matches found for file with UUID " ++ uuid ++
  "; unable to fetch a single result".

Definition get_file_tags (uuid : string) : M value :=
  results <- client_search
               (SearchReq "fileuuid" uuid (Some "transfers") (Some "transferfile")
                          None (Some "tags")) ;;
  let count := total results in
  if count =? 0 then raise (EmptySearchResultError (no_matches_msg uuid))
  else if count >? 1 then raise (TooManyResultsError (too_many_msg count uuid))
  else
    match hits results with
    | [] => raise IndexError
    | result :: _ =>
        match hit_fields result with
        | None => ret (VList [])
        | Some fields =>
            match dict_get fields "tags" with
            | Some tags => ret tags
            | None => raise (KeyError "tags")
            end
        end
    end.

Definition tags_doc (tags : value) : value :=
  VDict PlainDict [("doc", VDict PlainDict [("tags", tags)])].

Definition set_file_tags (uuid : string) (tags : value) : M bool :=
  document_ids <- _document_ids_from_field_query "transfers" ["transferfile"]
                                                 "fileuuid" uuid ;;
  let count := Z.of_nat (List.length document_ids) in
  if count =? 0 then raise (EmptySearchResultError (no_matches_msg uuid))
  else if count >? 1 then raise (TooManyResultsError (too_many_msg count uuid))
  else
    match document_ids with
    | [] => raise IndexError
    | id :: _ =>
        client_update (tags_doc tags) "transfers" "transferfile" id ;;
        ret true
    end.

Definition field_doc (field : string) (status : value) : value :=
  VDict PlainDict [("doc", VDict PlainDict [(field, status)])].

Definition not_found_msg (uuid index : string) : string :=
  "Unable to find document with UUID " ++ uuid ++ " in index " ++ index.

Definition _update_field (uuid index doc_type field : string) (status : value)
  : M unit :=
  document_id <- _document_id_from_field_query index [doc_type] "uuid" uuid ;;
  match document_id with
  | None => logger ERROR (not_found_msg uuid index)
  | Some id => client_update (field_doc field status) index doc_type id
  end.

Definition mark_aip_deletion_requested (uuid : string) : M unit :=
  _update_field uuid "aips" "aip" "status" (VStr "DEL_REQ").

Definition mark_aip_stored (uuid : string) : M unit :=
  _update_field uuid "aips" "aip" "status" (VStr "UPLOADED").

Definition mark_backlog_deletion_requested (uuid : string) : M unit :=
  _update_field uuid "transfers" "transfer" "pending_deletion" (VBool true).

(** ** The searches sent and what they leave behind *)

(** The search that [_document_ids_from_field_query] sends. *)
Definition ids_request (doc_types : list string) (field value : string) : search_req :=
  SearchReq field (str_replace value "/" "\/") None (Some (comma_join doc_types))
            (Some MAX_QUERY_SIZE) None.

(** The search that [get_file_tags] sends. *)
Definition tags_request (uuid : string) : search_req :=
  SearchReq "fileuuid" uuid (Some "transfers") (Some "transferfile") None (Some "tags").

(** What [search_all_results] may add to the log. *)
Definition size_warning (r : response) : list (level * string) :=
  if total r >? MAX_QUERY_SIZE
  then [(WARNING,
         "Number of items in backlog (" ++ str_of_Z (total r) ++
         ") exceeds maximum amount fetched (" ++ str_of_Z MAX_QUERY_SIZE ++ ")")]
  else [].

(** The world after [_document_ids_from_field_query]. *)
Definition looked_up (e : env) (req : search_req) (w : world) : world :=
  World (es_calls w ++ [CSearch req])
        (logged w ++ size_warning (es_search e req))
        (printed w) (stdout w) (slept w) (heap w).

(* ===================================================================== *)
(** * Walking a transfer directory *)
(* ===================================================================== *)

(** ** List objects *)

Definition heap_read (addr : nat) : M (list string) :=
  fun _ w => (Ok (nth addr (heap w) []), w).

Fixpoint append_at (addr : nat) (x : string) (h : list (list string))
  : list (list string) :=
  match h, addr with
  | [], _ => []
  | l :: r, O => (l ++ [x])%list :: r
  | l :: r, S a => l :: append_at a x r
  end.

(** [filepaths.append(x)] for the list object at [addr] *)
Definition heap_append (addr : nat) (x : string) : M unit :=
  fun _ w => (Ok tt, World (es_calls w) (logged w) (printed w) (stdout w)
                           (slept w) (append_at addr x (heap w))).

(** A fresh list object [[]] *)
Definition heap_new : M nat :=
  fun _ w => (Ok (List.length (heap w)),
              World (es_calls w) (logged w) (printed w) (stdout w)
                    (slept w) (heap w ++ [[]])%list).

(** [l.extend(xs)] for the list object at [addr] *)
Fixpoint extend_at (addr : nat) (xs : list string) (h : list (list string))
  : list (list string) :=
  match h, addr with
  | [], _ => []
  | l :: r, O => (l ++ xs)%list :: r
  | l :: r, S a => l :: extend_at a xs r
  end.

(** The world with another heap. *)
Definition with_heap (w : world) (h : list (list string)) : world :=
  World (es_calls w) (logged w) (printed w) (stdout w) (slept w) h.

(** The list object made when [def _list_files_in_dir(path, filepaths=[])]
    was evaluated. *)
Definition default_filepaths : nat := O.

(** ** [_list_files_in_dir]

    [node] is the directory that [path] names; [os.listdir] fails on
    anything but a readable directory.  [os.path.isdir(child_path)] and
    [os.access(child_path, os.R_OK)] are read off the child node. *)
Fixpoint list_files_under (node : fsnode) (path : string) (filepaths : nat)
  : M unit :=
  match node with
  | Dir _ _ true listing =>
      (fix each_entry (l : list (string * fsnode)) : M unit :=
         match l with
         | [] => ret tt
         | (file, child) :: rest =>
             let child_path := path_join path file in
             heap_append filepaths child_path ;;
             (if node_is_dir child && node_readable child
              then list_files_under child child_path filepaths
              else ret tt) ;;
             each_entry rest
         end) listing
  | _ => raise (OSError path)
  end.

(** The path names that one walk of the directory [node] at [path] comes
    by, in the order of the walk. *)
Fixpoint files_under (node : fsnode) (path : string) : list string :=
  match node with
  | Dir _ _ true listing =>
      (fix each_entry (l : list (string * fsnode)) : list string :=
         match l with
         | [] => []
         | (file, child) :: rest =>
             let child_path := path_join path file in
             (child_path ::
                (if node_is_dir child && node_readable child
                 then files_under child child_path
                 else []) ++ each_entry rest)%list
         end) listing
  | _ => []
  end.

(** [_list_files_in_dir(path, filepaths)]: the list object it was given is
    the one it returns. *)
Definition _list_files_in_dir_into (path : string) (filepaths : nat) : M nat :=
  root <- ask fs_root ;;
  match node_at root path with
  | Some node => list_files_under node path filepaths ;; ret filepaths
  | None => raise (OSError path)
  end.

(** [_list_files_in_dir(path)] *)
Definition _list_files_in_dir (path : string) : M nat :=
  _list_files_in_dir_into path default_filepaths.

(* ===================================================================== *)
(** * Indexing a transfer *)
(* ===================================================================== *)

Definition format_dict (f : string * string * string) : value :=
  let '(puid, format, group) := f in
  VDict PlainDict [("puid", VStr puid); ("format", VStr format); ("group", VStr group)].

Definition _get_file_formats (f : file_row) : list value :=
  map format_dict (fileformatversions f).

Definition _list_bulk_extractor_reports (transfer_path file_uuid : string)
  : M (list string) :=
  let log_path := path_join (path_join transfer_path "logs") ("bulk-" ++ file_uuid) in
  is_dir <- os_path_isdir log_path ;;
  if negb is_dir then ret []
  else
    (fix each_report (l : list string) (reports : list string) : M (list string) :=
       match l with
       | [] => ret reports
       | report :: rest =>
           let path := path_join log_path (report ++ ".txt") in
           is_file <- os_path_isfile path ;;
           if is_file
           then size <- os_path_getsize path ;;
                each_report rest (if size >? 0 then (reports ++ [report])%list else reports)
           else each_report rest reports
       end) ["telephone"; "ccn"; "ccn_track2"; "pii"] [].

(** [Transfer.objects.get(uuid=uuid)] and the two fields read from it;
    [Transfer.DoesNotExist] gives two empty strings. *)
Definition transfer_accession_and_name (uuid : string) : M (string * string) :=
  row <- ask (fun e => db_transfer e uuid) ;;
  match row with
  | Some transfer =>
      transfer_name <- lift (second_to_last (str_split (currentlocation transfer) slash)) ;;
      ret (accessionid transfer, transfer_name)
  | None => ret (EmptyString, EmptyString)
  end.

Definition ignore_files : list string := ["processingMCP.xml"].

Definition mem (x : string) (l : list string) : bool := existsb (String.eqb x) l.

Definition megabytes (bytes : Z) : Q := inject_Z bytes / inject_Z (1024 * 1024).

(** The body of the loop of [_index_transfer_files] for one [filepath];
    the result is the new value of [files_indexed]. *)
Definition index_transfer_file (uuid path status accession_id transfer_name
                                dashboard ingest_date : string)
           (files_indexed : Z) (filepath : string) : M Z :=
  is_file <- os_path_isfile filepath ;;
  if negb is_file then ret files_indexed
  else
    let relative_path := str_replace filepath path "%transferDirectory%" in
    row <- ask (fun e => db_file e relative_path uuid) ;;
    found <- match row with
             | Some f =>
                 let file_uuid := file_uuid f in
                 let formats := _get_file_formats f in
                 bulk_extractor_reports <- _list_bulk_extractor_reports path file_uuid ;;
                 ret (file_uuid, formats, bulk_extractor_reports,
                      match modificationtime f with
                      | Some d => d
                      | None => EmptyString
                      end)
             | None => ret (EmptyString, [], [], EmptyString)
             end ;;
    let '(file_uuid, formats, bulk_extractor_reports, modification_date) := found in
    let relative_path :=
      str_replace relative_path "%transferDirectory%" (transfer_name ++ "/") in
    let file_extension := lower (drop_first (splitext_ext filepath)) in
    let filename := basename filepath in
    bytes <- os_path_getsize filepath ;;
    let size := megabytes bytes in
    create_time <- os_stat_ctime filepath ;;
    if negb (mem filename ignore_files)
    then
      printfn ("Indexing " ++ relative_path ++ " (UUID: " ++ file_uuid ++ ")") Stdout ;;
      let indexData := VDict PlainDict
        [("filename", VStr filename);
         ("relative_path", VStr relative_path);
         ("fileuuid", VStr file_uuid);
         ("sipuuid", VStr uuid);
         ("accessionid", VStr accession_id);
         ("status", VStr status);
         ("origin", VStr dashboard);
         ("ingestdate", VStr ingest_date);
         ("created", VFloat create_time);
         ("modification_date", VStr modification_date);
         ("size", VFloat size);
         ("tags", VList []);
         ("file_extension", VStr file_extension);
         ("bulk_extractor_reports", VList (map VStr bulk_extractor_reports));
         ("format", VList formats)] in
      wait_and_index indexData "transferfiles" ;;
      ret (files_indexed + 1)
    else
      printfn ("Skipping indexing " ++ relative_path) Stdout ;;
      ret files_indexed.

(** [for x in l: acc = body acc x] *)
Fixpoint for_fold {A B} (l : list A) (acc : B) (body : B -> A -> M B) : M B :=
  match l with
  | [] => ret acc
  | x :: r => acc' <- body acc x ;; for_fold r acc' body
  end.

Definition _index_transfer_files (uuid path status : string) : M Z :=
  ingest_date <- ask (fun e => str_prefix 10 (today e)) ;;
  names <- transfer_accession_and_name uuid ;;
  let '(accession_id, transfer_name) := names in
  dashboard <- ask dashboard_uuid ;;
  filepaths <- _list_files_in_dir path ;;
  files <- heap_read filepaths ;;
  for_fold files 0
    (index_transfer_file uuid path status accession_id transfer_name
                         dashboard ingest_date).

Definition index_transfer_and_files (uuid path status : string) : M Z :=
  ex <- os_path_exists path ;;
  if negb ex
  then
    let error_message := "Transfer does not exist at: " ++ path in
    logger ERROR error_message ;;
    printfn error_message Stderr ;;
    ret 1
  else
    printfn ("Transfer UUID: " ++ uuid) Stdout ;;
    printfn "Indexing Transfer files ..." Stdout ;;
    files_indexed <- _index_transfer_files uuid path status ;;
    printfn ("Files indexed: " ++ str_of_Z files_indexed) Stdout ;;
    printfn "Indexing Transfer ..." Stdout ;;
    row <- ask (fun e => db_transfer e uuid) ;;
    transfer_name <- match row with
                     | Some transfer =>
                         lift (second_to_last (str_split (currentlocation transfer) slash))
                     | None => ret EmptyString
                     end ;;
    ingest_date <- ask (fun e => str_prefix 10 (today e)) ;;
    let transfer_data := VDict PlainDict
      [("name", VStr transfer_name);
       ("status", VStr status);
       ("ingest_date", VStr ingest_date);
       ("file_count", VInt files_indexed);
       ("uuid", VStr uuid);
       ("pending_deletion", VBool false)] in
    wait_and_index transfer_data "transfers" ;;
    printfn "Done." Stdout ;;
    ret 0.

(* ===================================================================== *)
(** * The UUID pattern of the AIP file index *)
(* ===================================================================== *)

(** [\w] on ASCII text: a letter, a digit or the underscore. *)
Definition is_word_char (c : ascii) : bool :=
  let n := nat_of_ascii c in
  ((48 <=? n) && (n <=? 57) || (65 <=? n) && (n <=? 90) ||
   (97 <=? n) && (n <=? 122) || (n =? 95))%nat.

Definition dash : ascii := "-"%char.

(** The pieces of [\w{8}-?\w{4}-?\w{4}-?\w{4}-?\w{12}]. *)
Inductive atom :=
| Words (n : nat)      (* \w{n} *)
| OptDash.             (* -?    *)

Definition uuix_regex : list atom :=
  [Words 8; OptDash; Words 4; OptDash; Words 4; OptDash; Words 4; OptDash; Words 12].

(** [n] word characters at the start of [s]: they and what follows. *)
Fixpoint take_words (n : nat) (s : string) : option (string * string) :=
  match n with
  | O => Some (EmptyString, s)
  | S n' =>
      match s with
      | String c r =>
          if is_word_char c
          then match take_words n' r with
               | Some (w, rest) => Some (String c w, rest)
               | None => None
               end
          else None
      | EmptyString => None
      end
  end.

(** A match of the pattern at the start of [s]; [-?] takes the dash first
    and goes without it when the rest does not match. *)
Fixpoint match_here (pat : list atom) (s : string) : option string :=
  match pat with
  | [] => Some EmptyString
  | Words n :: rest =>
      match take_words n s with
      | Some (w, s') => option_map (String.append w) (match_here rest s')
      | None => None
      end
  | OptDash :: rest =>
      match s with
      | String c s' =>
          if Ascii.eqb c dash
          then match match_here rest s' with
               | Some m => Some (String c m)
               | None => match_here rest s
               end
          else match_here rest s
      | EmptyString => match_here rest s
      end
  end.

(** [re.findall(pat, s)]: the matches from left to right, the search going
    on behind each match; [skip] characters belong to the match before. *)
Fixpoint findall_from (skip : nat) (pat : list atom) (s : string) : list string :=
  match s with
  | EmptyString => []
  | String _ r =>
      match skip with
      | S k => findall_from k pat r
      | O =>
          match match_here pat s with
          | Some m => m :: findall_from (String.length m - 1) pat r
          | None => findall_from O pat r
          end
      end
  end.

Definition re_findall (pat : list atom) (s : string) : list string :=
  findall_from O pat s.

(** [len(set(uuids))] *)
Definition distinct_count (l : list string) : nat :=
  List.length (nodup string_dec l).

(** Lines 503-510: the file UUID parsed out of the file [ID]. *)
Definition uuid_from_file_id (id : string) : value :=
  let uuids := re_findall uuix_regex id in
  if (distinct_count uuids =? 1)%nat
  then match uuids with
       | u :: _ => VStr u
       | [] => VNone
       end
  else VNone.

(* ===================================================================== *)
(** * Indexing an AIP *)
(* ===================================================================== *)

Definition tool_output_path : list step :=
  map tagged ["mets:amdSec"; "mets:techMD"; "mets:mdWrap"; "mets:xmlData";
              "premis:object"; "premis:objectCharacteristics";
              "premis:objectCharacteristicsExtension"].

(** The tree is changed in place; the embedding hands the changed root on. *)
Definition _remove_tool_output_from_mets (root : element) : M element :=
  print "Removed FITS output from METS." ;;
  ret (clear_at tool_output_path root).

Definition dublincore_path : list step :=
  map tagged ["mets:dmdSec"; "mets:mdWrap"; "mets:xmlData"; "dcterms:dublincore"].

Definition transfer_metadata_path : list step :=
  map tagged ["mets:amdSec"; "mets:sourceMD"; "mets:mdWrap"; "mets:xmlData";
              "transfer_metadata"].

(** [d[key]] on a value *)
Definition subscript (d : value) (key : string) : result value :=
  match d with
  | VDict _ items =>
      match dict_get items key with
      | Some v => Ok v
      | None => Raise (KeyError key)
      end
  | _ => Raise TypeError
  end.

Fixpoint all_ok {A} (l : list (result A)) : result (list A) :=
  match l with
  | [] => Ok []
  | r :: rest => rbind r (fun a => rbind (all_ok rest) (fun t => Ok (a :: t)))
  end.

Definition _extract_transfer_metadata (doc : element) : M value :=
  parse <- ask xmltodict_parse ;;
  l <- lift (all_ok (map (fun el => subscript (parse el) "transfer_metadata")
                         (findall transfer_metadata_path doc))) ;;
  ret (VList l).

Definition value_of_Z (z : option Z) : value :=
  match z with Some n => VInt n | None => VNone end.

(** [size or os.path.getsize(path)] *)
Definition size_or_getsize (size : option Z) (path : string) : M Z :=
  match size with
  | Some (Z0) | None => os_path_getsize path
  | Some s => ret s
  end.

(** The collection identifier and the parent reference as
    [index_aip_and_files] reads them (lines 373-380). *)
Definition aip_collection_fields (root : element) : value * value :=
  match find dublincore_path root with
  | Some dublincore =>
      let aip_type := or_else (findtext [tagged "dc:type"] dublincore)
                              (findtext [tagged "dcterms:type"] dublincore) in
      let aic_identifier :=
        match aip_type with
        | Some t =>
            if String.eqb t "Archival Information Collection"
            then value_of_text
                   (or_else (findtext [tagged "dc:identifier"] dublincore)
                            (findtext [tagged "dcterms:identifier"] dublincore))
            else VNone
        | None => VNone
        end in
      (aic_identifier, value_of_text (findtext [tagged "dcterms:isPartOf"] dublincore))
  | None => (VNone, VNone)
  end.

(** The same two fields as [_index_aip_files] reads them (lines 458-466). *)
Definition aip_file_collection_fields (root : element) : value * value :=
  match find dublincore_path root with
  | Some dublincore =>
      let aip_type := or_else (findtext [tagged "dc:type"] dublincore)
                              (findtext [tagged "dcterms:type"] dublincore) in
      match aip_type with
      | Some t =>
          if String.eqb t "Archival Information Collection"
          then (value_of_text
                  (or_else (findtext [tagged "dc:identifier"] dublincore)
                           (findtext [tagged "dcterms:identifier"] dublincore)),
                VNone)
          else if String.eqb t "Archival Information Package"
          then (VNone, value_of_text (findtext [tagged "dcterms:isPartOf"] dublincore))
          else (VNone, VNone)
      | None => (VNone, VNone)
      end
  | None => (VNone, VNone)
  end.

Definition file_paths (use : string) : list step :=
  [tagged "mets:fileSec"; tagged_with "mets:fileGrp" "USE" use; tagged "mets:file"].

Definition premis_uuid_path : list step :=
  map tagged ["mets:techMD"; "mets:mdWrap"; "mets:xmlData"; "premis:object";
              "premis:objectIdentifier"; "premis:objectIdentifierValue"].

Definition xlink_href : string := "{http://www.w3.org/1999/xlink}href".

(** Lines 497-519: the file UUID of a manifest entry and the [amdSec] to
    index with it ([{}] for an entry without [ADMID]). *)
Definition aip_file_uuid (root file_ : element) : M (value * value) :=
  let admID := assoc (attrib_of file_) "ADMID" in
  match admID with
  | None =>
      match assoc (attrib_of file_) "ID" with
      | Some id => ret (uuid_from_file_id id, VDict PlainDict [])
      | None => raise (KeyError "ID")
      end
  | Some admID =>
      match find [tagged_with "mets:amdSec" "ID" admID] root with
      | None => raise AttributeError
      | Some amdSecInfo =>
          let fileUUID := value_of_text (findtext premis_uuid_path amdSecInfo) in
          parse <- ask xmltodict_parse ;;
          amdSec <- lift (normalize (parse amdSecInfo)) ;;
          ret (fileUUID, amdSec)
      end
  end.

(** The document of one file: a copy of [fileData] with the fields the
    loop sets. *)
Definition aip_file_document (uuid name version : string) (indexedAt : Q)
           (is_part_of aic_identifier dmdSec origin identifiers transferMetadata : value)
           (fileUUID amdSec : value) (filePath fileExtension : string) : value :=
  VDict PlainDict
    [("archivematicaVersion", VStr version);
     ("AIPUUID", VStr uuid);
     ("sipName", VStr name);
     ("FILEUUID", fileUUID);
     ("indexedAt", VFloat indexedAt);
     ("filePath", VStr filePath);
     ("fileExtension", VStr fileExtension);
     ("isPartOf", is_part_of);
     ("AICID", aic_identifier);
     ("METS", VDict PlainDict [("dmdSec", dmdSec); ("amdSec", amdSec)]);
     ("origin", origin);
     ("identifiers", identifiers);
     ("transferMetadata", transferMetadata)].

(** The body of the loop of [_index_aip_files] for one [file_]; [document]
    builds the copy of [fileData].  The reset of
    [fileData['METS']['amdSec']] at the end of each round is why a round
    starts from an empty [amdSec]. *)
Definition index_aip_file (root : element)
           (document : value -> value -> string -> string -> value)
           (file_ : element) : M unit :=
  found <- aip_file_uuid root file_ ;;
  let '(fileUUID, amdSec) := found in
  match find [tagged "mets:FLocat"] file_ with
  | None => raise AttributeError
  | Some flocat =>
      match assoc (attrib_of flocat) xlink_href with
      | None => raise (KeyError xlink_href)
      | Some filePath =>
          let fileExtension := splitext_ext filePath in
          let indexData :=
            document fileUUID amdSec filePath
                     (match fileExtension with
                      | EmptyString => EmptyString
                      | _ => lower (drop_first fileExtension)
                      end) in
          wait_and_index indexData "aipfiles"
      end
  end.

Definition _index_aip_files (uuid mets_path name : string) (identifiers : value)
  : M Z :=
  root <- ElementTree_parse mets_path ;;
  root <- _remove_tool_output_from_mets root ;;
  parse <- ask xmltodict_parse ;;
  let dmdSec := findall (map tagged ["mets:dmdSec"; "mets:mdWrap"; "mets:xmlData"]) root in
  let dmdSecData := fold_left (fun _ item => parse item) dmdSec (VDict PlainDict []) in
  let '(aic_identifier, is_part_of) := aip_file_collection_fields root in
  version <- ask am_version ;;
  indexedAt <- ask time_time ;;
  dmdSec' <- lift (normalize dmdSecData) ;;
  origin <- ask dashboard_uuid ;;
  transferMetadata <- _extract_transfer_metadata root ;;
  let original_files := findall (file_paths "original") root in
  let metadata_files := findall (file_paths "metadata") root in
  let files := (original_files ++ metadata_files)%list in
  for_each files
    (index_aip_file root
       (aip_file_document uuid name version indexedAt is_part_of aic_identifier
                          dmdSec' (VStr origin) identifiers transferMetadata)) ;;
  ret (Z.of_nat (List.length files)).

(** ['size': (size or os.path.getsize(path)) / 1024 / 1024], a true
    division twice, kept as a rational number. *)
Definition aip_size (bytes : Z) : Q := inject_Z bytes / inject_Z 1024 / inject_Z 1024.

Definition index_aip_and_files (uuid path mets_path name : string)
           (size : option Z) (aips_in_aic : option Z) (identifiers : value)
           (encrypted : bool) : M Z :=
  path_exists <- os_path_exists path ;;
  let error_message :=
    if negb path_exists then Some ("AIP does not exist at: " ++ path) else None in
  mets_exists <- os_path_exists mets_path ;;
  let error_message :=
    if negb mets_exists then Some ("METS file does not exist at: " ++ mets_path)
    else error_message in
  match error_message with
  | Some (String c m) =>
      logger ERROR (String c m) ;;
      printfn (String c m) Stderr ;;
      ret 1
  | _ =>
      printfn ("AIP UUID: " ++ uuid) Stdout ;;
      printfn "Indexing AIP ..." Stdout ;;
      root <- ElementTree_parse mets_path ;;
      root <- _remove_tool_output_from_mets root ;;
      let '(aic_identifier, is_part_of) := aip_collection_fields root in
      parse <- ask xmltodict_parse ;;
      mets_data <- lift (normalize (parse root)) ;;
      match find [tagged "mets:metsHdr"] root with
      | None => raise AttributeError
      | Some mets_hdr =>
          let mets_created_attr := assoc (attrib_of mets_hdr) "CREATEDATE" in
          now <- ask time_time ;;
          created <- match mets_created_attr with
                     | Some (String c m) =>
                         parsed <- ask (fun e => timegm_strptime e (String c m)) ;;
                         match parsed with
                         | Some t => ret t
                         | None =>
                             printfn ("Failed to parse METS CREATEDATE: " ++ String c m)
                                     Stdout ;;
                             ret now
                         end
                     | _ => ret now
                     end ;;
          bytes <- size_or_getsize size path ;;
          origin <- ask dashboard_uuid ;;
          transferMetadata <- _extract_transfer_metadata root ;;
          let aip_data := VDict PlainDict
            [("uuid", VStr uuid);
             ("name", VStr name);
             ("filePath", VStr path);
             ("size", VFloat (aip_size bytes));
             ("mets", mets_data);
             ("origin", VStr origin);
             ("created", VFloat created);
             ("AICID", aic_identifier);
             ("isPartOf", is_part_of);
             ("countAIPsinAIC", value_of_Z aips_in_aic);
             ("identifiers", identifiers);
             ("transferMetadata", transferMetadata);
             ("encrypted", VBool encrypted)] in
          wait_and_index aip_data "aips" ;;
          printfn "Done." Stdout ;;
          printfn "Indexing AIP files ..." Stdout ;;
          files_indexed <- _index_aip_files uuid mets_path name identifiers ;;
          printfn ("Files indexed: " ++ str_of_Z files_indexed) Stdout ;;
          ret 0
      end
  end.

(* ===================================================================== *)
(** * Statements about computations *)
(* ===================================================================== *)

(** Running a computation. *)
Definition run {A} (m : M A) (e : env) (w : world) : result A * world := m e w.

(** [m] can return [a]. *)
Definition returns {A} (e : env) (m : M A) (a : A) : Prop :=
  exists w w', m e w = (Ok a, w').

(** [m] only adds calls to the client's record, and each of them
    satisfies [P]. *)
Definition emits {A} (e : env) (P : es_call -> Prop) (m : M A) : Prop :=
  forall w, exists new,
    es_calls (snd (m e w)) = (es_calls w ++ new)%list /\ Forall P new.

(** [m] leaves the client alone. *)
Definition silent {A} (m : M A) : Prop :=
  forall e w, es_calls (snd (m e w)) = es_calls w.

(** ** The AIP document *)

(** The byte count that [size or os.path.getsize(path)] gives. *)
Definition byte_count (e : env) (size : option Z) (path : string) (bytes : Z) : Prop :=
  match size with
  | Some s =>
      if s =? 0
      then exists n, node_at (fs_root e) path = Some n /\ bytes = node_size n
      else bytes = s
  | None => exists n, node_at (fs_root e) path = Some n /\ bytes = node_size n
  end.

(** A call on the client that, if it indexes a document into [aips], sends
    no collection identifier, no parent reference and the size in
    megabytes. *)
Definition aip_call_ok (e : env) (size : option Z) (path : string) (c : es_call)
  : Prop :=
  forall doc_type body,
    c = CIndex "aips" doc_type body ->
    subscript body "AICID" = Ok VNone /\
    subscript body "isPartOf" = Ok VNone /\
    exists bytes,
      byte_count e size path bytes /\
      subscript body "size" = Ok (VFloat (aip_size bytes)).

(* ===================================================================== *)
(** * Sample data *)
(* ===================================================================== *)

(** Two transfers on disk and an AIP with its METS file. *)
Definition sample_fs : fsnode :=
  Dir 4096 0 true
    [("t1", Dir 4096 0 true [("a.txt", File 2048 1); ("processingMCP.xml", File 10 1)]);
     ("t2", Dir 4096 0 true [("b.TXT", File 1048576 2)]);
     ("aip", Dir 4096 0 true [("METS.xml", File 100 3)])].

Definition sample_uuid : string := "ae8d4290-fe52-4954-b72a-0f591bee2e2f".
Definition other_uuid : string := "0b1c3d5e-0000-4954-b72a-0f591bee2e2f".

(** A [mets:file] without [ADMID] whose [ID] is [id]. *)
Definition metadata_file (id : string) : element :=
  Element "mets:file" [("ID", id)] None
    [Element "mets:FLocat" [(xlink_href, "objects/metadata/x.CSV")] None []].

(** A manifest without a Dublin Core section and with one metadata file. *)
Definition sample_mets : element :=
  Element "mets:mets" [] None
    [Element "mets:metsHdr" [("CREATEDATE", "2019-01-01T00:00:00")] None [];
     Element "mets:fileSec" [] None
       [Element "mets:fileGrp" [("USE", "metadata")] None
          [metadata_file ("file-" ++ sample_uuid)]]].

Definition sample_env (index_outcome : nat -> option exn)
           (search : search_req -> response) : env :=
  Env sample_fs
      (fun p => if String.eqb p "/aip/METS.xml" then Some sample_mets else None)
      (fun el => VDict OrderedDict [(tag_of el, VStr "x")])
      (1000 # 1) "2019-05-05 10:00:00.000000" (fun _ => Some (5 # 1))
      "dashboard" "1.9"
      (fun _ => None) (fun _ _ => None)
      index_outcome (fun _ => None) (fun _ => Ok "green")
      search.

(** The same outside, with a store that answers the [n]-th update as
    [update_outcome] says. *)
Definition with_updates (update_outcome : nat -> option exn) (e : env) : env :=
  Env (fs_root e) (xml_files e) (xmltodict_parse e) (time_time e) (today e)
      (timegm_strptime e) (dashboard_uuid e) (am_version e) (db_transfer e) (db_file e)
      (es_index e) update_outcome (es_health e) (es_search e).

(** The store refuses every update. *)
Definition refuses_updates : nat -> option exn :=
  fun _ => Some (TransportError "update refused").

Definition always_accepts : nat -> option exn := fun _ => None.

(** The store refuses the first [n] index calls. *)
Definition fails_first (n : nat) : nat -> option exn :=
  fun i => if (i <? n)%nat
           then Some (TransportError ("attempt " ++ str_of_nat (S i)))
           else None.

Definition no_hits : search_req -> response := fun _ => Response 0 [].

Definition tagged_hit (id : string) : hit :=
  Hit id [("fileuuid", VStr sample_uuid)]
      (Some [("tags", VList [VStr "draft"])]).

Definition one_hit : search_req -> response :=
  fun _ => Response 1 [tagged_hit "doc1"].

Definition two_hits : search_req -> response :=
  fun _ => Response 2 [tagged_hit "doc1"; tagged_hit "doc2"].

(** A mapping with a nested mapping, and one with an empty list. *)
Definition nested_tree : value :=
  VDict PlainDict [("a", VDict PlainDict [("b", VInt 1)]); ("c", VStr "x")].

Definition flat_tree : value :=
  VDict PlainDict [("b", VInt 1); ("c", VStr "x")].

Definition empty_list_tree : value :=
  VDict PlainDict [("b", VInt 1); ("k", VList [])].

(* ===================================================================== *)
(** * Shapes of trees, for the facts about the normalizer *)
(* ===================================================================== *)

(** Somewhere in [v] a key holds an empty list. *)
Fixpoint has_empty_list (v : value) : bool :=
  match v with
  | VDict _ d =>
      existsb (fun e => let '(_, x) := e in
                        match x with
                        | VList [] => true
                        | _ => has_empty_list x
                        end) d
  | VList l => existsb has_empty_list l
  | _ => false
  end.

(** Nowhere in [v] does a key hold a mapping directly. *)
Fixpoint no_dict_values (v : value) : bool :=
  match v with
  | VDict _ d =>
      forallb (fun e => let '(_, x) := e in negb (is_dict x) && no_dict_values x) d
  | VList l => forallb no_dict_values l
  | _ => true
  end.

(** [s.endswith(suffix)] *)
Fixpoint ends_with (suffix s : string) : bool :=
  if String.eqb s suffix then true
  else match s with
       | EmptyString => false
       | String _ r => ends_with suffix r
       end.

(** Everywhere in [v], a key that holds a list ends in [_list] and a key
    that holds a mapping ends in [_data]. *)
Fixpoint keys_tagged (v : value) : bool :=
  match v with
  | VDict _ d =>
      forallb (fun e => let '(key, x) := e in
                        implb (is_list x) (ends_with "_list" key) &&
                        implb (is_dict x) (ends_with "_data" key) &&
                        keys_tagged x) d
  | VList l => forallb keys_tagged l
  | _ => true
  end.

(** A mapping in which the renaming pass makes two keys meet. *)
Definition colliding_tree : value :=
  VDict PlainDict [("a", VDict PlainDict [("b", VInt 1)]); ("a_data", VInt 2)].

(* ===================================================================== *)
(** * The health gate, for the facts about it *)
(* ===================================================================== *)

(** An answer to a health check that ends the wait. *)
Definition healthy_answer (r : result string) : bool :=
  match r with
  | Ok s => healthy (Some s)
  | Raise _ => false
  end.

(** How many health checks the client has seen. *)
Definition health_attempts (w : world) : nat :=
  List.length (health_calls (es_calls w)).

(** The world after a health check that did not end the wait: the call,
    what is printed, and the pause. *)
Definition unhealthy (r : result string) (wait_between_tries : Z) (w : world)
  : world :=
  World (es_calls w ++ [CHealth]) (logged w) (printed w)
        ((stdout w
            ++ match r with
               | Raise _ => ["ERROR: failed health check."]
               | Ok _ => []
               end)
           ++ ["Cluster not in yellow or green state... waiting to retry."])
        (slept w ++ [wait_between_tries]) (heap w).

(* ===================================================================== *)
(** * Documents of a transfer, for the facts about them *)
(* ===================================================================== *)

(** [os.path.isfile(path)] read off the environment. *)
Definition is_regular_file (e : env) (path : string) : bool :=
  match node_at (fs_root e) path with
  | Some n => negb (node_is_dir n)
  | None => false
  end.

(** A path that the loop of [_index_transfer_files] indexes: a regular file
    whose name is not on the list of ignored names. *)
Definition indexable (e : env) (filepath : string) : bool :=
  is_regular_file e filepath && negb (mem (basename filepath) ignore_files).

(** What [index_transfer_and_files] may send to the client: health checks,
    documents of files and the document of the transfer. *)
Definition transfer_call_ok (uuid status : string) (c : es_call) : Prop :=
  match c with
  | CHealth => True
  | CIndex index doc_type body =>
      doc_type = DOC_TYPE /\
      ((index = "transferfiles" /\
        subscript body "sipuuid" = Ok (VStr uuid) /\
        subscript body "status" = Ok (VStr status) /\
        subscript body "tags" = Ok (VList []) /\
        exists filename,
          subscript body "filename" = Ok (VStr filename) /\
          mem filename ignore_files = false) \/
       (index = "transfers" /\
        subscript body "uuid" = Ok (VStr uuid) /\
        subscript body "status" = Ok (VStr status) /\
        subscript body "pending_deletion" = Ok (VBool false)))
  | _ => False
  end.

(** The fields of a file document that come from the relational store, for
    the row found (or not) for the file. *)
Definition file_row_fields (row : option file_row) (body : value) : Prop :=
  match row with
  | Some f =>
      subscript body "fileuuid" = Ok (VStr (file_uuid f)) /\
      subscript body "format" = Ok (VList (_get_file_formats f)) /\
      subscript body "modification_date"
      = Ok (VStr (match modificationtime f with Some d => d | None => EmptyString end))
  | None =>
      subscript body "fileuuid" = Ok (VStr EmptyString) /\
      subscript body "format" = Ok (VList []) /\
      subscript body "bulk_extractor_reports" = Ok (VList []) /\
      subscript body "modification_date" = Ok (VStr EmptyString)
  end.

(** A document of a file carries what the store knows of the file at its
    place relative to [path]. *)
Definition file_document_ok (e : env) (uuid path : string) (c : es_call) : Prop :=
  forall doc_type body,
    c = CIndex "transferfiles" doc_type body ->
    exists filepath,
      is_regular_file e filepath = true /\
      subscript body "filename" = Ok (VStr (basename filepath)) /\
      file_row_fields
        (db_file e (str_replace filepath path "%transferDirectory%") uuid) body.

(* ===================================================================== *)
(** * What a walk reaches, for the facts about the walk *)
(* ===================================================================== *)

(** [reaches node names target]: from the readable directory [node], the
    entry names [names] lead to [target] through directories that are
    readable. *)
Inductive reaches : fsnode -> list string -> fsnode -> Prop :=
| reaches_entry :
    forall size ctime listing file child,
      In (file, child) listing ->
      reaches (Dir size ctime true listing) [file] child
| reaches_below :
    forall size ctime listing file child names target,
      In (file, child) listing ->
      node_is_dir child && node_readable child = true ->
      reaches child names target ->
      reaches (Dir size ctime true listing) (file :: names) target.

(** [os.path.join] along a list of names. *)
Definition join_all (path : string) (names : list string) : string :=
  fold_left path_join names path.

(* ===================================================================== *)
(** * Cleared elements, for the facts about the tool output *)
(* ===================================================================== *)

(** An element as [el.clear()] leaves it: no attribute, no text, no
    child. *)
Definition is_bare (x : element) : Prop :=
  attrib_of x = [] /\ text_of x = None /\ children_of x = [].

(** A path of plain tags. *)
Definition tags_only (path : list step) : Prop :=
  Forall (fun s => step_test s = None) path.

(* ===================================================================== *)
(** * Reading documents back: [get_aip_data], [get_transfer_file_info]
      and the helpers for results *)
(* ===================================================================== *)

(** [if fields:] holds for a non-empty value only. *)
Definition truthy_fields (fields : option string) : option string :=
  match fields with
  | Some (String c s) => Some (String c s)
  | _ => None
  end.

(** The search that [get_aip_data] sends: no size, so the store answers
    with its default. *)
Definition aip_request (uuid : string) (fields : option string) : search_req :=
  SearchReq "uuid" uuid (Some "aips") None None (truthy_fields fields).

Definition get_aip_data (uuid : string) (fields : option string) : M hit :=
  aips <- client_search (aip_request uuid fields) ;;
  match hits aips with
  | first :: _ => ret first
  | [] => raise IndexError
  end.

(** [logger.debug]: the log of the model starts at [INFO]. *)
Definition logger_debug (msg : string) : M unit := ret tt.

(** [x == value] for a text [value]. *)
Definition is_text (x : value) (value : string) : bool :=
  match x with
  | VStr s => String.eqb s value
  | _ => false
  end.

(** [[results for results in hits if results['_source'][field] == value]] *)
Fixpoint exact_matches (field value : string) (found : list hit) : result (list hit) :=
  match found with
  | [] => Ok []
  | h :: rest =>
      match dict_get (hit_source h) field with
      | None => Raise (KeyError field)
      | Some x =>
          rbind (exact_matches field value rest)
                (fun t => Ok (if is_text x value then h :: t else t))
      end
  end.

(** The search that [get_transfer_file_info] sends. *)
Definition file_info_request (field value : string) : search_req :=
  SearchReq field value (Some "transfers") None (Some MAX_QUERY_SIZE) None.

Definition no_exact_results : string :=
  "get_transfer_file_info returned no exact results".

Definition get_transfer_file_info (field value : string) : M entries :=
  logger_debug ("get_transfer_file_info: field: " ++ field ++ ", value: " ++ value) ;;
  documents <- search_all_results field value (Some "transfers") None ;;
  results <-
    match hits documents with
    | [] => ret []
    | [only] => ret (hit_source only)
    | found =>
        filtered_results <- lift (exact_matches field value found) ;;
        match filtered_results with
        | [] =>
            logger ERROR ("get_transfer_file_info returned no exact results for query " ++
                          field ++ ": " ++ value) ;;
            raise (ElasticsearchError no_exact_results)
        | [only] => ret (hit_source only)
        | first :: _ =>
            logger WARNING
              ("get_transfer_file_info returned " ++
               str_of_nat (List.length filtered_results) ++ " results for query " ++
               field ++ ": " ++ value ++ " (using first result)") ;;
            ret (hit_source first)
        end
    end ;;
  logger_debug "get_transfer_file_info: results" ;;
  ret results.

(** [clone = item['_source'].copy(); clone['document_id'] = item['_id']] *)
Definition augment_raw_search_results (raw_results : response) : list entries :=
  map (fun item => dict_set (hit_source item) "document_id" (VStr (hit_id item)))
      (hits raw_results).

(** A hit has the field, with another value than [value]. *)
Definition inexact (field value : string) (h : hit) : Prop :=
  exists x, dict_get (hit_source h) field = Some x /\ is_text x value = false.

(** A hit has the field, with the value [value]. *)
Definition exact (field value : string) (h : hit) : Prop :=
  dict_get (hit_source h) field = Some (VStr value).

Definition has_field (field : string) (h : hit) : Prop :=
  exists x, dict_get (hit_source h) field = Some x.

(** Two answers for the sample environment: the first hit is for another
    file name than the second. *)
Definition ranked_hits : search_req -> response :=
  fun _ => Response 2 [Hit "doc1" [("filename", VStr "a.txt.bak")] None;
                       Hit "doc2" [("filename", VStr "a.txt")] None].

(* ===================================================================== *)
(** * Documents of the files of an AIP, for the facts about them *)
(* ===================================================================== *)

(** The entries of the manifest that [_index_aip_files] goes through. *)
Definition manifest_files (root : element) : list element :=
  (findall (file_paths "original") root ++ findall (file_paths "metadata") root)%list.

(** [body['METS']['amdSec']] *)
Definition amdSec_of (body : value) : result value :=
  rbind (subscript body "METS") (fun mets => subscript mets "amdSec").

(** What [_index_aip_files] may send to the client: health checks and
    documents of entries of the manifest [root]. *)
Definition aip_file_call_ok (uuid name : string) (identifiers : value) (root : element)
           (c : es_call) : Prop :=
  match c with
  | CHealth => True
  | CIndex index doc_type body =>
      index = "aipfiles" /\ doc_type = DOC_TYPE /\
      subscript body "AIPUUID" = Ok (VStr uuid) /\
      subscript body "sipName" = Ok (VStr name) /\
      subscript body "identifiers" = Ok identifiers /\
      (subscript body "AICID" = Ok VNone \/ subscript body "isPartOf" = Ok VNone) /\
      exists file_ flocat filePath,
        In file_ (manifest_files root) /\
        find [tagged "mets:FLocat"] file_ = Some flocat /\
        assoc (attrib_of flocat) xlink_href = Some filePath /\
        subscript body "filePath" = Ok (VStr filePath) /\
        (assoc (attrib_of file_) "ADMID" = None ->
         amdSec_of body = Ok (VDict PlainDict []) /\
         exists id,
           assoc (attrib_of file_) "ID" = Some id /\
           subscript body "FILEUUID" = Ok (uuid_from_file_id id))
  | _ => False
  end.

(* ===================================================================== *)
(** * Reports of bulk_extractor, for the facts about them *)
(* ===================================================================== *)

Definition report_names : list string := ["telephone"; "ccn"; "ccn_track2"; "pii"].

(** [os.path.join(transfer_path, 'logs', 'bulk-' + file_uuid)] *)
Definition bulk_log_path (transfer_path file_uuid : string) : string :=
  path_join (path_join transfer_path "logs") ("bulk-" ++ file_uuid).

(** [os.path.isdir(path)] read off the environment. *)
Definition is_directory (e : env) (path : string) : bool :=
  match node_at (fs_root e) path with
  | Some n => node_is_dir n
  | None => false
  end.

(** The report is a regular file that is not empty. *)
Definition report_present (e : env) (log_path report : string) : bool :=
  match node_at (fs_root e) (path_join log_path (report ++ ".txt")) with
  | Some n => negb (node_is_dir n) && (node_size n >? 0)
  | None => false
  end.

(* ===================================================================== *)
(** * Documents of an AIP, for the facts about them *)
(* ===================================================================== *)

(** [created] is what lines 391-399 make of the header of the manifest:
    the parsed [CREATEDATE] if the header has one that is not empty and
    that parses, the current time otherwise. *)
Definition created_from (e : env) (mets_hdr : element) (created : Q) : Prop :=
  match assoc (attrib_of mets_hdr) "CREATEDATE" with
  | Some (String c m) =>
      match timegm_strptime e (String c m) with
      | Some t => created = t
      | None => created = time_time e
      end
  | _ => created = time_time e
  end.

(** What [index_aip_and_files] may send to the client: health checks, the
    document of the AIP, made from the manifest at [mets_path], and
    documents of its files. *)
Definition aip_document_ok (e : env) (uuid path mets_path name : string)
           (size aips_in_aic : option Z) (identifiers : value) (encrypted : bool)
           (c : es_call) : Prop :=
  match c with
  | CHealth => True
  | CIndex index doc_type body =>
      doc_type = DOC_TYPE /\
      ((index = "aips" /\
        subscript body "uuid" = Ok (VStr uuid) /\
        subscript body "name" = Ok (VStr name) /\
        subscript body "filePath" = Ok (VStr path) /\
        subscript body "origin" = Ok (VStr (dashboard_uuid e)) /\
        subscript body "countAIPsinAIC" = Ok (value_of_Z aips_in_aic) /\
        subscript body "identifiers" = Ok identifiers /\
        subscript body "encrypted" = Ok (VBool encrypted) /\
        exists root mets_hdr created mets bytes,
          xml_files e mets_path = Some root /\
          find [tagged "mets:metsHdr"] root = Some mets_hdr /\
          subscript body "created" = Ok (VFloat created) /\
          created_from e mets_hdr created /\
          subscript body "mets" = Ok mets /\
          normalize (xmltodict_parse e (clear_at tool_output_path root)) = Ok mets /\
          no_dict_values mets = true /\ keys_tagged mets = true /\
          subscript body "AICID" = Ok (fst (aip_collection_fields root)) /\
          subscript body "isPartOf" = Ok (snd (aip_collection_fields root)) /\
          byte_count e size path bytes /\
          subscript body "size" = Ok (VFloat (aip_size bytes))) \/
       (index = "aipfiles" /\
        subscript body "AIPUUID" = Ok (VStr uuid) /\
        subscript body "sipName" = Ok (VStr name) /\
        subscript body "identifiers" = Ok identifiers))
  | _ => False
  end.

(* ===================================================================== *)
(** * Setting up: the client and the indexes *)
(* ===================================================================== *)

(** What the functions of this part raise: [ImproperlyConfigured], or
    whatever a call they make raises. *)
Inductive setup_exn :=
| ImproperlyConfigured (msg : string)
| Raised (x : exn).

Inductive setup_result (A : Type) :=
| Done (a : A)
| Failed (x : setup_exn).
Arguments Failed {A} x.

(** Calls on [client.indices]. *)
Inductive indices_call :=
| IExists (index : string)
| ICreate (index : string) (body : value) (ignore : Z).

(** The cluster and the mapping files as the code sees them. *)
Record cluster := Cluster {
  indices_exists : string -> result bool;          (* client.indices.exists(index=...) *)
  indices_create : string -> value -> option exn;  (* None: created, or refused with 400 *)
  json_load : string -> result value               (* open(...) and json.load *)
}.

Record setup_world := SetupWorld {
  indices_calls : list indices_call;
  setup_logged : list (level * string)
}.

Definition setup_called (c : indices_call) (s : setup_world) : setup_world :=
  SetupWorld (indices_calls s ++ [c]) (setup_logged s).

Definition setup_log (lv : level) (msg : string) (s : setup_world) : setup_world :=
  SetupWorld (indices_calls s) (setup_logged s ++ [(lv, msg)]).

Definition INDICES : list string := ["aips"; "aipfiles"; "transfers"; "transferfiles"].

Definition MACHINE_READABLE_FIELD_SPEC : value :=
  VDict PlainDict [("type", VStr "keyword")].

Definition SORTABLE_STRING_FIELD_SPEC : value :=
  VDict PlainDict
    [("type", VStr "text");
     ("fields", VDict PlainDict [("raw", VDict PlainDict [("type", VStr "keyword")])])].

Definition field_of_type (t : string) : value := VDict PlainDict [("type", VStr t)].

Definition date_field : list (string * value) :=
  [("type", VStr "date"); ("format", VStr "dateOptionalTime")].

(** The file is looked up in the directory [elasticsearch] next to the
    module. *)
Definition _load_mets_mapping (c : cluster) (index : string) : setup_result value :=
  let json_file := index ++ "_mets_mapping.json" in
  match json_load c ("elasticsearch/" ++ json_file) with
  | Ok mapping => Done mapping
  | Raise x => Failed (Raised x)
  end.

Definition mappings_of (doc : list (string * value)) : value :=
  VDict PlainDict [("mappings", VDict PlainDict [(DOC_TYPE, VDict PlainDict doc)])].

Definition _get_aips_index_body (c : cluster) : setup_result value :=
  match _load_mets_mapping c "aips" with
  | Failed x => Failed x
  | Done mets =>
      Done (mappings_of
              [("date_detection", VBool false);
               ("properties",
                VDict PlainDict
                  [("name", SORTABLE_STRING_FIELD_SPEC);
                   ("size", field_of_type "double");
                   ("uuid", MACHINE_READABLE_FIELD_SPEC);
                   ("mets", mets)])])
  end.

Definition _get_aipfiles_index_body (c : cluster) : setup_result value :=
  match _load_mets_mapping c "aipfiles" with
  | Failed x => Failed x
  | Done mets =>
      Done (mappings_of
              [("date_detection", VBool false);
               ("properties",
                VDict PlainDict
                  [("AIPUUID", MACHINE_READABLE_FIELD_SPEC);
                   ("FILEUUID", MACHINE_READABLE_FIELD_SPEC);
                   ("isPartOf", MACHINE_READABLE_FIELD_SPEC);
                   ("AICID", MACHINE_READABLE_FIELD_SPEC);
                   ("sipName", field_of_type "text");
                   ("indexedAt", field_of_type "double");
                   ("filePath", field_of_type "text");
                   ("fileExtension", field_of_type "text");
                   ("origin", field_of_type "text");
                   ("identifiers", MACHINE_READABLE_FIELD_SPEC);
                   ("METS", mets)])])
  end.

Definition _get_transfers_index_body : value :=
  mappings_of
    [("properties",
      VDict PlainDict
        [("name", field_of_type "text");
         ("status", field_of_type "text");
         ("ingest_date", VDict PlainDict date_field);
         ("file_count", field_of_type "integer");
         ("uuid", MACHINE_READABLE_FIELD_SPEC);
         ("pending_deletion", field_of_type "boolean")])].

Definition _get_transferfiles_index_body : value :=
  mappings_of
    [("properties",
      VDict PlainDict
        [("filename", field_of_type "text");
         ("relative_path", field_of_type "text");
         ("fileuuid", MACHINE_READABLE_FIELD_SPEC);
         ("sipuuid", MACHINE_READABLE_FIELD_SPEC);
         ("accessionid", MACHINE_READABLE_FIELD_SPEC);
         ("status", MACHINE_READABLE_FIELD_SPEC);
         ("origin", MACHINE_READABLE_FIELD_SPEC);
         ("ingestdate", VDict PlainDict date_field);
         ("modification_date",
          VDict PlainDict (date_field ++ [("ignore_malformed", VBool true)])%list);
         ("created", field_of_type "double");
         ("size", field_of_type "double");
         ("tags", MACHINE_READABLE_FIELD_SPEC);
         ("file_extension", MACHINE_READABLE_FIELD_SPEC);
         ("bulk_extractor_reports", MACHINE_READABLE_FIELD_SPEC);
         ("format",
          VDict PlainDict
            [("type", VStr "nested");
             ("properties",
              VDict PlainDict
                [("puid", MACHINE_READABLE_FIELD_SPEC);
                 ("format", field_of_type "text");
                 ("group", field_of_type "text")])])])].

(** [getattr(sys.modules[__name__], '_get_%s_index_body' % index)()] *)
Definition index_body (c : cluster) (index : string) : setup_result value :=
  if String.eqb index "aips" then _get_aips_index_body c
  else if String.eqb index "aipfiles" then _get_aipfiles_index_body c
  else if String.eqb index "transfers" then Done _get_transfers_index_body
  else if String.eqb index "transferfiles" then Done _get_transferfiles_index_body
  else Failed (Raised AttributeError).

Definition double_quote : string := String (ascii_of_nat 34) EmptyString.

(** The loop of [create_indexes_if_needed]. *)
Fixpoint create_each (c : cluster) (l : list string) (s : setup_world)
  : setup_result unit * setup_world :=
  match l with
  | [] => (Done tt, s)
  | index :: rest =>
      match index_body c index with
      | Failed x => (Failed x, s)
      | Done body =>
          let s := setup_log INFO ("Creating " ++ double_quote ++ index ++ double_quote ++
                                   " index ...") s in
          let s := setup_called (ICreate index body 400) s in
          match indices_create c index body with
          | Some x => (Failed (Raised x), s)
          | None => create_each c rest (setup_log INFO "Index created." s)
          end
      end
  end.

Definition create_indexes_if_needed (c : cluster) (s : setup_world)
  : setup_result unit * setup_world :=
  let s := setup_called (IExists (comma_join INDICES)) s in
  match indices_exists c (comma_join INDICES) with
  | Raise x => (Failed (Raised x), s)
  | Ok true => (Done tt, setup_log INFO "All indices already created." s)
  | Ok false => create_each c INDICES s
  end.

(** [client.indices.create(index, body=body, ignore=400)] *)
Definition creation (ib : string * value) : indices_call :=
  ICreate (fst ib) (snd ib) 400.

(** ** The module attributes [_es_hosts] and [_es_client] *)

(** The hosts given to [setup]: nothing, a text, or a list or tuple. *)
Inductive hosts_value :=
| HostsNone
| HostsText (host : string)
| HostsList (hosts : list string).

(** [Elasticsearch(hosts=..., timeout=..., dead_timeout=2)] *)
Record es_client := EsClient {
  client_hosts : hosts_value;
  client_timeout : Z;
  client_dead_timeout : Z
}.

Record module_state := ModuleState {
  _es_hosts : hosts_value;
  _es_client : option es_client
}.

(** The module as it is loaded. *)
Definition module_loaded : module_state := ModuleState HostsNone None.

Definition DEFAULT_TIMEOUT : Z := 10.

Definition setup (hosts : hosts_value) (timeout : Z) (m : module_state) : module_state :=
  ModuleState hosts (Some (EsClient hosts timeout 2)).

Definition hosts_not_set_up : string :=
  "The Elasticsearch client has not been set up yet, please call setup() first.".

Definition client_not_set_up : string :=
  "The Elasticsearch client has not been set up yet. Please call setup() first.".

(** [not _es_hosts] holds for [None], the empty text and the empty list. *)
Definition get_host (m : module_state) : setup_result string :=
  match _es_hosts m with
  | HostsNone | HostsText EmptyString | HostsList [] =>
      Failed (ImproperlyConfigured hosts_not_set_up)
  | HostsList (first :: _) => Done first
  | HostsText host => Done host
  end.

Definition get_client (c : cluster) (m : module_state) (s : setup_world)
  : setup_result es_client * setup_world :=
  match _es_client m with
  | None => (Failed (ImproperlyConfigured client_not_set_up), s)
  | Some client =>
      match create_indexes_if_needed c s with
      | (Done _, s') => (Done client, s')
      | (Failed x, s') => (Failed x, s')
      end
  end.

(** A cluster without indexes where the mapping file for [aipfiles] is
    missing. *)
Definition cluster_without_aipfiles_mapping : cluster :=
  Cluster (fun _ => Ok false) (fun _ _ => None)
          (fun path => if String.eqb path "elasticsearch/aips_mets_mapping.json"
                       then Ok (VDict PlainDict [])
                       else Raise (OSError path)).

Unset Implicit Arguments.

(* ===================================================================== *)
(** * Facts about the schema normalizer *)
(* ===================================================================== *)

Section NormalizerFacts.

Lemma normalized_dict_value_twice (x : value) :
  stabilize (stabilize x) = stabilize x ->
  normalized_dict_value stabilize (normalized_dict_value stabilize x)
  = normalized_dict_value stabilize x.
Proof.
  intros IH. destruct x; try reflexivity.
  - simpl normalized_dict_value at 2 3.
    change (stabilize (stabilize (VList l)) = stabilize (VList l)). exact IH.
  - unfold normalized_dict_value at 2 3.
    unfold normalized_dict_value.
    change (VList [stabilize (stabilize (VDict k d))] = VList [stabilize (VDict k d)]).
    now rewrite IH.
Qed.

Lemma stabilize_idempotent (v : value) : stabilize (stabilize v) = stabilize v.
Proof.
  induction v as [| | | | |l IH|k d IH] using value_ind; try reflexivity.
  - simpl. f_equal. rewrite map_map.
    induction IH as [|x r Hx _ IHr]; simpl; [reflexivity|].
    now rewrite Hx, IHr.
  - simpl. f_equal. rewrite map_map.
    induction IH as [|[key x] r Hx _ IHr]; simpl; [reflexivity|].
    simpl in Hx. rewrite IHr. f_equal. f_equal.
    now apply normalized_dict_value_twice.
Qed.

(** The only exception of the renaming pass is the [IndexError] of
    [data[key][0]]. *)
Lemma rename_elements_raises (l : list value) (e : exn) :
  Forall (fun x => forall e, rename x = Raise e -> e = IndexError) l ->
  rename_elements rename l = Raise e -> e = IndexError.
Proof.
  intros IH. revert e. induction IH as [|x r Hx _ IHr]; intros e; simpl.
  - discriminate.
  - destruct (rename x) eqn:Ex; simpl.
    + destruct (rename_elements rename r) eqn:Er; simpl; [discriminate|].
      intros [= <-]. now apply IHr.
    + intros [= <-]. now apply Hx.
Qed.

Lemma renamed_item_raises (key : string) (x : value) (e : exn) :
  (forall e, rename x = Raise e -> e = IndexError) ->
  renamed_item rename key x = Raise e -> e = IndexError.
Proof.
  intros Hx. unfold renamed_item. destruct x; try discriminate.
  - destruct l as [|first l']; [now intros [= <-]|].
    destruct (rename (VList (first :: l'))) eqn:E; unfold rbind; [discriminate|].
    intros [= <-]. now apply Hx.
  - destruct (rename (VDict k d)) eqn:E; unfold rbind; [discriminate|].
    intros [= <-]. now apply Hx.
Qed.

Lemma rename_items_raises (d new : entries) (e : exn) :
  Forall (fun kv => forall e, rename (snd kv) = Raise e -> e = IndexError) d ->
  rename_items rename d new = Raise e -> e = IndexError.
Proof.
  intros IH. revert new e.
  induction IH as [|[key x] r Hx _ IHr]; intros new e; simpl.
  - discriminate.
  - destruct (renamed_item rename key x) eqn:E; simpl.
    + apply IHr.
    + intros [= <-]. now apply (renamed_item_raises key x).
Qed.

Lemma rename_raises (v : value) (e : exn) : rename v = Raise e -> e = IndexError.
Proof.
  revert e. induction v as [| | | | |l IH|k d IH] using value_ind; intros e; simpl;
    try discriminate.
  - destruct (rename_elements rename l) eqn:E; simpl; [discriminate|].
    intros [= <-]. now apply (rename_elements_raises l).
  - destruct (rename_items rename d []) eqn:E; simpl; [discriminate|].
    intros [= <-]. now apply (rename_items_raises d []).
Qed.

Lemma rename_items_empty_list (d new : entries) (key : string) :
  In (key, VList []) d -> rename_items rename d new = Raise IndexError.
Proof.
  revert new. induction d as [|[k x] r IH]; intros new Hin; [destruct Hin|].
  simpl. destruct Hin as [[= -> ->]|Hin]; [reflexivity|].
  destruct (renamed_item rename k x) eqn:E; simpl.
  - now apply IH.
  - f_equal. apply (renamed_item_raises k x); [apply rename_raises | exact E].
Qed.

Lemma stabilize_keeps_empty_list (d : entries) (key : string) :
  In (key, VList []) d ->
  In (key, VList [])
     (map (fun e => let '(key, x) := e in (key, normalized_dict_value stabilize x)) d).
Proof.
  intros Hin. apply in_map_iff. exists (key, VList []). now split.
Qed.

End NormalizerFacts.

(** C10: a mapping with a key that holds an empty list makes the renaming
    pass (and with it the whole normalization) end in the [IndexError] of
    [data[key][0]]; no key tagged for an empty list is produced. *)
Theorem rename_fails_on_empty_list (k : dict_kind) (d : entries) (key : string) :
  In (key, VList []) d ->
  _rename_dict_keys_with_child_dicts (VDict k d) = Raise IndexError /\
  normalize (VDict k d) = Raise IndexError.
Proof.
  intros Hin. split.
  - unfold _rename_dict_keys_with_child_dicts. simpl.
    now rewrite (rename_items_empty_list d [] key Hin).
  - unfold normalize, _rename_dict_keys_with_child_dicts, _normalize_dict_values.
    simpl.
    now rewrite (rename_items_empty_list _ [] key (stabilize_keeps_empty_list d key Hin)).
Qed.

Lemma rename_fails_on_empty_list_witness :
  In ("k", VList []) [("b", VInt 1); ("k", VList [])] /\
  _rename_dict_keys_with_child_dicts empty_list_tree = Raise IndexError /\
  normalize empty_list_tree = Raise IndexError.
Proof.
  assert (H : In ("k", VList []) [("b", VInt 1); ("k", VList [])])
    by (right; left; reflexivity).
  split; [exact H|].
  exact (rename_fails_on_empty_list PlainDict [("b", VInt 1); ("k", VList [])] "k" H).
Defined.

Section RenamedKeys.

Lemma string_length_append (a b : string) :
  String.length (a ++ b) = (String.length a + String.length b)%nat.
Proof. induction a as [|c a IH]; simpl; [reflexivity | now rewrite IH]. Qed.

Lemma append_fixed (a b : string) : a ++ b = a -> b = EmptyString.
Proof.
  intros H. apply (f_equal String.length) in H.
  rewrite string_length_append in H.
  destruct b; [reflexivity | simpl in H; lia].
Qed.

Lemma renamed_item_key (ren : value -> result value) (key : string) (x : value)
      (kv : string * value) :
  renamed_item ren key x = Ok kv -> fst kv = renamed_key key x.
Proof.
  unfold renamed_item. destruct x; try (now intros [= <-]).
  - destruct l as [|first l']; [discriminate|].
    destruct (ren (VList (first :: l'))); unfold rbind; [now intros [= <-] | discriminate].
  - destruct (ren (VDict k d)); unfold rbind; [now intros [= <-] | discriminate].
Qed.

Lemma existsb_eqb_In (k : string) (l : list string) :
  existsb (String.eqb k) l = true <-> In k l.
Proof.
  rewrite existsb_exists. split.
  - intros [x [Hin Heq]]. apply String.eqb_eq in Heq. now subst.
  - intros Hin. exists k. split; [exact Hin | apply String.eqb_refl].
Qed.

Lemma keys_dict_set (d : entries) (k : string) (v : value) :
  keys (dict_set d k v) = add_key (keys d) k.
Proof.
  unfold add_key, keys. induction d as [|[k0 x] r IH]; simpl; [reflexivity|].
  rewrite (String.eqb_sym k k0).
  destruct (String.eqb k0 k) eqn:E; simpl; [reflexivity|].
  rewrite IH.
  now destruct (existsb (String.eqb k) (map fst r)).
Qed.

Lemma dict_set_fresh (d : entries) (k : string) (v : value) :
  ~ In k (keys d) -> dict_set d k v = (d ++ [(k, v)])%list.
Proof.
  induction d as [|[k0 x] r IH]; simpl; intros Hn; [reflexivity|].
  destruct (String.eqb_spec k0 k) as [->|_]; [elim Hn; now left|].
  rewrite IH; [reflexivity | intros Hin; apply Hn; now right].
Qed.

Lemma add_key_NoDup (acc : list string) (k : string) :
  NoDup acc -> NoDup (add_key acc k).
Proof.
  intros H. unfold add_key.
  destruct (existsb (String.eqb k) acc) eqn:E; [exact H|].
  apply NoDup_app; [exact H | repeat constructor; intros [] | ].
  intros x Hx [<-|[]]. apply existsb_eqb_In in Hx. congruence.
Qed.

Lemma rename_items_keys (ren : value -> result value) (d new res : entries) :
  rename_items ren d new = Ok res ->
  keys res = fold_left add_key (map (fun e => renamed_key (fst e) (snd e)) d) (keys new).
Proof.
  revert new. induction d as [|[key x] r IH]; intros new; simpl.
  - now intros [= <-].
  - destruct (renamed_item ren key x) as [kv|] eqn:E; unfold rbind; [|discriminate].
    intros H. rewrite (IH _ H), keys_dict_set.
    now rewrite (renamed_item_key _ _ _ _ E).
Qed.

Lemma fold_add_key_NoDup (ks acc : list string) :
  NoDup acc -> NoDup (fold_left add_key ks acc).
Proof.
  revert acc. induction ks as [|k ks IH]; intros acc H; simpl; [exact H|].
  apply IH. now apply add_key_NoDup.
Qed.

Lemma fold_add_key_length (ks acc : list string) :
  (List.length (fold_left add_key ks acc) <= List.length acc + List.length ks)%nat /\
  (List.length (fold_left add_key ks acc) = (List.length acc + List.length ks)%nat ->
   fold_left add_key ks acc = (acc ++ ks)%list).
Proof.
  revert acc. induction ks as [|k ks IH]; intros acc; simpl.
  - split; [lia | intros _; now rewrite app_nil_r].
  - destruct (existsb (String.eqb k) acc) eqn:E.
    + replace (add_key acc k) with acc by (unfold add_key; now rewrite E).
      destruct (IH acc) as [Hle _]. split; [lia | intros Heq; lia].
    + replace (add_key acc k) with (acc ++ [k])%list
        by (unfold add_key; now rewrite E).
      destruct (IH (acc ++ [k])%list) as [Hle Heq].
      rewrite length_app in Hle, Heq. simpl in Hle, Heq. split; [lia|].
      intros H. rewrite Heq by lia. now rewrite <- app_assoc.
Qed.

End RenamedKeys.

Section Idempotence.

Lemma stabilized_not_dict (x : value) :
  is_dict (normalized_dict_value stabilize x) = false.
Proof. destruct x; reflexivity. Qed.

Lemma stabilized_items_not_dict (d : entries) :
  Forall (fun e => is_dict (snd e) = false) (map stabilized_item d).
Proof.
  apply Forall_forall. intros e Hin. apply in_map_iff in Hin.
  destruct Hin as [[key x] [<- _]]. apply stabilized_not_dict.
Qed.

Lemma stabilized_items_keys (d : entries) : keys (map stabilized_item d) = keys d.
Proof.
  unfold keys. rewrite map_map. apply map_ext. now intros [key x].
Qed.

Lemma stabilized_scalars (d : entries) :
  Forall (fun e => is_scalar (snd e) = true) d -> map stabilized_item d = d.
Proof.
  induction 1 as [|[key x] r Hx _ IH]; simpl; [reflexivity|].
  rewrite IH. f_equal. f_equal. now destruct x.
Qed.

Lemma dict_set_Forall (P : value -> Prop) (d : entries) (k : string) (v : value) :
  Forall (fun e => P (snd e)) d -> P v -> Forall (fun e => P (snd e)) (dict_set d k v).
Proof.
  intros Hd Hv. induction Hd as [|[k0 x] r Hx Hr IH]; simpl.
  - now repeat constructor.
  - destruct (String.eqb k0 k); constructor; auto.
Qed.

Lemma renamed_item_not_dict (key : string) (x : value) (kv : string * value) :
  is_dict x = false -> renamed_item rename key x = Ok kv -> is_dict (snd kv) = false.
Proof.
  unfold renamed_item. destruct x; try discriminate; intros _;
    try (now intros [= <-]).
  destruct l as [|first l']; [discriminate|].
  simpl. destruct (rename first); simpl; [|discriminate].
  destruct (rename_elements rename l'); simpl; [|discriminate].
  now intros [= <-].
Qed.

Lemma rename_items_not_dict (d new res : entries) :
  Forall (fun e => is_dict (snd e) = false) d ->
  Forall (fun e => is_dict (snd e) = false) new ->
  rename_items rename d new = Ok res ->
  Forall (fun e => is_dict (snd e) = false) res.
Proof.
  intros Hd. revert new. induction Hd as [|[key x] r Hx _ IH]; intros new Hnew; simpl.
  - now intros [= <-].
  - destruct (renamed_item rename key x) as [kv|] eqn:E; unfold rbind; [|discriminate].
    apply IH. apply (dict_set_Forall (fun v => is_dict v = false)); [exact Hnew|].
    now apply (renamed_item_not_dict key x).
Qed.

Lemma rename_items_scalars (ren : value -> result value) (d new : entries) :
  Forall (fun e => is_scalar (snd e) = true) d ->
  NoDup (keys new ++ keys d) ->
  rename_items ren d new = Ok (new ++ d)%list.
Proof.
  intros Hd. revert new. induction Hd as [|[key x] r Hx _ IH]; intros new Hnd; simpl.
  - now rewrite app_nil_r.
  - assert (E : renamed_item ren key x = Ok (key, x)) by now destruct x.
    rewrite E. unfold rbind. simpl fst. simpl snd.
    simpl in Hnd. rewrite dict_set_fresh.
    + rewrite IH.
      * now rewrite <- app_assoc.
      * unfold keys in *. rewrite map_app. simpl. now rewrite <- app_assoc.
    + apply NoDup_remove_2 in Hnd. intros Hin. apply Hnd.
      apply in_or_app. now left.
Qed.

Lemma rename_items_NoDup (ren : value -> result value) (d res : entries) :
  rename_items ren d [] = Ok res -> NoDup (keys res).
Proof.
  intros H. rewrite (rename_items_keys _ _ _ _ H).
  apply fold_add_key_NoDup. constructor.
Qed.

Lemma normalize_dict_inv (k : dict_kind) (d d' : entries) :
  normalize (VDict k d) = Ok (VDict PlainDict d') <->
  rename_items rename (map stabilized_item d) [] = Ok d'.
Proof.
  unfold normalize, _rename_dict_keys_with_child_dicts, _normalize_dict_values.
  simpl. change (fun e : string * value =>
                  let '(key, x) := e in (key, normalized_dict_value stabilize x))
    with stabilized_item.
  destruct (rename_items rename (map stabilized_item d) []); simpl; split;
    congruence.
Qed.

(** A mapping of scalars is left as it is. *)
Lemma normalize_scalars (k : dict_kind) (d : entries) :
  NoDup (keys d) -> Forall (fun e => is_scalar (snd e) = true) d ->
  normalize (VDict k d) = Ok (VDict PlainDict d).
Proof.
  intros Hnd Hd. apply normalize_dict_inv.
  rewrite (stabilized_scalars d Hd).
  now rewrite (rename_items_scalars rename d [] Hd Hnd).
Qed.

Lemma total_length_permutation (l l' : list string) :
  Permutation l l' -> total_length l = total_length l'.
Proof.
  induction 1 as [|x l l' _ IH|x y l|l l' l'' _ IH1 _ IH2]; simpl; lia.
Qed.

Lemma renamed_key_length (key : string) (x : value) :
  (String.length key <= String.length (renamed_key key x))%nat.
Proof.
  destruct x as [| | | | |[|first l]|]; simpl; rewrite ?string_length_append; lia.
Qed.

Lemma renamed_key_same_length (key : string) (x : value) :
  String.length (renamed_key key x) = String.length key -> renamed_key key x = key.
Proof.
  destruct x as [| | | | |[|first l]|]; simpl; try reflexivity;
    rewrite string_length_append; simpl; lia.
Qed.

Lemma renamed_keys_total_length (d : entries) :
  (total_length (keys d)
   <= total_length (map (fun e => renamed_key (fst e) (snd e)) d))%nat /\
  (total_length (map (fun e => renamed_key (fst e) (snd e)) d) = total_length (keys d) ->
   Forall (fun e => renamed_key (fst e) (snd e) = fst e) d).
Proof.
  induction d as [|[key x] r [IHle IHeq]]; simpl; [now split|].
  pose proof (renamed_key_length key x) as Hk. split; [lia|].
  intros H. constructor.
  - apply renamed_key_same_length. simpl. lia.
  - apply IHeq. lia.
Qed.

(** When the keys of the second normal form are those of the first, in
    whatever order, no key of the first holds a list. *)
Lemma normal_form_same_keys (d' d2 : entries) :
  normalize (VDict PlainDict d') = Ok (VDict PlainDict d2) ->
  Permutation (keys d2) (keys d') ->
  forall key v, In (key, v) d' -> is_list v = false.
Proof.
  intros H2 Hperm key v Hin. apply normalize_dict_inv in H2.
  pose proof (rename_items_keys _ _ _ _ H2) as Hk. simpl in Hk.
  destruct (fold_add_key_length
              (map (fun e => renamed_key (fst e) (snd e)) (map stabilized_item d')) [])
    as [_ Heq].
  rewrite <- Hk in Heq. simpl in Heq.
  rewrite (Permutation_length Hperm) in Heq.
  unfold keys in Heq at 1. rewrite !length_map in Heq.
  specialize (Heq eq_refl).
  pose proof (total_length_permutation _ _ Hperm) as Htot.
  rewrite Heq, <- (stabilized_items_keys d') in Htot.
  apply renamed_keys_total_length in Htot.
  rewrite Forall_forall in Htot.
  specialize (Htot (stabilized_item (key, v)) (in_map stabilized_item _ _ Hin)).
  simpl in Htot. destruct v; try reflexivity. exfalso.
  destruct l as [|first l'].
  - pose proof (in_map stabilized_item _ _ Hin) as Hin'. simpl in Hin'.
    rewrite (rename_items_empty_list _ [] key Hin') in H2. discriminate.
  - simpl in Htot. apply append_fixed in Htot. discriminate.
Qed.

Lemma normal_form_fixed_iff (k : dict_kind) (d d' : entries) :
  normalize (VDict k d) = Ok (VDict PlainDict d') ->
  (normalize (VDict PlainDict d') = Ok (VDict PlainDict d') <->
   forall key v, In (key, v) d' -> is_list v = false).
Proof.
  intros H. split.
  - intros H2. now apply (normal_form_same_keys d' d').
  - intros Hl. apply normalize_dict_inv in H.
    pose proof (rename_items_NoDup _ _ _ H) as Hnd.
    pose proof (rename_items_not_dict _ [] _ (stabilized_items_not_dict d)
                  (Forall_nil _) H) as Hdict.
    apply normalize_scalars; [exact Hnd|].
    apply Forall_forall. intros [key v] Hin. simpl.
    rewrite Forall_forall in Hdict. specialize (Hdict _ Hin). simpl in Hdict.
    unfold is_scalar. now rewrite Hdict, (Hl key v Hin).
Qed.

End Idempotence.

(** C1 (as amended): shape stabilization is idempotent on every tree; the
    full normalization of a mapping is idempotent exactly when no key of
    its normal form holds a list (so on every mapping of scalars).  A key
    that holds a list is tagged once more by each further normalization:
    then the second normal form has not even the keys of the first. *)
Theorem normalize_idempotent_without_lists (x : value) :
  _normalize_dict_values (_normalize_dict_values x) = _normalize_dict_values x /\
  forall k d d',
    x = VDict k d ->
    normalize x = Ok (VDict PlainDict d') ->
    (normalize_twice x = normalize x <->
     forall key v, In (key, v) d' -> is_list v = false) /\
    (forall d2,
        normalize_twice x = Ok (VDict PlainDict d2) ->
        Permutation (keys d2) (keys d') ->
        forall key v, In (key, v) d' -> is_list v = false).
Proof.
  split; [apply stabilize_idempotent|].
  intros k d d' -> H. unfold normalize_twice. rewrite H. simpl rbind. split.
  - apply (normal_form_fixed_iff k d d' H).
  - intros d2. apply normal_form_same_keys.
Qed.

Lemma normalize_idempotent_without_lists_witness :
  normalize_twice flat_tree = normalize flat_tree.
Proof.
  apply (proj1 (proj2 (normalize_idempotent_without_lists flat_tree) PlainDict
                      [("b", VInt 1); ("c", VStr "x")] [("b", VInt 1); ("c", VStr "x")]
                      eq_refl eq_refl)).
  intros key v [H|[H|[]]]; injection H as _ <-; reflexivity.
Defined.

(** C1, as the specification states it, fails on a mapping that holds a
    mapping: the second normalization tags the tagged key again. *)
Lemma normalize_not_idempotent :
  normalize nested_tree =
    Ok (VDict PlainDict [("a_dict_list", VList [VDict PlainDict [("b", VInt 1)]]);
                         ("c", VStr "x")]) /\
  normalize_twice nested_tree =
    Ok (VDict PlainDict [("a_dict_list_dict_list", VList [VDict PlainDict [("b", VInt 1)]]);
                         ("c", VStr "x")]) /\
  normalize_twice nested_tree <> normalize nested_tree /\
  rbind (normalize nested_tree) (fun n => subscript n "a_dict_list")
  = Ok (VList [VDict PlainDict [("b", VInt 1)]]) /\
  rbind (normalize_twice nested_tree) (fun n => subscript n "a_dict_list")
  = Raise (KeyError "a_dict_list").
Proof. repeat split. discriminate. Qed.

(* ===================================================================== *)
(** * Facts about the resilient writer *)
(* ===================================================================== *)

Section ResilientWriter.

Variable e : env.
Variables (data : value) (index : string) (wait_between_tries : Z).

Lemma attempts_refused (x : exn) (w : world) :
  attempts (refused data index wait_between_tries x w) = S (attempts w).
Proof.
  unfold attempts, refused, index_calls. simpl.
  rewrite filter_app, length_app. simpl. lia.
Qed.

Lemma try_loop_step (left : nat) (exc : option exn) (w : world) :
  try_loop (S left) data index wait_between_tries exc e w =
  match es_index e (attempts w) with
  | None => (Ok tt, called (CIndex index DOC_TYPE data) w)
  | Some x =>
      try_loop left data index wait_between_tries (Some x) e
               (refused data index wait_between_tries x w)
  end.
Proof.
  simpl. unfold bind, catching, client_index. fold (attempts w).
  destruct (es_index e (attempts w)); reflexivity.
Qed.

Lemma try_loop_succeeds (n : nat) :
  forall (left : nat) (exc : option exn) (w : world),
    (n < left)%nat ->
    (forall i, (i < n)%nat -> es_index e (attempts w + i) <> None) ->
    es_index e (attempts w + n) = None ->
    exists w',
      try_loop left data index wait_between_tries exc e w = (Ok tt, w') /\
      es_calls w' = (es_calls w ++ repeat (CIndex index DOC_TYPE data) (S n))%list /\
      slept w' = (slept w ++ repeat wait_between_tries n)%list.
Proof.
  induction n as [|n IH]; intros left exc w Hlt Hfail Hok;
    (destruct left as [|left]; [lia|]); rewrite try_loop_step.
  - rewrite Nat.add_0_r in Hok. rewrite Hok.
    eexists. split; [reflexivity|]. simpl. now rewrite app_nil_r.
  - destruct (es_index e (attempts w)) as [x|] eqn:E.
    + destruct (IH left (Some x) (refused data index wait_between_tries x w))
        as [w' [Hrun [Hc Hs]]].
      * lia.
      * intros i Hi. rewrite attempts_refused.
        replace (S (attempts w) + i)%nat with (attempts w + S i)%nat by lia.
        apply Hfail. lia.
      * rewrite attempts_refused.
        now replace (S (attempts w) + n)%nat with (attempts w + S n)%nat by lia.
      * exists w'. split; [exact Hrun|]. rewrite Hc, Hs. simpl.
        now rewrite <- !app_assoc.
    + exfalso. apply (Hfail O); [lia|]. now rewrite Nat.add_0_r.
Qed.

Lemma try_loop_exhausts (left : nat) :
  forall (exc : option exn) (w : world) (x : exn),
    (0 < left)%nat ->
    (forall i, (i < left)%nat -> es_index e (attempts w + i) <> None) ->
    es_index e (attempts w + (left - 1)) = Some x ->
    exists w',
      try_loop left data index wait_between_tries exc e w = (Raise x, w') /\
      es_calls w' = (es_calls w ++ repeat (CIndex index DOC_TYPE data) left)%list /\
      slept w' = (slept w ++ repeat wait_between_tries left)%list.
Proof.
  induction left as [|left IH]; intros exc w x Hpos Hfail Hlast; [lia|].
  rewrite try_loop_step.
  destruct (es_index e (attempts w)) as [y|] eqn:E.
  - destruct left as [|left].
    + simpl in Hlast. rewrite Nat.add_0_r, E in Hlast. injection Hlast as ->.
      simpl. unfold raise. eexists. split; [reflexivity|]. now split.
    + destruct (IH (Some y) (refused data index wait_between_tries y w) x) as [w' [Hrun [Hc Hs]]].
      * lia.
      * intros i Hi. rewrite attempts_refused.
        replace (S (attempts w) + i)%nat with (attempts w + S i)%nat by lia.
        apply Hfail. lia.
      * rewrite attempts_refused.
        replace (S (attempts w) + (S left - 1))%nat
          with (attempts w + (S (S left) - 1))%nat by lia.
        exact Hlast.
      * exists w'. split; [exact Hrun|]. rewrite Hc, Hs.
        change (repeat (CIndex index DOC_TYPE data) (S (S left)))
          with (CIndex index DOC_TYPE data :: repeat (CIndex index DOC_TYPE data) (S left)).
        change (repeat wait_between_tries (S (S left)))
          with (wait_between_tries :: repeat wait_between_tries (S left)).
        simpl es_calls. simpl slept. now rewrite <- !app_assoc.
  - exfalso. apply (Hfail O); [lia|]. now rewrite Nat.add_0_r.
Qed.

End ResilientWriter.

(** C2: with [max_tries >= 1], a write that the store refuses [N - 1] times
    and accepts at the [N]-th attempt ([N <= max_tries]) returns after
    exactly [N] index calls (and [N - 1] pauses); a write refused
    [max_tries] times raises the error of the last attempt, after exactly
    [max_tries] index calls. *)
Theorem try_to_index_attempts
        (e : env) (w : world) (data : value) (index : string)
        (wait_between_tries max_tries : Z) :
  1 <= max_tries ->
  let first := List.length (index_calls (es_calls w)) in
  let call := CIndex index DOC_TYPE data in
  (forall N : nat,
      (1 <= N <= Z.to_nat max_tries)%nat ->
      (forall i, (i < N - 1)%nat -> es_index e (first + i) <> None) ->
      es_index e (first + (N - 1)) = None ->
      exists w',
        run (_try_to_index data index wait_between_tries max_tries) e w = (Ok tt, w') /\
        es_calls w' = (es_calls w ++ repeat call N)%list /\
        slept w' = (slept w ++ repeat wait_between_tries (N - 1))%list) /\
  (forall x : exn,
      (forall i, (i < Z.to_nat max_tries)%nat -> es_index e (first + i) <> None) ->
      es_index e (first + (Z.to_nat max_tries - 1)) = Some x ->
      exists w',
        run (_try_to_index data index wait_between_tries max_tries) e w = (Raise x, w') /\
        es_calls w' = (es_calls w ++ repeat call (Z.to_nat max_tries))%list /\
        slept w' = (slept w ++ repeat wait_between_tries (Z.to_nat max_tries))%list).
Proof.
  intros Hmax first call.
  assert (Hguard : (max_tries <? 1) = false) by (apply Z.ltb_ge; lia).
  unfold run, _try_to_index. rewrite Hguard. split.
  - intros N HN Hfail Hok.
    destruct (try_loop_succeeds e data index wait_between_tries (N - 1)
                (Z.to_nat max_tries) None w) as [w' [Hrun [Hc Hs]]];
      [lia | exact Hfail | exact Hok |].
    exists w'. split; [exact Hrun|]. split; [|exact Hs].
    rewrite Hc. now replace (S (N - 1)) with N by lia.
  - intros x Hfail Hlast.
    destruct (try_loop_exhausts e data index wait_between_tries
                (Z.to_nat max_tries) None w x) as [w' [Hrun [Hc Hs]]];
      [lia | exact Hfail | exact Hlast |].
    exists w'. now repeat split.
Qed.

(** Refused twice and accepted at the third attempt: three index calls;
    refused at each of three attempts: the error of the third. *)
Lemma try_to_index_attempts_witness :
  (exists w',
      run (_try_to_index flat_tree "aips" 10 5)
          (sample_env (fails_first 2) no_hits) initial_world = (Ok tt, w') /\
      es_calls w' = repeat (CIndex "aips" DOC_TYPE flat_tree) 3 /\
      slept w' = [10; 10]) /\
  (exists w',
      run (_try_to_index flat_tree "aips" 10 3)
          (sample_env (fails_first 7) no_hits) initial_world
      = (Raise (TransportError "attempt 3"), w') /\
      es_calls w' = repeat (CIndex "aips" DOC_TYPE flat_tree) 3 /\
      slept w' = [10; 10; 10]).
Proof.
  split.
  - refine (proj1 (try_to_index_attempts (sample_env (fails_first 2) no_hits)
                     initial_world flat_tree "aips" 10 5 _) 3%nat _ _ _).
    + lia.
    + simpl. lia.
    + intros i Hi. destruct i as [|[|i]]; simpl; [discriminate | discriminate | lia].
    + reflexivity.
  - refine (proj2 (try_to_index_attempts (sample_env (fails_first 7) no_hits)
                     initial_world flat_tree "aips" 10 3 _)
                  (TransportError "attempt 3") _ _).
    + lia.
    + intros i Hi. destruct i as [|[|[|i]]]; simpl in *; try discriminate; lia.
    + reflexivity.
Defined.

(* ===================================================================== *)
(** * Facts about lookups, tags and field updates *)
(* ===================================================================== *)

Section Lookups.

Variable e : env.

Lemma document_ids_run (index : string) (doc_types : list string)
      (field value : string) (w : world) :
  run (_document_ids_from_field_query index doc_types field value) e w =
  (Ok (map hit_id (hits (es_search e (ids_request doc_types field value)))),
   looked_up e (ids_request doc_types field value) w).
Proof.
  unfold run, _document_ids_from_field_query, search_all_results, looked_up,
    size_warning.
  change (SearchReq field (str_replace value "/" "\/") None
                    (option_map comma_join (Some doc_types)) (Some MAX_QUERY_SIZE) None)
    with (ids_request doc_types field value).
  unfold bind, client_search.
  destruct (total (es_search e (ids_request doc_types field value)) >? MAX_QUERY_SIZE).
  - reflexivity.
  - unfold ret, called. cbn [es_calls logged printed stdout slept heap].
    now rewrite app_nil_r.
Qed.

Lemma document_id_run (index : string) (doc_types : list string)
      (field value : string) (w : world) :
  run (_document_id_from_field_query index doc_types field value) e w =
  (Ok (match map hit_id (hits (es_search e (ids_request doc_types field value))) with
       | [id] => Some id
       | _ => None
       end),
   looked_up e (ids_request doc_types field value) w).
Proof.
  unfold run, _document_id_from_field_query, bind.
  pose proof (document_ids_run index doc_types field value w) as H.
  unfold run in H. rewrite H. reflexivity.
Qed.

(** The outcome of [_update_field] whenever the lookup does not give
    exactly one hit. *)
Lemma update_field_skips (uuid index doc_type field : string) (status : value)
      (w : world) :
  List.length (hits (es_search e (ids_request [doc_type] "uuid" uuid))) <> 1%nat ->
  run (_update_field uuid index doc_type field status) e w =
  (Ok tt,
   let w1 := looked_up e (ids_request [doc_type] "uuid" uuid) w in
   World (es_calls w1) (logged w1 ++ [(ERROR, not_found_msg uuid index)])
         (printed w1) (stdout w1) (slept w1) (heap w1)).
Proof.
  intros Hn. unfold run, _update_field, bind.
  pose proof (document_id_run index [doc_type] "uuid" uuid w) as H.
  unfold run in H. rewrite H.
  destruct (hits (es_search e (ids_request [doc_type] "uuid" uuid))) as [|h [|h' r]];
    simpl in *; try reflexivity. now elim Hn.
Qed.

Lemma answers_hits (r : response) (req : search_req) :
  1 < requested_size req -> answers r req ->
  (total r = 0 -> hits r = []) /\
  (total r = 1 -> exists h, hits r = [h]) /\
  (1 < total r -> (1 < List.length (hits r))%nat).
Proof.
  intros Hsize [H0 Hlen]. repeat split.
  - intros Ht. rewrite Ht in Hlen. destruct (hits r); [reflexivity | simpl in Hlen; lia].
  - intros Ht. rewrite Ht in Hlen.
    destruct (hits r) as [|h [|h' t]]; simpl in Hlen; try lia. now exists h.
  - intros Ht. lia.
Qed.

End Lookups.

Section Tags.

Variable e : env.
Variable uuid : string.

(** The answers of the store to the two searches for [uuid]. *)
Variables read found : response.
Hypothesis Hread : es_search e (tags_request uuid) = read.
Hypothesis Hfound : es_search e (ids_request ["transferfile"] "fileuuid" uuid) = found.

Lemma get_file_tags_run (w : world) :
  run (get_file_tags uuid) e w =
  (if total read =? 0
   then Raise (EmptySearchResultError (no_matches_msg uuid))
   else if total read >? 1
   then Raise (TooManyResultsError (too_many_msg (total read) uuid))
   else match hits read with
        | [] => Raise IndexError
        | result :: _ =>
            match hit_fields result with
            | None => Ok (VList [])
            | Some fields =>
                match dict_get fields "tags" with
                | Some tags => Ok tags
                | None => Raise (KeyError "tags")
                end
            end
        end,
   called (CSearch (tags_request uuid)) w).
Proof.
  unfold run, get_file_tags, bind, client_search. fold (tags_request uuid).
  rewrite Hread.
  destruct (total read =? 0); [reflexivity|].
  destruct (total read >? 1); [reflexivity|].
  destruct (hits read) as [|h r]; [reflexivity|].
  destruct (hit_fields h) as [fields|]; [|reflexivity].
  destruct (dict_get fields "tags"); reflexivity.
Qed.

Lemma set_file_tags_run (tags : value) (w : world) :
  let w1 := looked_up e (ids_request ["transferfile"] "fileuuid" uuid) w in
  run (set_file_tags uuid tags) e w =
  match hits found with
  | [] => (Raise (EmptySearchResultError (no_matches_msg uuid)), w1)
  | [h] =>
      (match es_update e (updates w) with
       | None => Ok true
       | Some x => Raise x
       end,
       called (CUpdate "transfers" "transferfile" (hit_id h) (tags_doc tags)) w1)
  | _ =>
      (Raise (TooManyResultsError
                (too_many_msg (Z.of_nat (List.length (hits found))) uuid)), w1)
  end.
Proof.
  intros w1. unfold run, set_file_tags. unfold bind at 1.
  pose proof (document_ids_run e "transfers" ["transferfile"] "fileuuid" uuid w) as H.
  unfold run in H. rewrite H, Hfound. fold w1.
  destruct (hits found) as [|h [|h' r]].
  - reflexivity.
  - cbn [map List.length Z.of_nat]. unfold bind, client_update, ret.
    change (Z.pos (Pos.of_succ_nat 0) =? 0) with false.
    change (Z.pos (Pos.of_succ_nat 0) >? 1) with false. cbv beta iota.
    replace (List.length (update_calls (es_calls w1))) with (updates w).
    + now destruct (es_update e (updates w)).
    + unfold updates, update_calls, w1, looked_up. cbn [es_calls].
      rewrite filter_app. cbn [filter is_update_call]. now rewrite app_nil_r.
  - rewrite length_map.
    assert (Hz : (Z.of_nat (List.length (h :: h' :: r)) =? 0) = false)
      by (apply Z.eqb_neq; simpl List.length; lia).
    assert (Hg : (Z.of_nat (List.length (h :: h' :: r)) >? 1) = true)
      by (apply Z.gtb_lt; simpl List.length; lia).
    rewrite Hz, Hg. reflexivity.
Qed.

End Tags.

(** C3: [get_file_tags] and [set_file_tags] count the documents that the
    store finds for the file UUID.  None: [EmptySearchResultError]; more
    than one: [TooManyResultsError]; exactly one: [get_file_tags] returns
    its tags ([[]] when the hit has no [fields]) and [set_file_tags] sends
    to that document the update [{'doc': {'tags': tags}}] and nothing else;
    it returns [True] when the store applies the update and raises the
    store's error when the store refuses it. *)
Theorem file_tags_cardinality (e : env) (w : world) (uuid : string) (tags : value) :
  let read := es_search e (tags_request uuid) in
  let found := es_search e (ids_request ["transferfile"] "fileuuid" uuid) in
  answers read (tags_request uuid) ->
  answers found (ids_request ["transferfile"] "fileuuid" uuid) ->
  (total read = 0 ->
   fst (run (get_file_tags uuid) e w) = Raise (EmptySearchResultError (no_matches_msg uuid))) /\
  (1 < total read ->
   fst (run (get_file_tags uuid) e w)
   = Raise (TooManyResultsError (too_many_msg (total read) uuid))) /\
  (total read = 1 ->
   exists h, hits read = [h] /\
     (hit_fields h = None -> fst (run (get_file_tags uuid) e w) = Ok (VList [])) /\
     (forall fields t, hit_fields h = Some fields -> dict_get fields "tags" = Some t ->
                       fst (run (get_file_tags uuid) e w) = Ok t)) /\
  (total found = 0 ->
   fst (run (set_file_tags uuid tags) e w)
   = Raise (EmptySearchResultError (no_matches_msg uuid)) /\
   update_calls (es_calls (snd (run (set_file_tags uuid tags) e w)))
   = update_calls (es_calls w)) /\
  (1 < total found ->
   fst (run (set_file_tags uuid tags) e w)
   = Raise (TooManyResultsError
              (too_many_msg (Z.of_nat (List.length (hits found))) uuid)) /\
   update_calls (es_calls (snd (run (set_file_tags uuid tags) e w)))
   = update_calls (es_calls w)) /\
  (total found = 1 ->
   exists h, hits found = [h] /\
     es_calls (snd (run (set_file_tags uuid tags) e w))
     = (es_calls w ++
        [CSearch (ids_request ["transferfile"] "fileuuid" uuid);
         CUpdate "transfers" "transferfile" (hit_id h)
                 (VDict PlainDict [("doc", VDict PlainDict [("tags", tags)])])])%list /\
     (es_update e (updates w) = None ->
      fst (run (set_file_tags uuid tags) e w) = Ok true) /\
     (forall x, es_update e (updates w) = Some x ->
                fst (run (set_file_tags uuid tags) e w) = Raise x)).
Proof.
  intros read found Hread Hfound.
  destruct (answers_hits read (tags_request uuid)) as [_ [Hr1 _]];
    [reflexivity | exact Hread |].
  destruct (answers_hits found (ids_request ["transferfile"] "fileuuid" uuid))
    as [Hf0 [Hf1 Hfn]]; [reflexivity | exact Hfound |].
  assert (Hupd : forall req w0,
             update_calls (es_calls (looked_up e req w0)) = update_calls (es_calls w0)).
  { intros req w0. unfold update_calls, looked_up. simpl.
    rewrite filter_app. simpl. now rewrite app_nil_r. }
  rewrite (get_file_tags_run e uuid read eq_refl).
  pose proof (set_file_tags_run e uuid found eq_refl tags w) as Hset. simpl in Hset.
  rewrite Hset.
  repeat split.
  - intros H0. rewrite H0. reflexivity.
  - intros Hn. simpl.
    replace (total read =? 0) with false by (symmetry; apply Z.eqb_neq; lia).
    replace (total read >? 1) with true by (symmetry; apply Z.gtb_lt; lia).
    reflexivity.
  - intros H1. destruct (Hr1 H1) as [h Hh]. exists h. split; [exact Hh|].
    simpl. rewrite H1, Hh. simpl. split.
    + now intros ->.
    + intros fields t -> Ht. now rewrite Ht.
  - rewrite (Hf0 H). reflexivity.
  - rewrite (Hf0 H). simpl. apply Hupd.
  - specialize (Hfn H). destruct (hits found) as [|h [|h' r]]; simpl in Hfn; try lia.
    reflexivity.
  - specialize (Hfn H). destruct (hits found) as [|h [|h' r]]; simpl in Hfn; try lia.
    simpl. apply Hupd.
  - intros H1. destruct (Hf1 H1) as [h Hh]. exists h. split; [exact Hh|].
    rewrite Hh. cbn [fst snd]. split; [|split].
    + unfold called, looked_up, tags_doc. cbn [es_calls].
      now rewrite <- app_assoc.
    + now intros ->.
    + now intros x ->.
Qed.

(** One document matches: its tags are read, and the new tags are sent to
    it; a store that refuses the update makes the call raise. *)
Lemma file_tags_cardinality_witness :
  fst (run (get_file_tags sample_uuid) (sample_env always_accepts one_hit) initial_world)
  = Ok (VList [VStr "draft"]) /\
  fst (run (set_file_tags sample_uuid (VList [])) (sample_env always_accepts one_hit)
           initial_world) = Ok true /\
  es_calls (snd (run (set_file_tags sample_uuid (VList []))
                     (sample_env always_accepts one_hit) initial_world))
  = [CSearch (ids_request ["transferfile"] "fileuuid" sample_uuid);
     CUpdate "transfers" "transferfile" "doc1"
             (VDict PlainDict [("doc", VDict PlainDict [("tags", VList [])])])] /\
  fst (run (set_file_tags sample_uuid (VList [VStr "final"]))
           (with_updates refuses_updates (sample_env always_accepts one_hit))
           initial_world)
  = Raise (TransportError "update refused") /\
  es_calls (snd (run (set_file_tags sample_uuid (VList [VStr "final"]))
                     (with_updates refuses_updates (sample_env always_accepts one_hit))
                     initial_world))
  = [CSearch (ids_request ["transferfile"] "fileuuid" sample_uuid);
     CUpdate "transfers" "transferfile" "doc1"
             (VDict PlainDict [("doc", VDict PlainDict [("tags", VList [VStr "final"])])])] /\
  fst (run (set_file_tags sample_uuid (VList [])) (sample_env always_accepts no_hits)
           initial_world)
  = Raise (EmptySearchResultError (no_matches_msg sample_uuid)) /\
  fst (run (get_file_tags sample_uuid) (sample_env always_accepts two_hits) initial_world)
  = Raise (TooManyResultsError (too_many_msg 2 sample_uuid)).
Proof.
  pose proof (file_tags_cardinality (sample_env always_accepts one_hit) initial_world
                sample_uuid (VList [])) as H1.
  pose proof (file_tags_cardinality (sample_env always_accepts no_hits) initial_world
                sample_uuid (VList [])) as H0.
  pose proof (file_tags_cardinality (sample_env always_accepts two_hits) initial_world
                sample_uuid (VList [])) as H2.
  pose proof (file_tags_cardinality
                (with_updates refuses_updates (sample_env always_accepts one_hit))
                initial_world sample_uuid (VList [VStr "final"])) as H3.
  cbv zeta in H0, H1, H2, H3.
  destruct H1 as [_ [_ [G1 [_ [_ S1]]]]]; [split; [vm_compute; discriminate | reflexivity] .. |].
  destruct H0 as [_ [_ [_ [S0 _]]]]; [split; [vm_compute; discriminate | reflexivity] .. |].
  destruct H2 as [_ [G2 _]]; [split; [vm_compute; discriminate | reflexivity] .. |].
  destruct H3 as [_ [_ [_ [_ [_ S3]]]]]; [split; [vm_compute; discriminate | reflexivity] .. |].
  destruct (G1 eq_refl) as [h [Hh [_ Hg]]].
  destruct (S1 eq_refl) as [h' [Hh' [Hc [Hs _]]]].
  destruct (S3 eq_refl) as [h3 [Hh3 [Hc3 [_ Hr3]]]].
  injection Hh as <-. injection Hh' as <-. injection Hh3 as <-.
  split; [exact (Hg _ _ eq_refl eq_refl)|].
  split; [exact (Hs eq_refl)|]. split; [exact Hc|].
  split; [exact (Hr3 _ eq_refl)|]. split; [exact Hc3|].
  split; [exact (proj1 (S0 eq_refl))|].
  apply G2. simpl. lia.
Defined.

(** C4 (as amended): when the lookup of [_update_field] finds more than
    one document, no document is chosen: the call logs the error that the
    document could not be found, sends no update and returns. *)
Theorem update_field_ambiguous_skips
        (e : env) (w : world) (uuid index doc_type field : string) (status : value) :
  let req := ids_request [doc_type] "uuid" uuid in
  (1 < List.length (hits (es_search e req)))%nat ->
  exists w',
    run (_update_field uuid index doc_type field status) e w = (Ok tt, w') /\
    es_calls w' = (es_calls w ++ [CSearch req])%list /\
    logged w' = (logged w ++ size_warning (es_search e req)
                          ++ [(ERROR, not_found_msg uuid index)])%list.
Proof.
  intros req Hmany.
  rewrite (update_field_skips e uuid index doc_type field status w) by (fold req; lia).
  eexists. split; [reflexivity|]. cbv zeta. simpl. split; [reflexivity|].
  now rewrite <- app_assoc.
Qed.

Lemma update_field_ambiguous_skips_witness :
  exists w',
    run (_update_field sample_uuid "aips" "aip" "status" (VStr "UPLOADED"))
        (sample_env always_accepts two_hits) initial_world = (Ok tt, w') /\
    es_calls w' = [CSearch (ids_request ["aip"] "uuid" sample_uuid)] /\
    logged w' = [(ERROR, not_found_msg sample_uuid "aips")].
Proof.
  apply (update_field_ambiguous_skips (sample_env always_accepts two_hits) initial_world
           sample_uuid "aips" "aip" "status" (VStr "UPLOADED")).
  simpl. lia.
Defined.

(** C4, as the specification states it, fails: with two matching
    documents [mark_aip_stored] patches neither of them and logs an error,
    not a warning. *)
Lemma update_field_ambiguous_counterexample :
  List.length (hits (es_search (sample_env always_accepts two_hits)
                               (ids_request ["aip"] "uuid" sample_uuid))) = 2%nat /\
  run (mark_aip_stored sample_uuid) (sample_env always_accepts two_hits) initial_world
  = (Ok tt,
     World [CSearch (ids_request ["aip"] "uuid" sample_uuid)]
           [(ERROR, not_found_msg sample_uuid "aips")] [] [] [] [[]]) /\
  update_calls
    (es_calls (snd (run (mark_aip_stored sample_uuid)
                        (sample_env always_accepts two_hits) initial_world))) = [].
Proof. repeat split. Qed.

(** C5: when the lookup of a field update finds no document, the call
    logs the error, sends no update and returns without raising; the tag
    operations raise [EmptySearchResultError] in the same situation. *)
Theorem update_field_zero_matches
        (e : env) (w : world) (uuid index doc_type field : string)
        (status tags : value) :
  let req := ids_request [doc_type] "uuid" uuid in
  (hits (es_search e req) = [] ->
   exists w',
     run (_update_field uuid index doc_type field status) e w = (Ok tt, w') /\
     es_calls w' = (es_calls w ++ [CSearch req])%list /\
     update_calls (es_calls w') = update_calls (es_calls w) /\
     logged w' = (logged w ++ size_warning (es_search e req)
                           ++ [(ERROR, not_found_msg uuid index)])%list) /\
  (hits (es_search e (ids_request ["transferfile"] "fileuuid" uuid)) = [] ->
   fst (run (set_file_tags uuid tags) e w)
   = Raise (EmptySearchResultError (no_matches_msg uuid))) /\
  (total (es_search e (tags_request uuid)) = 0 ->
   fst (run (get_file_tags uuid) e w)
   = Raise (EmptySearchResultError (no_matches_msg uuid))).
Proof.
  intros req. repeat split.
  - intros H0.
    rewrite (update_field_skips e uuid index doc_type field status w)
      by (fold req; now rewrite H0).
    eexists. split; [reflexivity|]. cbv zeta. simpl. fold req.
    split; [reflexivity|]. split.
    + unfold update_calls. rewrite filter_app. simpl. now rewrite app_nil_r.
    + now rewrite <- app_assoc.
  - intros H0. pose proof (set_file_tags_run e uuid _ eq_refl tags w) as H. simpl in H.
    rewrite H, H0. reflexivity.
  - intros H0. rewrite (get_file_tags_run e uuid _ eq_refl), H0. reflexivity.
Qed.

Lemma update_field_zero_matches_witness :
  (exists w',
      run (_update_field sample_uuid "aips" "aip" "status" (VStr "DEL_REQ"))
          (sample_env always_accepts no_hits) initial_world = (Ok tt, w') /\
      es_calls w' = [CSearch (ids_request ["aip"] "uuid" sample_uuid)] /\
      update_calls (es_calls w') = [] /\
      logged w' = [(ERROR, not_found_msg sample_uuid "aips")]) /\
  fst (run (set_file_tags sample_uuid (VList [VStr "t"]))
           (sample_env always_accepts no_hits) initial_world)
  = Raise (EmptySearchResultError (no_matches_msg sample_uuid)) /\
  fst (run (get_file_tags sample_uuid) (sample_env always_accepts no_hits) initial_world)
  = Raise (EmptySearchResultError (no_matches_msg sample_uuid)).
Proof.
  destruct (update_field_zero_matches (sample_env always_accepts no_hits) initial_world
              sample_uuid "aips" "aip" "status" (VStr "DEL_REQ") (VList [VStr "t"]))
    as [Hu [Hs Hg]].
  split; [exact (Hu eq_refl)|].
  split; [exact (Hs eq_refl) | exact (Hg eq_refl)].
Defined.

(* ===================================================================== *)
(** * Rules for [emits], [returns] and [silent] *)
(* ===================================================================== *)

Section Rules.

Variable e : env.
Variable P : es_call -> Prop.

Lemma silent_emits {A} (m : M A) : silent m -> emits e P m.
Proof.
  intros H w. exists []. rewrite (H e w), app_nil_r. now split.
Qed.

Lemma emits_ret {A} (a : A) : emits e P (ret a).
Proof. now apply silent_emits. Qed.

Lemma emits_raise {A} (x : exn) : emits e P (@raise A x).
Proof. now apply silent_emits. Qed.

Lemma emits_lift {A} (r : result A) : emits e P (lift r).
Proof. now apply silent_emits. Qed.

Lemma emits_ask {A} (f : env -> A) : emits e P (ask f).
Proof. now apply silent_emits. Qed.

Lemma emits_logger (lv : level) (msg : string) : emits e P (logger lv msg).
Proof. now apply silent_emits. Qed.

Lemma emits_printfn (msg : string) (file : stream) : emits e P (printfn msg file).
Proof. now apply silent_emits. Qed.

Lemma emits_print (msg : string) : emits e P (print msg).
Proof. now apply silent_emits. Qed.

Lemma emits_time_sleep (s : Z) : emits e P (time_sleep s).
Proof. now apply silent_emits. Qed.

Lemma emits_bind {A B} (m : M A) (f : A -> M B) :
  emits e P m ->
  (forall a, returns e m a -> emits e P (f a)) ->
  emits e P (bind m f).
Proof.
  intros Hm Hf w. destruct (Hm w) as [new1 [H1 F1]]. unfold bind.
  destruct (m e w) as [[a|x] w1] eqn:E; simpl in H1.
  - destruct (Hf a (ex_intro _ w (ex_intro _ w1 E)) w1) as [new2 [H2 F2]].
    exists (new1 ++ new2)%list. rewrite H2, H1, app_assoc. split; [reflexivity|].
    apply Forall_app. now split.
  - exists new1. now split.
Qed.

Lemma emits_catching {A} (m : M A) : emits e P m -> emits e P (catching m).
Proof.
  intros Hm w. destruct (Hm w) as [new [H F]]. exists new. unfold catching.
  destruct (m e w) as [r w1]. now split.
Qed.

Lemma emits_client_index (body : value) (index doc_type : string) :
  P (CIndex index doc_type body) -> emits e P (client_index body index doc_type).
Proof.
  intros H w. exists [CIndex index doc_type body]. split; [reflexivity|].
  now repeat constructor.
Qed.

Lemma emits_client_cluster_health : P CHealth -> emits e P client_cluster_health.
Proof.
  intros H w. exists [CHealth]. split; [reflexivity | now repeat constructor].
Qed.

Lemma emits_for_each {A} (l : list A) (body : A -> M unit) :
  (forall x, In x l -> emits e P (body x)) -> emits e P (for_each l body).
Proof.
  induction l as [|x r IH]; intros H; simpl.
  - apply emits_ret.
  - apply emits_bind; [apply H; now left|].
    intros _ _. apply IH. intros y Hy. apply H. now right.
Qed.

Lemma emits_for_fold {A B} (l : list A) (body : B -> A -> M B) :
  (forall acc x, In x l -> emits e P (body acc x)) ->
  forall acc, emits e P (for_fold l acc body).
Proof.
  induction l as [|x r IH]; intros H acc; simpl.
  - apply emits_ret.
  - apply emits_bind; [apply H; now left|].
    intros acc' _. apply IH. intros a y Hy. apply H. now right.
Qed.

Lemma emits_wait_loop (left : nat) (wait : Z) (status : option string) :
  P CHealth -> emits e P (wait_loop left wait status).
Proof.
  intros H. revert status. induction left as [|left IH]; intros status; simpl;
    destruct (healthy status); try apply emits_ret.
  apply emits_bind; [apply emits_catching, emits_client_cluster_health, H|].
  intros r _. apply emits_bind.
  - destruct r; [apply emits_ret|].
    apply emits_bind; [apply emits_print | intros; apply emits_ret].
  - intros status' _. apply emits_bind; [|intros; apply IH].
    destruct (healthy status'); [apply emits_ret|].
    apply emits_bind; [apply emits_print | intros; apply emits_time_sleep].
Qed.

Lemma emits_try_loop (left : nat) (data : value) (index : string) (wait : Z)
      (exc : option exn) :
  P (CIndex index DOC_TYPE data) -> emits e P (try_loop left data index wait exc).
Proof.
  intros H. revert exc. induction left as [|left IH]; intros exc; simpl.
  - destruct exc; [apply emits_raise | apply emits_ret].
  - apply emits_bind; [apply emits_catching, emits_client_index, H|].
    intros r _. destruct r; [apply emits_ret|].
    repeat (apply emits_bind; [first [apply emits_printfn | apply emits_time_sleep]
                              | intros _ _]).
    apply IH.
Qed.

Lemma emits_wait_and_index (data : value) (index : string) :
  P CHealth -> P (CIndex index DOC_TYPE data) -> emits e P (wait_and_index data index).
Proof.
  intros Hh Hi. unfold wait_and_index. apply emits_bind.
  - apply emits_wait_loop, Hh.
  - intros _ _. unfold _try_to_index.
    destruct (10 <? 1); [apply emits_raise | now apply emits_try_loop].
Qed.

(** ** What a computation returns *)

Lemma returns_bind {A B} (m : M A) (f : A -> M B) (b : B) :
  returns e (bind m f) b -> exists a, returns e m a /\ returns e (f a) b.
Proof.
  intros [w [w' H]]. unfold bind in H.
  destruct (m e w) as [[a|x] w1] eqn:E; [|discriminate].
  exists a. split; [now exists w, w1 | now exists w1, w'].
Qed.

Lemma returns_ret {A} (a b : A) : returns e (ret a) b -> b = a.
Proof. intros [w [w' H]]. now injection H. Qed.

Lemma returns_raise {A} (x : exn) (a : A) : ~ returns e (raise x) a.
Proof. intros [w [w' H]]. discriminate. Qed.

Lemma returns_lift {A} (r : result A) (a : A) : returns e (lift r) a -> r = Ok a.
Proof. intros [w [w' H]]. now injection H. Qed.

Lemma returns_ask {A} (f : env -> A) (a : A) : returns e (ask f) a -> a = f e.
Proof. intros [w [w' H]]. now injection H. Qed.

End Rules.

Ltac emits_step :=
  lazymatch goal with
  | |- emits _ _ (bind _ _) => apply emits_bind; [| intros ? ?]
  | |- emits _ _ (ret _) => apply emits_ret
  | |- emits _ _ (raise _) => apply emits_raise
  | |- emits _ _ (lift _) => apply emits_lift
  | |- emits _ _ (ask _) => apply emits_ask
  | |- emits _ _ (logger _ _) => apply emits_logger
  | |- emits _ _ (printfn _ _) => apply emits_printfn
  | |- emits _ _ (print _) => apply emits_print
  | |- emits _ _ (time_sleep _) => apply emits_time_sleep
  | |- emits _ _ (os_path_exists _) => now apply silent_emits
  | |- emits _ _ (os_path_isfile _) => now apply silent_emits
  | |- emits _ _ (os_path_isdir _) => now apply silent_emits
  | |- emits _ _ (os_path_getsize _) => now apply silent_emits
  | |- emits _ _ (os_stat_ctime _) => now apply silent_emits
  | |- emits _ _ (ElementTree_parse _) => now apply silent_emits
  | |- emits _ _ (heap_read _) => now apply silent_emits
  | |- emits _ _ (heap_append _ _) => now apply silent_emits
  end.

Tactic Notation "emits_bind" "as" ident(x) ident(H) :=
  apply emits_bind; [| intros x H].

(* ===================================================================== *)
(** * Facts about the indexing entry points *)
(* ===================================================================== *)

Ltac returns_step H :=
  lazymatch type of H with
  | returns _ (bind _ _) _ =>
      let a := fresh "a" in
      let Ha := fresh "Ha" in
      apply returns_bind in H; destruct H as [a [Ha H]]
  | returns _ (raise _) _ => now apply returns_raise in H
  | returns _ (ret _) _ => apply returns_ret in H
  end.

Section EntryPoints.

Variable e : env.

Lemma index_aip_and_files_returns
      (uuid path mets_path name : string) (size aips_in_aic : option Z)
      (identifiers : value) (encrypted : bool) (r : Z) :
  node_at (fs_root e) path <> None ->
  node_at (fs_root e) mets_path <> None ->
  returns e (index_aip_and_files uuid path mets_path name size aips_in_aic
                                 identifiers encrypted) r ->
  r = 0.
Proof.
  intros Hp Hm H. unfold index_aip_and_files in H.
  returns_step H. apply returns_ask in Ha. returns_step H. apply returns_ask in Ha0.
  destruct (node_at (fs_root e) path); [|now elim Hp].
  destruct (node_at (fs_root e) mets_path); [|now elim Hm].
  subst a a0. cbv beta iota zeta delta [negb] in H.
  repeat returns_step H.
  destruct (aip_collection_fields a2) as [aic_identifier is_part_of].
  repeat returns_step H.
  destruct (find [tagged "mets:metsHdr"] a2) as [mets_hdr|]; [|returns_step H].
  repeat returns_step H. exact H.
Qed.

Lemma index_transfer_and_files_returns (uuid path status : string) (r : Z) :
  node_at (fs_root e) path <> None ->
  returns e (index_transfer_and_files uuid path status) r ->
  r = 0.
Proof.
  intros Hp H. unfold index_transfer_and_files in H.
  returns_step H. apply returns_ask in Ha.
  destruct (node_at (fs_root e) path); [|now elim Hp].
  subst a. cbv beta iota zeta delta [negb] in H.
  repeat returns_step H. exact H.
Qed.

End EntryPoints.

(** C7: when the package path or the manifest path does not exist, the
    entry points return 1 after one error in the log and one line on
    [stderr], and the client has seen no call; when the paths exist and the
    call returns, it returns 0. *)
Theorem index_entry_points_status
        (e : env) (w : world) (uuid path mets_path name status : string)
        (size aips_in_aic : option Z) (identifiers : value) (encrypted : bool) :
  let aip := index_aip_and_files uuid path mets_path name size aips_in_aic
                                 identifiers encrypted in
  let transfer := index_transfer_and_files uuid path status in
  let failed msg :=
    World (es_calls w) (logged w ++ [(ERROR, msg)]) (printed w ++ [(Stderr, msg)])
          (stdout w) (slept w) (heap w) in
  (node_at (fs_root e) mets_path = None ->
   run aip e w = (Ok 1, failed ("METS file does not exist at: " ++ mets_path))) /\
  (node_at (fs_root e) path = None -> node_at (fs_root e) mets_path <> None ->
   run aip e w = (Ok 1, failed ("AIP does not exist at: " ++ path))) /\
  (node_at (fs_root e) path <> None -> node_at (fs_root e) mets_path <> None ->
   forall r w', run aip e w = (Ok r, w') -> r = 0) /\
  (node_at (fs_root e) path = None ->
   run transfer e w = (Ok 1, failed ("Transfer does not exist at: " ++ path))) /\
  (node_at (fs_root e) path <> None ->
   forall r w', run transfer e w = (Ok r, w') -> r = 0).
Proof.
  intros aip transfer failed. repeat split.
  - intros Hm. unfold run, aip, index_aip_and_files, bind, os_path_exists, ask.
    rewrite Hm. now destruct (node_at (fs_root e) path).
  - intros Hp Hm. unfold run, aip, index_aip_and_files, bind, os_path_exists, ask.
    rewrite Hp. destruct (node_at (fs_root e) mets_path); [reflexivity | now elim Hm].
  - intros Hp Hm r w' H.
    apply (index_aip_and_files_returns e uuid path mets_path name size aips_in_aic
             identifiers encrypted r Hp Hm).
    now exists w, w'.
  - intros Hp. unfold run, transfer, index_transfer_and_files, bind, os_path_exists, ask.
    now rewrite Hp.
  - intros Hp r w' H.
    apply (index_transfer_and_files_returns e uuid path status r Hp).
    now exists w, w'.
Qed.

Lemma index_entry_points_status_witness :
  run (index_aip_and_files sample_uuid "/missing" "/aip/METS.xml" "aip" None None
                           (VList []) false)
      (sample_env always_accepts no_hits) initial_world
  = (Ok 1,
     World [] [(ERROR, "AIP does not exist at: /missing")]
           [(Stderr, "AIP does not exist at: /missing")] [] [] [[]]) /\
  fst (run (index_aip_and_files sample_uuid "/aip" "/aip/METS.xml" "aip" None None
                                (VList []) false)
           (sample_env always_accepts no_hits) initial_world) = Ok 0 /\
  run (index_transfer_and_files sample_uuid "/missing/" "backlog")
      (sample_env always_accepts no_hits) initial_world
  = (Ok 1,
     World [] [(ERROR, "Transfer does not exist at: /missing/")]
           [(Stderr, "Transfer does not exist at: /missing/")] [] [] [[]]) /\
  fst (run (index_transfer_and_files sample_uuid "/t1/" "backlog")
           (sample_env always_accepts no_hits) initial_world) = Ok 0.
Proof.
  pose proof (index_entry_points_status (sample_env always_accepts no_hits)
                initial_world sample_uuid "/missing" "/aip/METS.xml" "aip" "backlog"
                None None (VList []) false) as Hmissing.
  pose proof (index_entry_points_status (sample_env always_accepts no_hits)
                initial_world sample_uuid "/aip" "/aip/METS.xml" "aip" "backlog"
                None None (VList []) false) as Haip.
  pose proof (index_entry_points_status (sample_env always_accepts no_hits)
                initial_world sample_uuid "/missing/" "" "" "backlog"
                None None (VList []) false) as Hnone.
  pose proof (index_entry_points_status (sample_env always_accepts no_hits)
                initial_world sample_uuid "/t1/" "" "" "backlog"
                None None (VList []) false) as Ht1.
  cbv zeta in Hmissing, Haip, Hnone, Ht1.
  destruct Hmissing as [_ [H1 _]]. destruct Haip as [_ [_ [H2 _]]].
  destruct Hnone as [_ [_ [_ [H3 _]]]]. destruct Ht1 as [_ [_ [_ [_ H4]]]].
  split; [apply H1; [reflexivity | discriminate]|].
  split.
  - destruct (run (index_aip_and_files sample_uuid "/aip" "/aip/METS.xml" "aip" None None
                                       (VList []) false)
                  (sample_env always_accepts no_hits) initial_world)
      as [[r|x] w'] eqn:E.
    + simpl. f_equal. apply (H2 ltac:(discriminate) ltac:(discriminate) r w' eq_refl).
    + vm_compute in E. discriminate E.
  - split; [apply H3; reflexivity|].
    destruct (run (index_transfer_and_files sample_uuid "/t1/" "backlog")
                  (sample_env always_accepts no_hits) initial_world)
      as [[r|x] w'] eqn:E.
    + simpl. f_equal. apply (H4 ltac:(discriminate) r w' eq_refl).
    + vm_compute in E. discriminate E.
Defined.

Section AipDocument.

Variable e : env.

Lemma tag_of_clear_at (path : list step) (x : element) :
  tag_of (clear_at path x) = tag_of x.
Proof. now destruct path. Qed.

Lemma step_matches_tagged (t : string) (x : element) :
  step_matches (tagged t) x = String.eqb (tag_of x) t.
Proof. unfold step_matches, tagged. simpl. apply andb_true_r. Qed.

Lemma filter_after_clear (t a : string) (tool : list step) (ch : list element) :
  String.eqb t a = false ->
  filter (step_matches (tagged t))
         (map (fun c => if step_matches (tagged a) c then clear_at tool c else c) ch)
  = filter (step_matches (tagged t)) ch.
Proof.
  intros Hne. induction ch as [|c ch IH]; [reflexivity|].
  cbn [map filter]. rewrite IH.
  destruct (step_matches (tagged a) c) eqn:Ea; [|reflexivity].
  rewrite !step_matches_tagged, tag_of_clear_at.
  rewrite step_matches_tagged in Ea. apply String.eqb_eq in Ea.
  now rewrite Ea, (String.eqb_sym a t), Hne.
Qed.

(** Clearing the tool output under [mets:amdSec] leaves what a path from
    another tag finds as it is. *)
Lemma findall_after_clear (t : string) (rest tool : list step) (a : string) (root : element) :
  String.eqb t a = false ->
  findall (tagged t :: rest) (clear_at (tagged a :: tool) root)
  = findall (tagged t :: rest) root.
Proof.
  intros Hne. destruct root as [tg at_ tx ch].
  cbn [findall clear_at children_of].
  now rewrite filter_after_clear.
Qed.

Lemma find_dublincore_after_clear (root : element) :
  find dublincore_path (clear_at tool_output_path root) = find dublincore_path root.
Proof.
  unfold find, dublincore_path, tool_output_path. simpl map.
  now rewrite findall_after_clear.
Qed.

Lemma collection_fields_without_dublincore (root : element) :
  find dublincore_path root = None ->
  aip_collection_fields (clear_at tool_output_path root) = (VNone, VNone).
Proof.
  intros H. unfold aip_collection_fields.
  now rewrite find_dublincore_after_clear, H.
Qed.

Lemma size_or_getsize_returns (size : option Z) (path : string) (bytes : Z) :
  returns e (size_or_getsize size path) bytes -> byte_count e size path bytes.
Proof.
  intros [w [w' H]]. unfold byte_count.
  assert (G : os_path_getsize path e w = (Ok bytes, w') ->
              exists n, node_at (fs_root e) path = Some n /\ bytes = node_size n).
  { unfold os_path_getsize. destruct (node_at (fs_root e) path) as [n|]; [|discriminate].
    intros [= <- _]. now exists n. }
  destruct size as [[|s|s]|]; simpl in *; auto; now injection H.
Qed.

Lemma other_index_ok (size : option Z) (path index doc_type : string) (body : value) :
  String.eqb index "aips" = false ->
  aip_call_ok e size path (CIndex index doc_type body).
Proof.
  intros Hne dt b [= -> _ _]. discriminate.
Qed.

Lemma health_ok (size : option Z) (path : string) : aip_call_ok e size path CHealth.
Proof. intros dt b H. discriminate. Qed.

Lemma emits_extract_transfer_metadata (P : es_call -> Prop) (doc : element) :
  emits e P (_extract_transfer_metadata doc).
Proof. unfold _extract_transfer_metadata. repeat emits_step. Qed.

Lemma emits_aip_file_uuid (P : es_call -> Prop) (root file_ : element) :
  emits e P (aip_file_uuid root file_).
Proof.
  unfold aip_file_uuid. destruct (assoc (attrib_of file_) "ADMID") as [admID|].
  - destruct (find [tagged_with "mets:amdSec" "ID" admID] root); repeat emits_step.
  - destruct (assoc (attrib_of file_) "ID"); emits_step.
Qed.

Lemma emits_index_aip_file (P : es_call -> Prop) (root : element)
      (document : value -> value -> string -> string -> value) (file_ : element) :
  P CHealth ->
  (forall body, P (CIndex "aipfiles" DOC_TYPE body)) ->
  emits e P (index_aip_file root document file_).
Proof.
  intros Hh Hi. unfold index_aip_file.
  emits_step; [apply emits_aip_file_uuid|].
  destruct a as [fileUUID amdSec].
  destruct (find [tagged "mets:FLocat"] file_) as [flocat|]; [|emits_step].
  destruct (assoc (attrib_of flocat) xlink_href) as [filePath|]; [|emits_step].
  apply emits_wait_and_index; [exact Hh | apply Hi].
Qed.

Lemma emits_index_aip_files (P : es_call -> Prop)
      (uuid mets_path name : string) (identifiers : value) :
  P CHealth ->
  (forall body, P (CIndex "aipfiles" DOC_TYPE body)) ->
  emits e P (_index_aip_files uuid mets_path name identifiers).
Proof.
  intros Hh Hi. unfold _index_aip_files, _remove_tool_output_from_mets.
  repeat emits_step.
  destruct (aip_file_collection_fields a0) as [aic_identifier is_part_of].
  repeat emits_step; try apply emits_extract_transfer_metadata.
  apply emits_for_each. intros file_ _. now apply emits_index_aip_file.
Qed.

Lemma emits_index_aip_and_files
      (uuid path mets_path name : string) (size aips_in_aic : option Z)
      (identifiers : value) (encrypted : bool) (root : element) :
  xml_files e mets_path = Some root ->
  find dublincore_path root = None ->
  emits e (aip_call_ok e size path)
        (index_aip_and_files uuid path mets_path name size aips_in_aic
                             identifiers encrypted).
Proof.
  intros Hxml Hdc. unfold index_aip_and_files.
  emits_bind as path_exists Hpe; [emits_step|].
  emits_bind as mets_exists Hme; [emits_step|].
  destruct path_exists, mets_exists; cbn [negb];
    try (simpl; repeat emits_step; fail).
  emits_step; [emits_step|]. emits_step; [emits_step|].
  emits_bind as parsed Hparsed; [emits_step|].
  assert (parsed = root) as ->.
  { destruct Hparsed as [w0 [w1 Hparsed]]. unfold ElementTree_parse in Hparsed.
    rewrite Hxml in Hparsed. now injection Hparsed. }
  emits_bind as cleared Hcleared;
    [unfold _remove_tool_output_from_mets; repeat emits_step|].
  assert (cleared = clear_at tool_output_path root) as ->.
  { unfold _remove_tool_output_from_mets in Hcleared.
    repeat returns_step Hcleared. exact Hcleared. }
  rewrite (collection_fields_without_dublincore root Hdc).
  emits_step; [emits_step|]. emits_step; [emits_step|].
  destruct (find [tagged "mets:metsHdr"] (clear_at tool_output_path root))
    as [mets_hdr|]; [|emits_step].
  emits_step; [emits_step|].
  emits_step.
  { destruct (assoc (attrib_of mets_hdr) "CREATEDATE") as [[|c1 m1]|];
      repeat emits_step.
    match goal with
    | |- emits _ _ (match ?p with _ => _ end) => destruct p; repeat emits_step
    end. }
  emits_bind as bytes Hbytes.
  { unfold size_or_getsize. destruct size as [[|s|s]|]; emits_step. }
  emits_step; [emits_step|].
  emits_step; [apply emits_extract_transfer_metadata|].
  emits_step.
  { apply emits_wait_and_index; [apply health_ok|].
    intros dt body [= _ <-]. repeat split.
    exists bytes. split; [now apply size_or_getsize_returns | reflexivity]. }
  emits_step; [emits_step|]. emits_step; [emits_step|].
  emits_step.
  { apply emits_index_aip_files; [apply health_ok|].
    intros body. now apply other_index_ok. }
  repeat emits_step.
Qed.

End AipDocument.

(** C8: when the manifest has no Dublin Core section, every document that
    [index_aip_and_files] sends to the [aips] index has [AICID] and
    [isPartOf] set to [None] and, as [size], the byte count (the [size]
    given or else the size of [path] on disk) divided by 1024 twice. *)
Theorem aip_without_collection_metadata
        (e : env) (w : world) (uuid path mets_path name : string)
        (size aips_in_aic : option Z) (identifiers : value) (encrypted : bool)
        (root : element) :
  xml_files e mets_path = Some root ->
  find dublincore_path root = None ->
  (exists new,
      es_calls (snd (run (index_aip_and_files uuid path mets_path name size
                                              aips_in_aic identifiers encrypted) e w))
      = (es_calls w ++ new)%list /\
      Forall (aip_call_ok e size path) new) /\
  (forall bytes, aip_size bytes == inject_Z bytes / inject_Z (1024 * 1024)).
Proof.
  intros Hxml Hdc. split.
  - apply (emits_index_aip_and_files e uuid path mets_path name size aips_in_aic
             identifiers encrypted root Hxml Hdc w).
  - intros bytes. unfold aip_size. change (inject_Z (1024 * 1024)) with (inject_Z 1048576).
    unfold Qeq, Qdiv, Qmult, Qinv, inject_Z. simpl. lia.
Qed.

Lemma aip_without_collection_metadata_witness :
  exists body,
    In (CIndex "aips" DOC_TYPE body)
       (es_calls (snd (run (index_aip_and_files sample_uuid "/aip" "/aip/METS.xml" "aip"
                                                (Some 2097152) None (VList []) false)
                           (sample_env always_accepts no_hits) initial_world))) /\
    subscript body "AICID" = Ok VNone /\
    subscript body "isPartOf" = Ok VNone /\
    subscript body "size" = Ok (VFloat (aip_size 2097152)).
Proof.
  destruct (aip_without_collection_metadata (sample_env always_accepts no_hits)
              initial_world sample_uuid "/aip" "/aip/METS.xml" "aip"
              (Some 2097152) None (VList []) false sample_mets eq_refl eq_refl)
    as [[new [Hnew Hall]] _].
  simpl app in Hnew.
  assert (Hin : exists body, In (CIndex "aips" DOC_TYPE body) new).
  { rewrite <- Hnew. eexists. right. left. reflexivity. }
  destruct Hin as [body Hin]. exists body. rewrite Hnew. split; [exact Hin|].
  rewrite Forall_forall in Hall.
  destruct (Hall _ Hin DOC_TYPE body eq_refl) as [Ha [Hp [bytes [Hb Hs]]]].
  simpl in Hb. subst bytes. now repeat split.
Defined.

(* ===================================================================== *)
(** * Facts about the file UUID of an AIP file *)
(* ===================================================================== *)

Section FileUuid.

Lemma nodup_all_equal (u : string) (l : list string) :
  In u l -> (forall u', In u' l -> u' = u) -> nodup string_dec l = [u].
Proof.
  induction l as [|a l IH]; intros Hin Hall; [destruct Hin|].
  assert (a = u) as -> by (apply Hall; now left).
  simpl. destruct (in_dec string_dec u l) as [Hu|Hu].
  - apply IH; [exact Hu|]. intros u' Hu'. apply Hall. now right.
  - destruct l as [|b l]; [reflexivity|].
    elim Hu. left. apply Hall. right. now left.
Qed.

Lemma nodup_two_distinct (a b : string) (l : list string) :
  In a l -> In b l -> a <> b -> (2 <= List.length (nodup string_dec l))%nat.
Proof.
  intros Ha Hb Hne.
  apply (NoDup_incl_length (l := [a; b])).
  - constructor; [intros [H|[]]; now elim Hne | constructor; [intros [] | constructor]].
  - intros x [<-|[<-|[]]]; now apply nodup_In.
Qed.

Lemma uuid_from_file_id_cases (id : string) :
  let uuids := re_findall uuix_regex id in
  (forall u, In u uuids -> (forall u', In u' uuids -> u' = u) ->
             uuid_from_file_id id = VStr u) /\
  ((exists a b, In a uuids /\ In b uuids /\ a <> b) -> uuid_from_file_id id = VNone) /\
  (uuids = [] -> uuid_from_file_id id = VNone).
Proof.
  intros uuids. unfold uuid_from_file_id, distinct_count. fold uuids. repeat split.
  - intros u Hin Hall. rewrite (nodup_all_equal u uuids Hin Hall). simpl.
    destruct uuids as [|x r]; [destruct Hin|].
    f_equal. apply Hall. now left.
  - intros [a [b [Ha [Hb Hne]]]].
    pose proof (nodup_two_distinct a b uuids Ha Hb Hne) as H2.
    destruct (Nat.eqb_spec (List.length (nodup string_dec uuids)) 1); [lia | reflexivity].
  - intros ->. reflexivity.
Qed.

Variable e : env.

Lemma aip_file_uuid_without_admid (root file_ : element) (id : string) (w : world) :
  assoc (attrib_of file_) "ADMID" = None ->
  assoc (attrib_of file_) "ID" = Some id ->
  run (aip_file_uuid root file_) e w = (Ok (uuid_from_file_id id, VDict PlainDict []), w).
Proof.
  intros Hadm Hid. unfold run, aip_file_uuid. now rewrite Hadm, Hid.
Qed.

End FileUuid.

(** C9: for a manifest entry without [ADMID], the file UUID comes from the
    UUID-shaped substrings of its [ID]: when there is at least one and they
    are all the same, it is that UUID; when two of them differ, or there is
    none, it is [None].  The documents indexed for the entry carry that
    value. *)
Theorem file_uuid_from_id
        (e : env) (w : world) (root file_ : element) (id : string) :
  assoc (attrib_of file_) "ADMID" = None ->
  assoc (attrib_of file_) "ID" = Some id ->
  let uuids := re_findall uuix_regex id in
  exists fileUUID,
    run (aip_file_uuid root file_) e w = (Ok (fileUUID, VDict PlainDict []), w) /\
    (forall u, In u uuids -> (forall u', In u' uuids -> u' = u) -> fileUUID = VStr u) /\
    ((exists a b, In a uuids /\ In b uuids /\ a <> b) -> fileUUID = VNone) /\
    (uuids = [] -> fileUUID = VNone) /\
    (forall document,
        emits e (fun c => forall index doc_type body,
                     c = CIndex index doc_type body ->
                     exists filePath fileExtension,
                       body = document fileUUID (VDict PlainDict []) filePath fileExtension)
              (index_aip_file root document file_)).
Proof.
  intros Hadm Hid uuids. exists (uuid_from_file_id id).
  split; [now apply aip_file_uuid_without_admid|].
  destruct (uuid_from_file_id_cases id) as [H1 [H2 H3]].
  split; [exact H1|]. split; [exact H2|]. split; [exact H3|].
  intros document. unfold index_aip_file.
  emits_bind as found Hfound.
  { apply emits_aip_file_uuid. }
  assert (found = (uuid_from_file_id id, VDict PlainDict [])) as ->.
  { destruct Hfound as [w0 [w1 Hfound]].
    pose proof (aip_file_uuid_without_admid e root file_ id w0 Hadm Hid) as H.
    unfold run in H. rewrite H in Hfound. now injection Hfound. }
  destruct (find [tagged "mets:FLocat"] file_) as [flocat|]; [|emits_step].
  destruct (assoc (attrib_of flocat) xlink_href) as [filePath|]; [|emits_step].
  apply emits_wait_and_index.
  - intros index doc_type body H. discriminate.
  - intros index doc_type body [= _ _ <-]. eexists. eexists. reflexivity.
Qed.

(** An [ID] with the same UUID twice gives that UUID; two different UUIDs
    give [None]. *)

Lemma file_uuid_from_id_witness :
  run (aip_file_uuid sample_mets (metadata_file (sample_uuid ++ "-" ++ sample_uuid)))
      (sample_env always_accepts no_hits) initial_world
  = (Ok (VStr sample_uuid, VDict PlainDict []), initial_world) /\
  run (aip_file_uuid sample_mets (metadata_file (sample_uuid ++ "-" ++ other_uuid)))
      (sample_env always_accepts no_hits) initial_world
  = (Ok (VNone, VDict PlainDict []), initial_world) /\
  run (aip_file_uuid sample_mets (metadata_file "METS.xml"))
      (sample_env always_accepts no_hits) initial_world
  = (Ok (VNone, VDict PlainDict []), initial_world).
Proof.
  assert (Esame : re_findall uuix_regex (sample_uuid ++ "-" ++ sample_uuid)
                  = [sample_uuid; sample_uuid]) by (vm_compute; reflexivity).
  assert (Ediff : re_findall uuix_regex (sample_uuid ++ "-" ++ other_uuid)
                  = [sample_uuid; other_uuid]) by (vm_compute; reflexivity).
  assert (Enone : re_findall uuix_regex "METS.xml" = []) by (vm_compute; reflexivity).
  assert (Hne : sample_uuid <> other_uuid) by (vm_compute; discriminate).
  split; [|split].
  - destruct (file_uuid_from_id (sample_env always_accepts no_hits) initial_world
                sample_mets (metadata_file (sample_uuid ++ "-" ++ sample_uuid))
                (sample_uuid ++ "-" ++ sample_uuid) eq_refl eq_refl)
      as [fileUUID [Hrun [Hsame _]]].
    rewrite Esame in Hsame. rewrite Hrun.
    rewrite (Hsame sample_uuid (or_introl eq_refl)); [reflexivity|].
    intros u' [H|[H|[]]]; symmetry; exact H.
  - destruct (file_uuid_from_id (sample_env always_accepts no_hits) initial_world
                sample_mets (metadata_file (sample_uuid ++ "-" ++ other_uuid))
                (sample_uuid ++ "-" ++ other_uuid) eq_refl eq_refl)
      as [fileUUID [Hrun [_ [Hdiff _]]]].
    rewrite Ediff in Hdiff. rewrite Hrun, Hdiff; [reflexivity|].
    exists sample_uuid, other_uuid.
    split; [left; reflexivity|]. split; [right; left; reflexivity | exact Hne].
  - destruct (file_uuid_from_id (sample_env always_accepts no_hits) initial_world
                sample_mets (metadata_file "METS.xml") "METS.xml" eq_refl eq_refl)
      as [fileUUID [Hrun [_ [_ [Hnone _]]]]].
    rewrite Hrun, (Hnone Enone). reflexivity.
Defined.

(* ===================================================================== *)
(** * Facts about the walk of a transfer directory *)
(* ===================================================================== *)

Section Walk.

Variable e : env.

Lemma with_heap_same (w : world) : with_heap w (heap w) = w.
Proof. now destruct w. Qed.

Lemma extend_at_nil (addr : nat) (h : list (list string)) : extend_at addr [] h = h.
Proof.
  revert addr. induction h as [|l r IH]; intros [|a]; simpl; try reflexivity.
  - now rewrite app_nil_r.
  - now rewrite IH.
Qed.

Lemma extend_at_app (addr : nat) (xs ys : list string) (h : list (list string)) :
  extend_at addr ys (extend_at addr xs h) = extend_at addr (xs ++ ys) h.
Proof.
  revert addr. induction h as [|l r IH]; intros [|a]; simpl; try reflexivity.
  - now rewrite app_assoc.
  - now rewrite IH.
Qed.

Lemma append_at_extend (addr : nat) (x : string) (h : list (list string)) :
  append_at addr x h = extend_at addr [x] h.
Proof.
  revert addr. induction h as [|l r IH]; intros [|a]; simpl; try reflexivity.
  now rewrite IH.
Qed.

(** One walk appends the path names of the directory to the list it was
    given, whatever that list holds already. *)
Lemma list_files_under_run (node : fsnode) :
  forall (path : string) (filepaths : nat) (w : world),
    node_is_dir node && node_readable node = true ->
    list_files_under node path filepaths e w
    = (Ok tt, with_heap w (extend_at filepaths (files_under node path) (heap w))).
Proof.
  induction node as [size ctime|size ctime readable listing IH] using fsnode_ind;
    intros path filepaths w Hdir; [discriminate|].
  simpl in Hdir. subst readable. simpl.
  revert w. induction IH as [|[file child] rest Hchild _ IHrest]; intros w.
  - now rewrite extend_at_nil, with_heap_same.
  - unfold bind at 1. unfold heap_append at 1.
    unfold bind at 1.
    destruct (node_is_dir child && node_readable child) eqn:Ec.
    + simpl in Hchild. rewrite (Hchild _ _ _ Ec).
      rewrite IHrest. unfold with_heap. simpl. f_equal. f_equal.
      rewrite append_at_extend, !extend_at_app. reflexivity.
    + unfold ret at 1. rewrite IHrest. unfold with_heap. simpl. f_equal. f_equal.
      rewrite append_at_extend, !extend_at_app. reflexivity.
Qed.

Lemma list_files_in_dir_run (path : string) (node : fsnode) (w : world) :
  node_at (fs_root e) path = Some node ->
  node_is_dir node && node_readable node = true ->
  run (_list_files_in_dir path) e w
  = (Ok default_filepaths,
     with_heap w (extend_at default_filepaths (files_under node path) (heap w))).
Proof.
  intros Hnode Hdir.
  unfold run, _list_files_in_dir, _list_files_in_dir_into, bind, ask.
  rewrite Hnode, (list_files_under_run node path default_filepaths w Hdir).
  reflexivity.
Qed.

(** What the second of two calls returns: the path names of the first
    directory, then those of the second. *)
Lemma list_files_in_dir_accumulates (path1 path2 : string) (node1 node2 : fsnode) :
  node_at (fs_root e) path1 = Some node1 ->
  node_at (fs_root e) path2 = Some node2 ->
  node_is_dir node1 && node_readable node1 = true ->
  node_is_dir node2 && node_readable node2 = true ->
  fst (run (_list_files_in_dir path1 ;;
            second <- _list_files_in_dir path2 ;;
            heap_read second) e initial_world)
  = Ok (files_under node1 path1 ++ files_under node2 path2)%list.
Proof.
  intros H1 H2 D1 D2. unfold run. unfold bind at 1.
  pose proof (list_files_in_dir_run path1 node1 initial_world H1 D1) as R1.
  unfold run in R1. rewrite R1. unfold bind at 1.
  pose proof (list_files_in_dir_run path2 node2
                (with_heap initial_world
                   (extend_at default_filepaths (files_under node1 path1)
                              (heap initial_world))) H2 D2) as R2.
  unfold run in R2. rewrite R2. reflexivity.
Qed.

End Walk.

(** C6: the list that [_list_files_in_dir] fills is the default value of
    its parameter, made once; a second call starts from what the first
    call left in it.  After listing [/t1/], the listing of [/t2/] holds the
    entries of [/t1/] too (a call that is handed a fresh list gives the
    entries of [/t2/] alone), and the second transfer is indexed with the
    file of the first. *)
Theorem list_files_in_dir_keeps_earlier_calls :
  let e := sample_env always_accepts no_hits in
  fst (run (_list_files_in_dir "/t1/" ;;
            second <- _list_files_in_dir "/t2/" ;;
            heap_read second) e initial_world)
  = Ok ["/t1/a.txt"; "/t1/processingMCP.xml"; "/t2/b.TXT"] /\
  fst (run (_list_files_in_dir "/t1/" ;;
            fresh <- heap_new ;;
            second <- _list_files_in_dir_into "/t2/" fresh ;;
            heap_read second) e initial_world)
  = Ok ["/t2/b.TXT"] /\
  fst (run (index_transfer_and_files other_uuid "/t2/" "backlog") e initial_world) = Ok 0 /\
  map (fun c => match c with
                | CIndex index _ body =>
                    (index, subscript body "filename", subscript body "file_count")
                | _ => (EmptyString, Raise TypeError, Raise TypeError)
                end)
      (index_calls
         (es_calls (snd (run (index_transfer_and_files sample_uuid "/t1/" "backlog" ;;
                              index_transfer_and_files other_uuid "/t2/" "backlog")
                             e initial_world))))
  = [("transferfiles", Ok (VStr "a.txt"), Raise (KeyError "file_count"));
     ("transfers", Raise (KeyError "filename"), Ok (VInt 1));
     ("transferfiles", Ok (VStr "a.txt"), Raise (KeyError "file_count"));
     ("transferfiles", Ok (VStr "b.TXT"), Raise (KeyError "file_count"));
     ("transfers", Raise (KeyError "filename"), Ok (VInt 2))].
Proof. cbv zeta. repeat split; vm_compute; reflexivity. Qed.

(* ===================================================================== *)
(** * More facts about the schema normalizer *)
(* ===================================================================== *)

Section NormalizerShapes.

Lemma rename_is_ok_or_index_error (v : value) :
  (exists y, rename v = Ok y) \/ rename v = Raise IndexError.
Proof.
  destruct (rename v) as [y|x] eqn:E; [left; now exists y|].
  right. f_equal. now apply (rename_raises v).
Qed.

(** *** When the renaming pass fails *)

Lemma rename_elements_ok (l : list value) :
  Forall (fun x => has_empty_list x = false -> exists y, rename x = Ok y) l ->
  existsb has_empty_list l = false ->
  exists l', rename_elements rename l = Ok l'.
Proof.
  induction 1 as [|x r Hx _ IH]; simpl; intros He; [now exists []|].
  apply orb_false_iff in He. destruct He as [He1 He2].
  destruct (Hx He1) as [y Hy]. destruct (IH He2) as [r' Hr'].
  rewrite Hy, Hr'. simpl. now eexists.
Qed.

Lemma rename_elements_fail (l : list value) :
  Forall (fun x => has_empty_list x = true -> rename x = Raise IndexError) l ->
  existsb has_empty_list l = true ->
  rename_elements rename l = Raise IndexError.
Proof.
  induction 1 as [|x r Hx _ IH]; simpl; intros He; [discriminate|].
  destruct (has_empty_list x) eqn:E1.
  - now rewrite (Hx eq_refl).
  - simpl in He. destruct (rename_is_ok_or_index_error x) as [[y Hy]|Hy]; rewrite Hy; simpl.
    + now rewrite (IH He).
    + reflexivity.
Qed.

Lemma rename_ok_without_empty_list (v : value) :
  has_empty_list v = false -> exists y, rename v = Ok y.
Proof.
  induction v as [| | | | |l IH|k d IH] using value_ind; simpl; intros He;
    try (eexists; reflexivity).
  - destruct (rename_elements_ok l IH He) as [l' Hl']. rewrite Hl'. simpl. now eexists.
  - assert (H : forall new, exists res, rename_items rename d new = Ok res).
    { induction IH as [|[key x] r Hx _ IHr]; intros new; simpl; [now eexists|].
      simpl in He. apply orb_false_iff in He. destruct He as [He1 He2].
      assert (Hitem : exists kv, renamed_item rename key x = Ok kv).
      { unfold renamed_item. simpl in Hx.
        destruct x as [| | | | |[|first l']|k' d']; try discriminate;
          try (eexists; reflexivity).
        - destruct (Hx He1) as [y Hy]. rewrite Hy. simpl. now eexists.
        - destruct (Hx He1) as [y Hy]. rewrite Hy. simpl. now eexists. }
      destruct Hitem as [kv Hkv]. rewrite Hkv. simpl. apply (IHr He2). }
    destruct (H []) as [res Hres]. rewrite Hres. simpl. now eexists.
Qed.

Lemma rename_fails_with_empty_list (v : value) :
  has_empty_list v = true -> rename v = Raise IndexError.
Proof.
  induction v as [| | | | |l IH|k d IH] using value_ind; simpl; intros He;
    try discriminate.
  - now rewrite (rename_elements_fail l IH He).
  - assert (H : forall new, rename_items rename d new = Raise IndexError).
    { induction IH as [|[key x] r Hx _ IHr]; intros new; simpl; [discriminate|].
      simpl in He, Hx.
      destruct (renamed_item rename key x) as [kv|err] eqn:Ei; simpl.
      - apply IHr. apply orb_true_iff in He. destruct He as [He|He]; [|exact He].
        exfalso. unfold renamed_item in Ei.
        destruct x as [| | | | |[|first l']|k' d']; try discriminate.
        + rewrite (Hx He) in Ei. discriminate.
        + rewrite (Hx He) in Ei. discriminate.
      - f_equal. apply (renamed_item_raises key x err); [apply rename_raises | exact Ei]. }
    now rewrite H.
Qed.

Lemma has_empty_list_stabilize (v : value) :
  has_empty_list (stabilize v) = has_empty_list v.
Proof.
  induction v as [| | | | |l IH|k d IH] using value_ind; try reflexivity.
  - simpl. induction IH as [|x r Hx _ IHr]; simpl; [reflexivity|].
    now rewrite Hx, IHr.
  - simpl. induction IH as [|[key x] r Hx _ IHr]; simpl; [reflexivity|].
    rewrite IHr. f_equal. simpl in Hx.
    destruct x as [| | | | |[|first l']|k' d']; try reflexivity.
    + exact Hx.
    + cbn [normalized_dict_value has_empty_list existsb].
      rewrite orb_false_r. exact Hx.
Qed.

End NormalizerShapes.

(** X1: the normalization of a tree fails exactly when, at some depth, a key
    holds an empty list; it then raises [IndexError], and otherwise it
    returns. *)
Theorem normalize_fails_iff_empty_list (x : value) :
  (has_empty_list x = true <-> normalize x = Raise IndexError) /\
  (has_empty_list x = false <-> exists y, normalize x = Ok y).
Proof.
  unfold normalize, _rename_dict_keys_with_child_dicts, _normalize_dict_values.
  pose proof (has_empty_list_stabilize x) as Hs.
  destruct (has_empty_list x) eqn:E.
  - pose proof (rename_fails_with_empty_list (stabilize x) Hs) as Hf.
    rewrite Hf. repeat split; try discriminate; auto.
    intros [y Hy]. discriminate.
  - destruct (rename_ok_without_empty_list (stabilize x) Hs) as [y Hy].
    rewrite Hy. repeat split; try discriminate; auto. now exists y.
Qed.

(** X2: a key that holds one mapping and a key that holds a list of that one
    mapping are normalized to the same thing, wherever the key stands in its
    mapping. *)
Theorem normalize_mapping_as_singleton_list
        (k kd : dict_kind) (before after dd : entries) (key : string) :
  normalize (VDict k (before ++ (key, VDict kd dd) :: after)) =
  normalize (VDict k (before ++ (key, VList [VDict kd dd]) :: after)).
Proof.
  unfold normalize, _normalize_dict_values. f_equal.
  cbn [stabilize]. now rewrite !map_app.
Qed.

Section NormalForm.

Lemma forallb_dict_set (f : string * value -> bool) (d : entries) (k : string) (v : value) :
  forallb f d = true -> f (k, v) = true -> forallb f (dict_set d k v) = true.
Proof.
  intros Hd Hv. induction d as [|[k0 x] r IH]; simpl in *; [now rewrite Hv|].
  apply andb_true_iff in Hd. destruct Hd as [H0 Hr].
  destruct (String.eqb_spec k0 k) as [->|_]; simpl.
  - now rewrite Hv, Hr.
  - now rewrite H0, (IH Hr).
Qed.

Lemma rename_items_forallb (f : string * value -> bool) (d new res : entries) :
  Forall (fun e => forall kv, renamed_item rename (fst e) (snd e) = Ok kv -> f kv = true) d ->
  forallb f new = true ->
  rename_items rename d new = Ok res ->
  forallb f res = true.
Proof.
  intros Hd. revert new. induction Hd as [|[key x] r Hx _ IH]; intros new Hnew; simpl.
  - now intros [= <-].
  - destruct (renamed_item rename key x) as [[k' v']|] eqn:E; simpl; [|discriminate].
    apply IH. apply forallb_dict_set; [exact Hnew | now apply Hx].
Qed.

Lemma rename_elements_forallb (f : value -> bool) (l l' : list value) :
  Forall (fun x => forall y, rename x = Ok y -> f y = true) l ->
  rename_elements rename l = Ok l' ->
  forallb f l' = true.
Proof.
  intros Hl. revert l'. induction Hl as [|x r Hx _ IH]; intros l'; simpl.
  - now intros [= <-].
  - destruct (rename x) as [y|] eqn:Ex; simpl; [|discriminate].
    destruct (rename_elements rename r) as [r'|] eqn:Er; simpl; [|discriminate].
    intros [= <-]. simpl. now rewrite (Hx y eq_refl), (IH r' eq_refl).
Qed.

Lemma rename_keeps_shape (v y : value) :
  rename v = Ok y -> is_dict y = is_dict v /\ is_list y = is_list v.
Proof.
  destruct v; simpl; try (now intros [= <-]).
  - destruct (rename_elements rename l); simpl; [now intros [= <-] | discriminate].
  - destruct (rename_items rename d []); simpl; [now intros [= <-] | discriminate].
Qed.

Lemma no_dict_values_stabilize (v : value) : no_dict_values (stabilize v) = true.
Proof.
  induction v as [| | | | |l IH|k d IH] using value_ind; try reflexivity.
  - simpl. induction IH as [|x r Hx _ IHr]; simpl; [reflexivity|].
    now rewrite Hx, IHr.
  - simpl. induction IH as [|[key x] r Hx _ IHr]; simpl; [reflexivity|].
    rewrite IHr, andb_true_r. simpl in Hx.
    destruct x; try reflexivity.
    + exact Hx.
    + cbn [normalized_dict_value is_dict negb no_dict_values forallb].
      now rewrite Hx.
Qed.

Lemma no_dict_values_rename (v : value) :
  forall y, no_dict_values v = true -> rename v = Ok y -> no_dict_values y = true.
Proof.
  induction v as [| | | | |l IH|k d IH] using value_ind; intros y Hv; simpl;
    try (now intros [= <-]).
  - destruct (rename_elements rename l) as [l'|] eqn:E; simpl; [|discriminate].
    intros [= <-]. simpl. apply (rename_elements_forallb no_dict_values l l'); [|exact E].
    simpl in Hv. rewrite forallb_forall in Hv. rewrite Forall_forall in *.
    intros x Hin y Hy. apply (IH x Hin); [now apply Hv | exact Hy].
  - destruct (rename_items rename d []) as [res|] eqn:E; simpl; [|discriminate].
    intros [= <-]. simpl.
    apply (rename_items_forallb
             (fun e => let '(_, x) := e in negb (is_dict x) && no_dict_values x)
             d [] res); [|reflexivity|exact E].
    simpl in Hv. rewrite forallb_forall in Hv. rewrite Forall_forall in *.
    intros [key x] Hin [k' v'] Hkv. simpl in Hkv.
    specialize (Hv _ Hin). simpl in Hv. apply andb_true_iff in Hv.
    destruct Hv as [Hnd Hx]. specialize (IH _ Hin). simpl in IH.
    unfold renamed_item in Hkv.
    destruct x as [| | | | |[|first l']|k0 d0]; try discriminate;
      try (injection Hkv as <- <-; reflexivity).
    destruct (rename (VList (first :: l'))) as [y|] eqn:Ey; simpl in Hkv; [|discriminate].
    injection Hkv as <- <-.
    destruct (rename_keeps_shape _ _ Ey) as [Hd _]. rewrite Hd. simpl.
    now apply IH.
Qed.

Lemma ends_with_unfold (suffix s : string) :
  ends_with suffix s =
  if String.eqb s suffix then true
  else match s with
       | EmptyString => false
       | String _ r => ends_with suffix r
       end.
Proof. now destruct s. Qed.

Lemma ends_with_append (a suffix : string) : ends_with suffix (a ++ suffix) = true.
Proof.
  induction a as [|c a IH].
  - rewrite ends_with_unfold. change ("" ++ suffix) with suffix.
    now rewrite String.eqb_refl.
  - rewrite ends_with_unfold. cbn [append]. rewrite IH. now destruct (String.eqb (String c (a ++ suffix)) suffix).
Qed.

Lemma ends_with_prefix (a s suffix : string) :
  ends_with suffix s = true -> ends_with suffix (a ++ s) = true.
Proof.
  intros H. induction a as [|c a IH]; [exact H|].
  rewrite ends_with_unfold. cbn [append]. rewrite IH.
  now destruct (String.eqb (String c (a ++ s)) suffix).
Qed.

Lemma keys_tagged_rename (v : value) : forall y, rename v = Ok y -> keys_tagged y = true.
Proof.
  induction v as [| | | | |l IH|k d IH] using value_ind; intros y; simpl;
    try (now intros [= <-]).
  - destruct (rename_elements rename l) as [l'|] eqn:E; simpl; [|discriminate].
    intros [= <-]. simpl. now apply (rename_elements_forallb keys_tagged l l').
  - destruct (rename_items rename d []) as [res|] eqn:E; simpl; [|discriminate].
    intros [= <-]. simpl.
    apply (rename_items_forallb
             (fun e => let '(key, x) := e in
                       implb (is_list x) (ends_with "_list" key) &&
                       implb (is_dict x) (ends_with "_data" key) && keys_tagged x)
             d [] res); [|reflexivity|exact E].
    rewrite Forall_forall in *.
    intros [key x] Hin [k' v'] Hkv. simpl in Hkv.
    specialize (IH _ Hin). simpl in IH. unfold renamed_item in Hkv.
    destruct x as [| | | | |[|first l']|k0 d0]; try discriminate;
      try (injection Hkv as <- <-; reflexivity).
    + destruct (rename (VList (first :: l'))) as [y|] eqn:Ey; simpl in Hkv; [|discriminate].
      injection Hkv as <- <-.
      destruct (rename_keeps_shape _ _ Ey) as [Hd Hl]. rewrite Hd, Hl.
      cbn [is_list is_dict implb]. rewrite (IH y eq_refl), !andb_true_r.
      apply ends_with_prefix.
      apply (ends_with_prefix "_" (type_name first ++ "_list") "_list").
      apply ends_with_append.
    + destruct (rename (VDict k0 d0)) as [y|] eqn:Ey; simpl in Hkv; [|discriminate].
      injection Hkv as <- <-.
      destruct (rename_keeps_shape _ _ Ey) as [Hd Hl]. rewrite Hd, Hl.
      cbn [is_list is_dict implb andb]. rewrite (IH y eq_refl), !andb_true_r.
      apply ends_with_append.
Qed.

Lemma normalize_normal_form (x y : value) :
  normalize x = Ok y -> no_dict_values y = true /\ keys_tagged y = true.
Proof.
  unfold normalize, _rename_dict_keys_with_child_dicts, _normalize_dict_values.
  intros H. split.
  - apply (no_dict_values_rename (stabilize x)); [apply no_dict_values_stabilize | exact H].
  - now apply (keys_tagged_rename (stabilize x)).
Qed.

End NormalForm.

(** X3: in a normalized tree, at every depth, no key holds a mapping
    directly (a mapping is always an element of a list), and a key that
    holds a list ends in [_list]; after the renaming pass alone, a key that
    holds a mapping ends in [_data]. *)
Theorem normal_form_shape (x y : value) :
  (normalize x = Ok y -> no_dict_values y = true /\ keys_tagged y = true) /\
  (_rename_dict_keys_with_child_dicts x = Ok y -> keys_tagged y = true).
Proof.
  split.
  - apply normalize_normal_form.
  - unfold _rename_dict_keys_with_child_dicts. apply keys_tagged_rename.
Qed.

Section RenamedKeySets.

Lemma add_key_In (acc : list string) (k x : string) :
  In x (add_key acc k) <-> In x acc \/ x = k.
Proof.
  unfold add_key. destruct (existsb (String.eqb k) acc) eqn:E.
  - apply existsb_eqb_In in E. split; [now left | intros [H| ->]; assumption].
  - rewrite in_app_iff. simpl. split.
    + intros [H|[H|[]]]; [now left | right; now symmetry].
    + intros [H|H]; [now left | right; left; now symmetry].
Qed.

Lemma fold_add_key_In (ks acc : list string) (x : string) :
  In x (fold_left add_key ks acc) <-> In x acc \/ In x ks.
Proof.
  revert acc. induction ks as [|k ks IH]; intros acc; simpl.
  - split; [now left | now intros [H|[]]].
  - rewrite IH, add_key_In. split.
    + intros [[H| ->]|H]; auto.
    + intros [H|[<-|H]]; auto.
Qed.

Lemma fold_add_key_distinct (ks acc : list string) :
  NoDup (acc ++ ks) -> fold_left add_key ks acc = (acc ++ ks)%list.
Proof.
  revert acc. induction ks as [|k ks IH]; intros acc H; simpl.
  - now rewrite app_nil_r.
  - assert (Hk : existsb (String.eqb k) acc = false).
    { destruct (existsb (String.eqb k) acc) eqn:E; [|reflexivity].
      apply existsb_eqb_In in E. apply NoDup_remove_2 in H.
      elim H. apply in_or_app. now left. }
    unfold add_key at 2. rewrite Hk. rewrite IH.
    + now rewrite <- app_assoc.
    + now rewrite <- app_assoc.
Qed.

End RenamedKeySets.

(** X4: the keys of a renamed mapping are the renamed keys of its items,
    each once: when two items are renamed to the same key only one of
    them is kept, so the result may have fewer items than the mapping had;
    when the renamed keys are distinct, the result has them in the order
    of the items. *)
Theorem renamed_mapping_keys (k : dict_kind) (d : entries) (y : value) :
  _rename_dict_keys_with_child_dicts (VDict k d) = Ok y ->
  exists res,
    y = VDict PlainDict res /\
    NoDup (keys res) /\
    (forall key', In key' (keys res) <->
                  exists key x, In (key, x) d /\ key' = renamed_key key x) /\
    (List.length res <= List.length d)%nat /\
    (NoDup (map (fun e => renamed_key (fst e) (snd e)) d) ->
     keys res = map (fun e => renamed_key (fst e) (snd e)) d).
Proof.
  unfold _rename_dict_keys_with_child_dicts. simpl.
  destruct (rename_items rename d []) as [res|] eqn:E; simpl; [|discriminate].
  intros [= <-]. exists res. split; [reflexivity|].
  pose proof (rename_items_keys _ _ _ _ E) as Hk. simpl in Hk.
  split; [now apply (rename_items_NoDup rename d)|]. split; [|split].
  - intros key'. rewrite Hk, fold_add_key_In, in_map_iff. split.
    + intros [[]|[[key x] [<- Hin]]]. now exists key, x.
    + intros [key [x [Hin ->]]]. right. now exists (key, x).
  - destruct (fold_add_key_length (map (fun e => renamed_key (fst e) (snd e)) d) [])
      as [Hle _].
    rewrite <- Hk in Hle. unfold keys in Hle. rewrite !length_map in Hle.
    simpl in Hle. exact Hle.
  - intros Hnd. rewrite Hk. now apply fold_add_key_distinct.
Qed.

(** The key [a] of a mapping is renamed to [a_data], which is the key of
    the next item: one item is left. *)
Lemma renamed_mapping_keys_witness :
  _rename_dict_keys_with_child_dicts colliding_tree
  = Ok (VDict PlainDict [("a_data", VInt 2)]) /\
  exists res,
    VDict PlainDict [("a_data", VInt 2)] = VDict PlainDict res /\
    NoDup (keys res) /\
    (forall key', In key' (keys res) <->
                  exists key x,
                    In (key, x) [("a", VDict PlainDict [("b", VInt 1)]); ("a_data", VInt 2)] /\
                    key' = renamed_key key x) /\
    (List.length res <= 2)%nat /\
    (NoDup ["a_data"; "a_data"] -> keys res = ["a_data"; "a_data"]).
Proof.
  split; [reflexivity|].
  exact (renamed_mapping_keys PlainDict
           [("a", VDict PlainDict [("b", VInt 1)]); ("a_data", VInt 2)]
           (VDict PlainDict [("a_data", VInt 2)]) eq_refl).
Defined.

(* ===================================================================== *)
(** * More facts about the resilient writer *)
(* ===================================================================== *)

Section WriterBounds.

Variable e : env.
Variables (data : value) (index : string) (wait_between_tries : Z).

Lemma try_loop_bounded (left : nat) :
  forall (exc : option exn) (w : world),
  exists n,
    es_calls (snd (try_loop left data index wait_between_tries exc e w))
    = (es_calls w ++ repeat (CIndex index DOC_TYPE data) n)%list /\
    (n <= left)%nat /\
    ((0 < left)%nat -> (1 <= n)%nat) /\
    (fst (try_loop left data index wait_between_tries exc e w) = Ok tt ->
     left = O \/
     ((1 <= n)%nat /\ es_index e (attempts w + (n - 1)) = None /\
      slept (snd (try_loop left data index wait_between_tries exc e w))
      = (slept w ++ repeat wait_between_tries (n - 1))%list)) /\
    (forall x,
        fst (try_loop left data index wait_between_tries exc e w) = Raise x ->
        n = left /\
        (left = O -> exc = Some x) /\
        ((0 < left)%nat -> es_index e (attempts w + (left - 1)) = Some x) /\
        slept (snd (try_loop left data index wait_between_tries exc e w))
        = (slept w ++ repeat wait_between_tries left)%list).
Proof.
  induction left as [|left IH]; intros exc w.
  - exists O. simpl. rewrite !app_nil_r.
    split; [now destruct exc|]. split; [lia|]. split; [lia|].
    split; [now left|]. intros x Hx. destruct exc as [y|]; simpl in Hx; [|discriminate].
    injection Hx as ->. repeat split; try reflexivity; lia.
  - rewrite try_loop_step. destruct (es_index e (attempts w)) as [y|] eqn:E.
    + destruct (IH (Some y) (refused data index wait_between_tries y w))
        as [n [Hc [Hle [Hpos [Hok Herr]]]]].
      exists (S n). rewrite Hc. simpl es_calls. rewrite <- app_assoc.
      split; [reflexivity|]. split; [lia|]. split; [lia|].
      rewrite attempts_refused in Hok, Herr. split.
      * intros Hr. right. destruct (Hok Hr) as [->|[Hn [Hi Hs]]].
        { simpl in Hr. discriminate. }
        split; [lia|]. split.
        { replace (attempts w + (S n - 1))%nat with (S (attempts w) + (n - 1))%nat by lia.
          exact Hi. }
        rewrite Hs. unfold refused. cbn [slept]. rewrite <- app_assoc.
        replace (S n - 1)%nat with (S (n - 1)) by lia. reflexivity.
      * intros x Hx. destruct (Herr x Hx) as [-> [H0 [Hl Hs]]].
        split; [reflexivity|]. split; [discriminate|]. split.
        { intros _. destruct left as [|left].
          - simpl. rewrite Nat.add_0_r, E. f_equal.
            specialize (H0 eq_refl). now injection H0.
          - replace (attempts w + (S (S left) - 1))%nat
              with (S (attempts w) + (S left - 1))%nat by lia.
            apply Hl. lia. }
        rewrite Hs. unfold refused. cbn [slept]. rewrite <- app_assoc. reflexivity.
    + exists 1%nat. simpl. split; [reflexivity|]. split; [lia|]. split; [lia|].
      split.
      * intros _. right. split; [lia|]. rewrite Nat.add_0_r.
        split; [exact E | now rewrite app_nil_r].
      * intros x Hx. discriminate.
Qed.

End WriterBounds.

(** X5: whatever the store answers, [_try_to_index] sends the same document
    at most [max_tries] times and nothing else; with [max_tries < 1] it
    raises [ValueError] without a call; it returns only after an accepted
    call, and it raises the store's error only after [max_tries] refused
    calls, having paused after each of them. *)
Theorem try_to_index_bounded
        (e : env) (w : world) (data : value) (index : string)
        (wait_between_tries max_tries : Z) :
  let outcome := run (_try_to_index data index wait_between_tries max_tries) e w in
  exists n,
    es_calls (snd outcome)
    = (es_calls w ++ repeat (CIndex index DOC_TYPE data) n)%list /\
    (n <= Z.to_nat max_tries)%nat /\
    (max_tries < 1 ->
     outcome = (Raise (ValueError "max_tries must be 1 or greater"), w)) /\
    (1 <= max_tries -> (1 <= n)%nat) /\
    (fst outcome = Ok tt ->
     (1 <= n)%nat /\
     es_index e (attempts w + (n - 1)) = None /\
     slept (snd outcome) = (slept w ++ repeat wait_between_tries (n - 1))%list) /\
    (forall x,
        1 <= max_tries -> fst outcome = Raise x ->
        n = Z.to_nat max_tries /\
        es_index e (attempts w + (n - 1)) = Some x /\
        slept (snd outcome) = (slept w ++ repeat wait_between_tries n)%list).
Proof.
  intros outcome. unfold outcome, run, _try_to_index.
  destruct (Z.ltb_spec max_tries 1) as [Hlt|Hge].
  - exists O. simpl. rewrite app_nil_r. split; [reflexivity|]. split; [lia|].
    split; [reflexivity|]. split; [lia|]. split; [discriminate|]. intros x Hm. lia.
  - destruct (try_loop_bounded e data index wait_between_tries (Z.to_nat max_tries) None w)
      as [n [Hc [Hle [Hpos [Hok Herr]]]]].
    exists n. split; [exact Hc|]. split; [exact Hle|]. split; [lia|].
    split; [intros _; apply Hpos; lia|]. split.
    + intros Hr. destruct (Hok Hr) as [H0|H]; [lia | exact H].
    + intros x _ Hx. destruct (Herr x Hx) as [-> [_ [Hl Hs]]].
      split; [reflexivity|]. split; [apply Hl; lia | exact Hs].
Qed.

Section HealthGate.

Variable e : env.
Variable wait_between_tries : Z.

Lemma health_attempts_unhealthy (r : result string) (w : world) :
  health_attempts (unhealthy r wait_between_tries w) = S (health_attempts w).
Proof.
  unfold health_attempts, unhealthy, health_calls. simpl.
  rewrite filter_app, length_app. simpl. lia.
Qed.

Lemma wait_loop_healthy (left : nat) (status : option string) (w : world) :
  healthy status = true ->
  wait_loop left wait_between_tries status e w = (Ok tt, w).
Proof. intros H. destruct left; simpl; now rewrite H. Qed.

Lemma wait_loop_step (left : nat) (status : option string) (w : world) :
  healthy status = false ->
  wait_loop (S left) wait_between_tries status e w =
  let r := es_health e (health_attempts w) in
  if healthy_answer r then (Ok tt, called CHealth w)
  else wait_loop left wait_between_tries
                 (match r with Ok s => Some s | Raise _ => None end) e
                 (unhealthy r wait_between_tries w).
Proof.
  intros H. simpl. rewrite H.
  unfold bind at 1. unfold catching, client_cluster_health. fold (health_attempts w).
  cbv zeta. destruct (es_health e (health_attempts w)) as [s|x] eqn:E.
  - change (healthy_answer (Ok s)) with (healthy (Some s)).
    unfold bind at 1. unfold ret at 1.
    unfold bind at 1. destruct (healthy (Some s)) eqn:Hs.
    + unfold ret at 1. now rewrite wait_loop_healthy.
    + unfold bind at 1. unfold print at 1. unfold time_sleep at 1.
      unfold unhealthy, called. cbn [es_calls logged printed stdout slept heap].
      now rewrite app_nil_r.
  - change (healthy_answer (Raise x)) with false. cbv iota. unfold bind at 1. unfold bind at 1. unfold print at 1.
    unfold ret at 1. unfold bind at 1.
    change (healthy None) with false. cbv iota.
    unfold bind at 1. unfold print at 1. unfold time_sleep at 1.
    reflexivity.
Qed.

Lemma unhealthy_status (r : result string) :
  healthy_answer r = false ->
  healthy (match r with Ok s => Some s | Raise _ => None end) = false.
Proof. now destruct r. Qed.

Lemma wait_loop_gives_up (left : nat) :
  forall (status : option string) (w : world),
    healthy status = false ->
    (forall i, (i < left)%nat ->
               healthy_answer (es_health e (health_attempts w + i)) = false) ->
    exists w',
      wait_loop left wait_between_tries status e w = (Ok tt, w') /\
      es_calls w' = (es_calls w ++ repeat CHealth left)%list /\
      slept w' = (slept w ++ repeat wait_between_tries left)%list /\
      logged w' = logged w /\ printed w' = printed w /\ heap w' = heap w.
Proof.
  induction left as [|left IH]; intros status w Hs Hall.
  - exists w. simpl. rewrite Hs, !app_nil_r. now repeat split.
  - rewrite (wait_loop_step left status w Hs). cbv zeta.
    pose proof (Hall O ltac:(lia)) as H0. rewrite Nat.add_0_r in H0. rewrite H0.
    destruct (IH _ (unhealthy (es_health e (health_attempts w)) wait_between_tries w)
                 (unhealthy_status _ H0)) as [w' [Hrun [Hc [Hsl [Hl [Hp Hh]]]]]].
    + intros i Hi. rewrite health_attempts_unhealthy.
      replace (S (health_attempts w) + i)%nat with (health_attempts w + S i)%nat by lia.
      apply Hall. lia.
    + exists w'. split; [exact Hrun|]. rewrite Hc, Hsl, Hl, Hp, Hh.
      unfold unhealthy. simpl. rewrite <- !app_assoc. now repeat split.
Qed.

Lemma wait_loop_passes (k : nat) :
  forall (left : nat) (status : option string) (w : world),
    healthy status = false ->
    (k < left)%nat ->
    (forall i, (i < k)%nat ->
               healthy_answer (es_health e (health_attempts w + i)) = false) ->
    healthy_answer (es_health e (health_attempts w + k)) = true ->
    exists w',
      wait_loop left wait_between_tries status e w = (Ok tt, w') /\
      es_calls w' = (es_calls w ++ repeat CHealth (S k))%list /\
      slept w' = (slept w ++ repeat wait_between_tries k)%list /\
      logged w' = logged w /\ printed w' = printed w /\ heap w' = heap w.
Proof.
  induction k as [|k IH]; intros left status w Hs Hlt Hall Hk;
    (destruct left as [|left]; [lia|]);
    rewrite (wait_loop_step left status w Hs); cbv zeta.
  - rewrite Nat.add_0_r in Hk. rewrite Hk. exists (called CHealth w).
    simpl. rewrite app_nil_r. now repeat split.
  - pose proof (Hall O ltac:(lia)) as H0. rewrite Nat.add_0_r in H0. rewrite H0.
    destruct (IH left _ (unhealthy (es_health e (health_attempts w)) wait_between_tries w)
                 (unhealthy_status _ H0)) as [w' [Hrun [Hc [Hsl [Hl [Hp Hh]]]]]].
    + lia.
    + intros i Hi. rewrite health_attempts_unhealthy.
      replace (S (health_attempts w) + i)%nat with (health_attempts w + S i)%nat by lia.
      apply Hall. lia.
    + rewrite health_attempts_unhealthy.
      now replace (S (health_attempts w) + k)%nat with (health_attempts w + S k)%nat by lia.
    + exists w'. split; [exact Hrun|]. rewrite Hc, Hsl, Hl, Hp, Hh.
      unfold unhealthy. simpl. rewrite <- !app_assoc. now repeat split.
Qed.

(** A bounded search for the first answer that ends the wait. *)
Lemma first_healthy (left : nat) (f : nat -> bool) :
  (forall i, (i < left)%nat -> f i = false) \/
  (exists k, (k < left)%nat /\ f k = true /\ forall i, (i < k)%nat -> f i = false).
Proof.
  induction left as [|left [IH|[k [Hk [Hf Hb]]]]].
  - left. intros i Hi. lia.
  - destruct (f left) eqn:E.
    + right. exists left. split; [lia|]. split; [exact E|]. intros i Hi. now apply IH.
    + left. intros i Hi. destruct (Nat.eq_dec i left) as [->|Hn]; [exact E|].
      apply IH. lia.
  - right. exists k. split; [lia|]. now split.
Qed.

End HealthGate.

(** X6: the wait for the cluster never raises, whatever the health checks
    answer or raise: it returns after at most [max_tries] health checks,
    having sent nothing else to the client and logged nothing. *)
Theorem wait_for_cluster_never_raises
        (e : env) (w : world) (wait_between_tries max_tries : Z) :
  exists n w',
    run (_wait_for_cluster_yellow_status wait_between_tries max_tries) e w = (Ok tt, w') /\
    es_calls w' = (es_calls w ++ repeat CHealth n)%list /\
    (n <= Z.to_nat max_tries)%nat /\
    logged w' = logged w /\ printed w' = printed w /\ heap w' = heap w.
Proof.
  unfold run, _wait_for_cluster_yellow_status.
  destruct (first_healthy (Z.to_nat max_tries)
              (fun i => healthy_answer (es_health e (health_attempts w + i))))
    as [Hall|[k [Hk [Hf Hb]]]].
  - destruct (wait_loop_gives_up e wait_between_tries (Z.to_nat max_tries) None w
                eq_refl Hall) as [w' [Hrun [Hc [_ H]]]].
    exists (Z.to_nat max_tries), w'. split; [exact Hrun|]. split; [exact Hc|].
    split; [lia | exact H].
  - destruct (wait_loop_passes e wait_between_tries k (Z.to_nat max_tries) None w
                eq_refl Hk Hb Hf) as [w' [Hrun [Hc [_ H]]]].
    exists (S k), w'. split; [exact Hrun|]. split; [exact Hc|].
    split; [lia | exact H].
Qed.

(** X7: the wait ends with the first health check that answers [yellow] or
    [green]: after [k] checks that raise or answer something else, and a
    pause after each of them, the [k+1]-th is the last one; when none of
    [max_tries] checks answers so, the wait gives up after [max_tries]
    checks and as many pauses, and returns all the same. *)
Theorem wait_for_cluster_stops_at_first_healthy
        (e : env) (w : world) (wait_between_tries max_tries : Z) :
  let outcome := run (_wait_for_cluster_yellow_status wait_between_tries max_tries) e w in
  let answer i := es_health e (health_attempts w + i) in
  (forall k,
      (k < Z.to_nat max_tries)%nat ->
      (forall i, (i < k)%nat -> healthy_answer (answer i) = false) ->
      healthy_answer (answer k) = true ->
      fst outcome = Ok tt /\
      es_calls (snd outcome) = (es_calls w ++ repeat CHealth (S k))%list /\
      slept (snd outcome) = (slept w ++ repeat wait_between_tries k)%list) /\
  ((forall i, (i < Z.to_nat max_tries)%nat -> healthy_answer (answer i) = false) ->
   fst outcome = Ok tt /\
   es_calls (snd outcome) = (es_calls w ++ repeat CHealth (Z.to_nat max_tries))%list /\
   slept (snd outcome)
   = (slept w ++ repeat wait_between_tries (Z.to_nat max_tries))%list).
Proof.
  intros outcome answer. unfold outcome, answer, run, _wait_for_cluster_yellow_status.
  split.
  - intros k Hk Hb Hf.
    destruct (wait_loop_passes e wait_between_tries k (Z.to_nat max_tries) None w
                eq_refl Hk Hb Hf) as [w' [Hrun [Hc [Hs _]]]].
    rewrite Hrun. now repeat split.
  - intros Hall.
    destruct (wait_loop_gives_up e wait_between_tries (Z.to_nat max_tries) None w
                eq_refl Hall) as [w' [Hrun [Hc [Hs _]]]].
    rewrite Hrun. now repeat split.
Qed.

(* ===================================================================== *)
(** * More facts about the indexing of a transfer *)
(* ===================================================================== *)

Section TransferDocuments.

Variable e : env.

Lemma emits_weaken {A} (P Q : es_call -> Prop) (m : M A) :
  (forall c, P c -> Q c) -> emits e P m -> emits e Q m.
Proof.
  intros HPQ Hm w. destruct (Hm w) as [new [Hc Hall]]. exists new.
  split; [exact Hc|]. eapply Forall_impl; [exact HPQ | exact Hall].
Qed.

Lemma emits_list_bulk_extractor_reports (P : es_call -> Prop)
      (transfer_path file_uuid : string) :
  emits e P (_list_bulk_extractor_reports transfer_path file_uuid).
Proof.
  unfold _list_bulk_extractor_reports. emits_step; [emits_step|].
  destruct (negb a); [emits_step|].
  repeat first
         [ apply emits_ret
         | apply emits_bind; [now apply silent_emits | intros ? _]
         | match goal with
           | |- emits _ _ (if ?b then _ else _) => destruct b
           end ].
Qed.

Lemma emits_transfer_accession_and_name (P : es_call -> Prop) (uuid : string) :
  emits e P (transfer_accession_and_name uuid).
Proof.
  unfold transfer_accession_and_name. emits_bind as row Hrow; [emits_step|].
  destruct row; repeat emits_step.
Qed.

Lemma emits_list_files_under (P : es_call -> Prop) (node : fsnode) :
  forall path filepaths, emits e P (list_files_under node path filepaths).
Proof.
  induction node as [size ctime|size ctime readable listing IH] using fsnode_ind;
    intros path filepaths; [apply emits_raise|].
  simpl. destruct readable; [|apply emits_raise].
  induction IH as [|[file child] rest Hchild _ IHrest]; [apply emits_ret|].
  emits_step; [emits_step|]. emits_step; [|exact IHrest].
  destruct (node_is_dir child && node_readable child); [apply Hchild | emits_step].
Qed.

Lemma emits_list_files_in_dir (P : es_call -> Prop) (path : string) :
  emits e P (_list_files_in_dir path).
Proof.
  unfold _list_files_in_dir, _list_files_in_dir_into.
  emits_bind as root Hroot; [emits_step|].
  destruct (node_at root path); [|emits_step].
  emits_step; [apply emits_list_files_under | emits_step].
Qed.

(** What one round of the loop sends. *)
Lemma emits_index_transfer_file
      (uuid path status accession_id transfer_name dashboard ingest_date : string)
      (files_indexed : Z) (filepath : string) :
  emits e (fun c => transfer_call_ok uuid status c /\ file_document_ok e uuid path c)
        (index_transfer_file uuid path status accession_id transfer_name
                             dashboard ingest_date files_indexed filepath).
Proof.
  unfold index_transfer_file.
  emits_bind as is_file Hfile; [emits_step|]. apply returns_ask in Hfile.
  destruct is_file; cbn [negb]; [|emits_step].
  emits_bind as row Hrow; [emits_step|]. apply returns_ask in Hrow.
  emits_bind as found Hfound.
  { destruct row as [f|]; [|emits_step].
    emits_step; [apply emits_list_bulk_extractor_reports | emits_step]. }
  assert (Hfields :
            forall body,
              subscript body "fileuuid" = Ok (VStr (fst (fst (fst found)))) ->
              subscript body "format" = Ok (VList (snd (fst (fst found)))) ->
              subscript body "bulk_extractor_reports"
              = Ok (VList (map VStr (snd (fst found)))) ->
              subscript body "modification_date" = Ok (VStr (snd found)) ->
              file_row_fields row body).
  { intros body H1 H2 H3 H4. destruct row as [f|].
    - repeat returns_step Hfound. subst found. simpl in *. now repeat split.
    - returns_step Hfound. subst found. simpl in *. now repeat split. }
  destruct found as [[[file_uuid formats] bulk_extractor_reports] modification_date].
  emits_bind as bytes Hbytes; [emits_step|].
  emits_bind as create_time Hctime; [emits_step|].
  destruct (mem (basename filepath) ignore_files) eqn:Hign; cbn [negb];
    [repeat emits_step|].
  emits_step; [emits_step|]. emits_step; [|emits_step].
  apply emits_wait_and_index.
  - split; [exact I | intros dt body Hc; discriminate].
  - split.
    + split; [reflexivity|]. left. repeat split.
      exists (basename filepath). now split.
    + intros dt body [= _ <-]. exists filepath.
      split; [symmetry; exact Hfile|]. split; [reflexivity|].
      rewrite <- Hrow. now apply Hfields.
Qed.

Lemma emits_index_transfer_files (uuid path status : string) :
  emits e (fun c => transfer_call_ok uuid status c /\ file_document_ok e uuid path c)
        (_index_transfer_files uuid path status).
Proof.
  unfold _index_transfer_files.
  emits_step; [emits_step|].
  emits_bind as names Hnames; [apply emits_transfer_accession_and_name|].
  destruct names as [accession_id transfer_name].
  emits_step; [emits_step|].
  emits_step; [apply emits_list_files_in_dir|].
  emits_step; [emits_step|].
  apply emits_for_fold. intros acc filepath _. apply emits_index_transfer_file.
Qed.

Lemma emits_index_transfer_and_files (uuid path status : string) :
  emits e (fun c => transfer_call_ok uuid status c /\ file_document_ok e uuid path c)
        (index_transfer_and_files uuid path status).
Proof.
  unfold index_transfer_and_files.
  emits_bind as ex Hex; [emits_step|].
  destruct (negb ex); [repeat emits_step|].
  emits_step; [emits_step|]. emits_step; [emits_step|].
  emits_step; [apply emits_index_transfer_files|].
  emits_step; [emits_step|]. emits_step; [emits_step|].
  emits_bind as row Hrow; [emits_step|].
  emits_step; [destruct row; emits_step|].
  emits_step; [emits_step|].
  emits_step; [|repeat emits_step].
  apply emits_wait_and_index.
  - split; [exact I | intros dt body Hc; discriminate].
  - split.
    + split; [reflexivity|]. right. now repeat split.
    + intros dt body Hc. discriminate.
Qed.

End TransferDocuments.

(** X8: [index_transfer_and_files] sends to the client only health checks
    and documents: documents of files to [transferfiles], each with the
    transfer's UUID and status, no tags and a file name that is not on the
    list of ignored names, and the document of the transfer to
    [transfers]; it never searches, updates or writes anywhere else. *)
Theorem index_transfer_sends_only_its_documents
        (e : env) (w : world) (uuid path status : string) :
  exists new,
    es_calls (snd (run (index_transfer_and_files uuid path status) e w))
    = (es_calls w ++ new)%list /\
    Forall (transfer_call_ok uuid status) new.
Proof.
  destruct (emits_index_transfer_and_files e uuid path status w) as [new [Hc Hall]].
  exists new. split; [exact Hc|].
  eapply Forall_impl; [|exact Hall]. now intros c [H _].
Qed.

(** X9: every document of a file that [index_transfer_and_files] sends
    is the document of a regular file and carries the identifier, the
    formats and the modification date of the [File] row that the relational
    store has for the file's place relative to the transfer and the
    transfer's UUID; for a file without a row they are empty, and so is the
    list of reports. *)
Theorem transfer_file_document_follows_the_store
        (e : env) (w : world) (uuid path status : string) :
  exists new,
    es_calls (snd (run (index_transfer_and_files uuid path status) e w))
    = (es_calls w ++ new)%list /\
    Forall (file_document_ok e uuid path) new.
Proof.
  destruct (emits_index_transfer_and_files e uuid path status w) as [new [Hc Hall]].
  exists new. split; [exact Hc|].
  eapply Forall_impl; [|exact Hall]. now intros c [_ H].
Qed.

Section TransferCount.

Variable e : env.

Lemma run_bind_ok {A B} (m : M A) (f : A -> M B) (w w' : world) (b : B) :
  bind m f e w = (Ok b, w') ->
  exists a w1, m e w = (Ok a, w1) /\ f a e w1 = (Ok b, w').
Proof.
  unfold bind. destruct (m e w) as [[a|x] w1]; [|discriminate].
  intros H. now exists a, w1.
Qed.

Lemma list_files_in_dir_ok (path : string) (w w' : world) (addr : nat) :
  _list_files_in_dir path e w = (Ok addr, w') ->
  exists node,
    node_at (fs_root e) path = Some node /\
    addr = default_filepaths /\
    w' = with_heap w (extend_at default_filepaths (files_under node path) (heap w)).
Proof.
  unfold _list_files_in_dir, _list_files_in_dir_into, bind, ask.
  destruct (node_at (fs_root e) path) as [node|] eqn:En; [|discriminate].
  destruct (node_is_dir node && node_readable node) eqn:Ed.
  - rewrite (list_files_under_run e node path default_filepaths w Ed).
    intros [= <- <-]. now exists node.
  - destruct node as [size ctime|size ctime [|] listing]; simpl in *; try discriminate.
Qed.

Lemma index_transfer_file_counts
      (uuid path status accession_id transfer_name dashboard ingest_date : string)
      (files_indexed : Z) (filepath : string) (r : Z) :
  returns e (index_transfer_file uuid path status accession_id transfer_name
                                 dashboard ingest_date files_indexed filepath) r ->
  r = files_indexed + (if indexable e filepath then 1 else 0).
Proof.
  intros H. unfold index_transfer_file in H. unfold indexable.
  returns_step H. apply returns_ask in Ha. fold (is_regular_file e filepath) in Ha.
  rewrite <- Ha. destruct a; cbn [negb andb] in *.
  - repeat returns_step H.
    destruct a0 as [[[file_uuid formats] bulk_extractor_reports] modification_date].
    repeat returns_step H.
    destruct (mem (basename filepath) ignore_files); cbn [negb] in *;
      repeat returns_step H; subst r; lia.
  - returns_step H. subst r. lia.
Qed.

Lemma for_fold_counts {A} (count : A -> Z) (body : Z -> A -> M Z) (l : list A) :
  (forall acc x r, returns e (body acc x) r -> r = acc + count x) ->
  forall acc r,
    returns e (for_fold l acc body) r ->
    r = acc + fold_right (fun x n => count x + n) 0 l.
Proof.
  intros Hbody. induction l as [|x rest IH]; intros acc r H; simpl in *.
  - returns_step H. subst r. lia.
  - returns_step H. apply Hbody in Ha. apply IH in H. lia.
Qed.

Lemma count_indexable (l : list string) :
  fold_right (fun x n => (if indexable e x then 1 else 0) + n) 0 l
  = Z.of_nat (List.length (filter (indexable e) l)).
Proof.
  induction l as [|x rest IH]; simpl; [reflexivity|].
  destruct (indexable e x); simpl List.length; lia.
Qed.

Lemma transfer_accession_and_name_world (uuid : string) (w : world) :
  snd (transfer_accession_and_name uuid e w) = w.
Proof.
  unfold transfer_accession_and_name, bind, ask.
  destruct (db_transfer e uuid) as [row|]; [|reflexivity].
  unfold lift.
  now destruct (second_to_last (str_split (currentlocation row) slash)).
Qed.

End TransferCount.

(** X10: when [_index_transfer_files] returns, the number it returns is the
    number of regular files with a name that is not ignored among the paths
    in the list that the walk has filled: what the list held before the
    call, then the entries under [path]. *)
Theorem index_transfer_files_counts
        (e : env) (w w' : world) (uuid path status : string) (r : Z)
        (earlier : list string) (others : list (list string)) :
  heap w = earlier :: others ->
  run (_index_transfer_files uuid path status) e w = (Ok r, w') ->
  exists node,
    node_at (fs_root e) path = Some node /\
    r = Z.of_nat
          (List.length (filter (indexable e) (earlier ++ files_under node path))).
Proof.
  intros Hheap H. unfold run, _index_transfer_files in H.
  apply run_bind_ok in H. destruct H as [ingest_date [w1 [H1 H]]].
  injection H1 as _ <-.
  apply run_bind_ok in H. destruct H as [[accession_id transfer_name] [w2 [H2 H]]].
  assert (w2 = w) as ->.
  { pose proof (transfer_accession_and_name_world e uuid w) as Hw.
    now rewrite H2 in Hw. }
  apply run_bind_ok in H. destruct H as [dashboard [w3 [H3 H]]].
  injection H3 as _ <-.
  apply run_bind_ok in H. destruct H as [filepaths [w4 [H4 H]]].
  apply list_files_in_dir_ok in H4. destruct H4 as [node [Hnode [-> ->]]].
  apply run_bind_ok in H. destruct H as [files [w5 [H5 H]]].
  unfold heap_read in H5. injection H5 as <- <-.
  exists node. split; [exact Hnode|].
  rewrite Hheap in H. unfold default_filepaths in H. cbn [nth] in H.
  rewrite <- count_indexable.
  apply (for_fold_counts e (fun x => if indexable e x then 1 else 0)
           (index_transfer_file uuid path status accession_id transfer_name
                                dashboard ingest_date)
           (earlier ++ files_under node path)%list
           (index_transfer_file_counts e uuid path status accession_id transfer_name
                                       dashboard ingest_date) 0 r).
  eexists. eexists. exact H.
Qed.

(** In a process that has listed nothing yet, the transfer [/t1/] has one
    file to index: [a.txt], and not [processingMCP.xml]. *)
Lemma index_transfer_files_counts_witness :
  exists node,
    node_at sample_fs "/t1/" = Some node /\
    1 = Z.of_nat
          (List.length
             (filter (indexable (sample_env always_accepts no_hits))
                     ([] ++ files_under node "/t1/"))).
Proof.
  destruct (run (_index_transfer_files sample_uuid "/t1/" "backlog")
                (sample_env always_accepts no_hits) initial_world) as [r w'] eqn:E.
  assert (Hr : r = Ok 1) by (now vm_compute in E; injection E as <- _).
  subst r.
  exact (index_transfer_files_counts (sample_env always_accepts no_hits)
           initial_world w' sample_uuid "/t1/" "backlog" 1 [] [] eq_refl E).
Defined.

(* ===================================================================== *)
(** * More facts about the walk of a transfer directory *)
(* ===================================================================== *)

Section WalkReaches.

Lemma files_under_cons (size : Z) (c : Q) (file : string) (child : fsnode)
      (rest : list (string * fsnode)) (path : string) :
  files_under (Dir size c true ((file, child) :: rest)) path
  = (path_join path file ::
       (if node_is_dir child && node_readable child
        then files_under child (path_join path file)
        else []) ++ files_under (Dir size c true rest) path)%list.
Proof. reflexivity. Qed.

Lemma reaches_incl (size : Z) (c : Q) (l l' : list (string * fsnode))
      (names : list string) (target : fsnode) :
  incl l l' ->
  reaches (Dir size c true l) names target ->
  reaches (Dir size c true l') names target.
Proof.
  intros Hincl H. inversion H; subst.
  - apply reaches_entry. now apply Hincl.
  - apply reaches_below with (child := child); auto.
Qed.

Lemma files_under_reached (node : fsnode) :
  forall path p,
    In p (files_under node path) ->
    exists names target, reaches node names target /\ p = join_all path names.
Proof.
  induction node as [size ctime|size ctime readable listing IH] using fsnode_ind;
    intros path p Hin; [destruct Hin|].
  destruct readable; [|destruct Hin].
  revert p Hin.
  induction IH as [|[file child] rest Hchild _ IHrest]; intros p Hin; [destruct Hin|].
  rewrite files_under_cons in Hin. destruct Hin as [<-|Hin].
  - exists [file], child. split; [apply reaches_entry; now left | reflexivity].
  - apply in_app_or in Hin. destruct Hin as [Hin|Hin].
    + destruct (node_is_dir child && node_readable child) eqn:Ed; [|destruct Hin].
      simpl in Hchild. destruct (Hchild _ _ Hin) as [names [target [Hr ->]]].
      exists (file :: names), target. split; [|reflexivity].
      apply reaches_below with (child := child); [now left | exact Ed | exact Hr].
    + destruct (IHrest _ Hin) as [names [target [Hr ->]]].
      exists names, target. split; [|reflexivity].
      apply (reaches_incl size ctime rest); [|exact Hr].
      intros x Hx. now right.
Qed.

Lemma files_under_entry (size : Z) (c : Q) (listing : list (string * fsnode))
      (file : string) (child : fsnode) (path : string) :
  In (file, child) listing ->
  In (path_join path file) (files_under (Dir size c true listing) path) /\
  (node_is_dir child && node_readable child = true ->
   incl (files_under child (path_join path file))
        (files_under (Dir size c true listing) path)).
Proof.
  induction listing as [|[file' child'] rest IH]; intros Hin; [destruct Hin|].
  rewrite files_under_cons. destruct Hin as [[= -> ->]|Hin].
  - split; [now left|]. intros Hd p Hp. rewrite Hd. right.
    apply in_or_app. now left.
  - destruct (IH Hin) as [H1 H2]. split.
    + right. apply in_or_app. now right.
    + intros Hd p Hp. right. apply in_or_app. right. now apply H2.
Qed.

Lemma reached_files_under (node : fsnode) (names : list string) (target : fsnode) :
  reaches node names target ->
  forall path, In (join_all path names) (files_under node path).
Proof.
  induction 1 as [size ctime listing file child Hin
                 |size ctime listing file child names target Hin Hd _ IH];
    intros path.
  - exact (proj1 (files_under_entry size ctime listing file child path Hin)).
  - destruct (files_under_entry size ctime listing file child path Hin) as [_ Hincl].
    apply (Hincl Hd). apply IH.
Qed.

End WalkReaches.

(** X11: a walk of a readable directory appends to the list it was given
    the path of every entry that can be reached from the directory through
    readable directories, and no other path: a directory that cannot be
    read is listed and not entered. *)
Theorem walk_lists_what_it_reaches
        (e : env) (w : world) (path : string) (node : fsnode)
        (earlier : list string) (others : list (list string)) :
  heap w = earlier :: others ->
  node_at (fs_root e) path = Some node ->
  node_is_dir node && node_readable node = true ->
  exists listing,
    run (filepaths <- _list_files_in_dir path ;; heap_read filepaths) e w
    = (Ok (earlier ++ listing)%list, with_heap w ((earlier ++ listing)%list :: others)) /\
    forall p,
      In p listing <->
      exists names target, reaches node names target /\ p = join_all path names.
Proof.
  intros Hheap Hnode Hdir. exists (files_under node path). split.
  - unfold run. unfold bind.
    pose proof (list_files_in_dir_run e path node w Hnode Hdir) as H.
    unfold run in H. rewrite H. unfold heap_read, with_heap. cbn [heap].
    rewrite Hheap. reflexivity.
  - intros p. split.
    + apply files_under_reached.
    + intros [names [target [Hr ->]]]. exact (reached_files_under node names target Hr path).
Qed.

Lemma walk_lists_what_it_reaches_witness :
  exists listing,
    run (filepaths <- _list_files_in_dir "/t1/" ;; heap_read filepaths)
        (sample_env always_accepts no_hits) initial_world
    = (Ok ([] ++ listing)%list, with_heap initial_world [([] ++ listing)%list]) /\
    forall p, In p listing <->
      exists names target,
        reaches (Dir 4096 0 true [("a.txt", File 2048 1); ("processingMCP.xml", File 10 1)])
                names target /\
        p = join_all "/t1/" names.
Proof.
  exact (walk_lists_what_it_reaches (sample_env always_accepts no_hits) initial_world "/t1/"
           (Dir 4096 0 true [("a.txt", File 2048 1); ("processingMCP.xml", File 10 1)])
           [] [] eq_refl eq_refl eq_refl).
Defined.

(* ===================================================================== *)
(** * Facts about the removal of tool output *)
(* ===================================================================== *)

Section ClearedElements.

Lemma clear_at_cons (s : step) (rest : list step) (x : element) :
  clear_at (s :: rest) x =
  Element (tag_of x) (attrib_of x) (text_of x)
          (map (fun c => if step_matches s c then clear_at rest c else c) (children_of x)).
Proof. reflexivity. Qed.

Lemma clear_at_twice (path : list step) :
  forall x, clear_at path (clear_at path x) = clear_at path x.
Proof.
  induction path as [|s rest IH]; intros x; [reflexivity|].
  rewrite !clear_at_cons. cbn [tag_of attrib_of text_of children_of].
  f_equal. rewrite map_map. apply map_ext. intros c.
  destruct (step_matches s c) eqn:Ec; [|now rewrite Ec].
  destruct (step_matches s (clear_at rest c)); [apply IH | reflexivity].
Qed.

Lemma cleared_are_bare (path : list step) :
  forall x, Forall is_bare (findall path (clear_at path x)).
Proof.
  induction path as [|s rest IH]; intros x.
  - repeat constructor.
  - rewrite clear_at_cons. cbn [findall children_of].
    induction (children_of x) as [|c ch IHch]; [constructor|].
    cbn [map filter]. destruct (step_matches s c) eqn:Ec.
    + destruct (step_matches s (clear_at rest c)); [|exact IHch].
      cbn [flat_map]. apply Forall_app. split; [apply IH | exact IHch].
    + rewrite Ec. exact IHch.
Qed.

Lemma step_matches_clear_at (s : step) (rest : list step) (c : element) :
  step_test s = None ->
  step_matches s (clear_at rest c) = step_matches s c.
Proof.
  intros Ht. unfold step_matches. now rewrite tag_of_clear_at, Ht.
Qed.

Lemma cleared_count (path : list step) :
  tags_only path ->
  forall x, List.length (findall path (clear_at path x)) = List.length (findall path x).
Proof.
  induction 1 as [|s rest Hs _ IH]; intros x; [reflexivity|].
  rewrite clear_at_cons. cbn [findall children_of].
  induction (children_of x) as [|c ch IHch]; [reflexivity|].
  cbn [map filter]. destruct (step_matches s c) eqn:Ec.
  - rewrite (step_matches_clear_at s rest c Hs), Ec. cbn [flat_map].
    now rewrite !length_app, IH, IHch.
  - rewrite Ec. exact IHch.
Qed.

End ClearedElements.

(** X12: [_remove_tool_output_from_mets] never raises; in the tree it
    leaves, every element that the tool output path finds is cleared (no
    attribute, no text, no child) and there are as many of them as before;
    what a path that starts at another tag than [mets:amdSec] finds is as
    it was; and a second removal changes nothing more. *)
Theorem remove_tool_output_clears_only_tool_output
        (e : env) (w : world) (root : element) :
  exists cleaned w',
    run (_remove_tool_output_from_mets root) e w = (Ok cleaned, w') /\
    es_calls w' = es_calls w /\
    Forall is_bare (findall tool_output_path cleaned) /\
    List.length (findall tool_output_path cleaned)
    = List.length (findall tool_output_path root) /\
    (forall t rest,
        t <> "mets:amdSec" ->
        findall (tagged t :: rest) cleaned = findall (tagged t :: rest) root) /\
    fst (run (_remove_tool_output_from_mets cleaned) e w') = Ok cleaned.
Proof.
  exists (clear_at tool_output_path root). eexists.
  split; [reflexivity|]. split; [reflexivity|].
  split; [apply cleared_are_bare|]. split.
  - apply cleared_count. unfold tool_output_path, tags_only.
    repeat constructor.
  - split.
    + intros t rest Hne. unfold tool_output_path. cbn [map].
      apply findall_after_clear. now apply String.eqb_neq.
    + unfold run, _remove_tool_output_from_mets, bind, print, ret. cbn [fst].
      now rewrite clear_at_twice.
Qed.

(* ===================================================================== *)
(** * Facts about reading documents back *)
(* ===================================================================== *)

Section ReadingBack.

Variable e : env.

Lemma is_text_true (x : value) (value : string) :
  is_text x value = true -> x = VStr value.
Proof.
  destruct x; try discriminate. simpl. intros H.
  apply String.eqb_eq in H. now subst.
Qed.

(** What the filter of [get_transfer_file_info] keeps. *)
Lemma exact_matches_ok (field value : string) (found kept : list hit) :
  exact_matches field value found = Ok kept ->
  Forall (has_field field) found /\
  Forall (exact field value) kept /\
  match kept with
  | [] => Forall (inexact field value) found
  | first :: _ =>
      exists before after,
        found = (before ++ first :: after)%list /\
        Forall (inexact field value) before
  end.
Proof.
  revert kept. induction found as [|h rest IH]; intros kept H.
  - injection H as <-. repeat split; constructor.
  - cbn [exact_matches] in H.
    destruct (dict_get (hit_source h) field) as [x|] eqn:Ex; [|discriminate].
    destruct (exact_matches field value rest) as [t|] eqn:Et; [|discriminate].
    cbn [rbind] in H. injection H as <-.
    destruct (IH t eq_refl) as [Hall [Hex Hfirst]].
    split; [constructor; [now exists x | exact Hall]|].
    destruct (is_text x value) eqn:Etext.
    + split.
      * constructor; [|exact Hex]. unfold exact.
        now rewrite Ex, (is_text_true x value Etext).
      * now exists [], rest.
    + split; [exact Hex|].
      destruct t as [|first t'].
      * constructor; [now exists x | exact Hfirst].
      * destruct Hfirst as [before [after [-> Hb]]].
        exists (h :: before), after. split; [reflexivity|].
        constructor; [now exists x | exact Hb].
Qed.

Lemma exact_matches_raises (field value : string) (found : list hit) (x : exn) :
  exact_matches field value found = Raise x ->
  x = KeyError field /\ ~ Forall (has_field field) found.
Proof.
  induction found as [|h rest IH]; intros H; [discriminate|].
  cbn [exact_matches] in H.
  destruct (dict_get (hit_source h) field) as [v|] eqn:Ex.
  - destruct (exact_matches field value rest) as [t|x'] eqn:Et; [discriminate|].
    cbn [rbind] in H. injection H as <-.
    destruct (IH eq_refl) as [-> Hn]. split; [reflexivity|].
    intros Hall. apply Hn. now inversion Hall.
  - injection H as <-. split; [reflexivity|].
    intros Hall. inversion Hall as [|? ? [v Hv] _]; subst. congruence.
Qed.

Lemma search_all_results_run (field value : string) (index : option string)
      (w : world) :
  run (search_all_results field value index None) e w =
  (Ok (es_search e (SearchReq field value index None (Some MAX_QUERY_SIZE) None)),
   looked_up e (SearchReq field value index None (Some MAX_QUERY_SIZE) None) w).
Proof.
  unfold run, search_all_results, looked_up, size_warning.
  cbn [option_map]. unfold bind, client_search.
  destruct (total (es_search e _) >? MAX_QUERY_SIZE).
  - reflexivity.
  - unfold ret, called. cbn [es_calls logged printed stdout slept heap].
    now rewrite app_nil_r.
Qed.

Lemma get_transfer_file_info_run (field value : string) (w : world) :
  exists log,
    run (get_transfer_file_info field value) e w =
    (match hits (es_search e (file_info_request field value)) with
     | [] => Ok []
     | [only] => Ok (hit_source only)
     | found =>
         match exact_matches field value found with
         | Raise x => Raise x
         | Ok [] => Raise (ElasticsearchError no_exact_results)
         | Ok (first :: _) => Ok (hit_source first)
         end
     end,
     let w1 := looked_up e (file_info_request field value) w in
     World (es_calls w1) (logged w1 ++ log) (printed w1) (stdout w1) (slept w1) (heap w1)).
Proof.
  unfold run, get_transfer_file_info, logger_debug.
  unfold bind at 1. unfold ret at 1. unfold bind at 1.
  pose proof (search_all_results_run field value (Some "transfers") w) as Hs.
  unfold run in Hs. rewrite Hs. clear Hs.
  change (SearchReq field value (Some "transfers") None (Some MAX_QUERY_SIZE) None)
    with (file_info_request field value).
  set (w1 := looked_up e (file_info_request field value) w).
  assert (Hw1 : forall x : world, x = World (es_calls x) (logged x ++ []) (printed x)
                                             (stdout x) (slept x) (heap x)).
  { intros [c l p s sl h]. cbn. now rewrite app_nil_r. }
  destruct (hits (es_search e (file_info_request field value))) as [|h1 [|h2 rest]].
  - exists []. cbv zeta. unfold bind, ret. now rewrite <- Hw1.
  - exists []. cbv zeta. unfold bind, ret. now rewrite <- Hw1.
  - unfold bind at 1. unfold bind at 1. unfold lift at 1.
    destruct (exact_matches field value (h1 :: h2 :: rest)) as [[|f1 [|f2 fr]]|x].
    + eexists. unfold bind, logger, raise. cbv zeta. reflexivity.
    + exists []. cbv zeta. unfold bind, ret. now rewrite <- Hw1.
    + eexists. unfold bind, logger, ret. cbv zeta. reflexivity.
    + exists []. cbv zeta. now rewrite <- Hw1.
Qed.

End ReadingBack.

(** X13: when the store answers [get_transfer_file_info] with at most one
    hit, the function returns without raising and without looking at the
    field: the empty mapping for no hit, the source of the hit otherwise,
    whatever value its field holds.  It sends one search and nothing else. *)
Theorem transfer_file_info_takes_a_single_hit
        (e : env) (w : world) (field value : string) :
  let req := file_info_request field value in
  let outcome := run (get_transfer_file_info field value) e w in
  (hits (es_search e req) = [] -> fst outcome = Ok []) /\
  (forall only, hits (es_search e req) = [only] -> fst outcome = Ok (hit_source only)) /\
  es_calls (snd outcome) = (es_calls w ++ [CSearch req])%list /\
  q_index req = Some "transfers" /\ q_size req = Some MAX_QUERY_SIZE.
Proof.
  intros req outcome. subst outcome req.
  destruct (get_transfer_file_info_run e field value w) as [log ->].
  cbn [fst snd]. repeat split.
  - now intros ->.
  - now intros only ->.
Qed.

(** X14: when the store answers [get_transfer_file_info] with several
    hits, a returned mapping is the source of the first hit whose field
    equals the value, and then every hit has the field; the function
    raises [ElasticsearchError] exactly when every hit has the field with
    another value, and [KeyError] exactly when some hit lacks the field,
    even if another hit matches. *)
Theorem transfer_file_info_among_several
        (e : env) (w : world) (field value : string) :
  (2 <= List.length (hits (es_search e (file_info_request field value))))%nat ->
  let found := hits (es_search e (file_info_request field value)) in
  match fst (run (get_transfer_file_info field value) e w) with
  | Ok results =>
      Forall (has_field field) found /\
      exists before first after,
        found = (before ++ first :: after)%list /\
        results = hit_source first /\
        exact field value first /\
        Forall (inexact field value) before
  | Raise (ElasticsearchError msg) =>
      msg = no_exact_results /\ Forall (inexact field value) found
  | Raise (KeyError key) =>
      key = field /\ ~ Forall (has_field field) found
  | Raise _ => False
  end.
Proof.
  intros Hlen found. subst found.
  destruct (get_transfer_file_info_run e field value w) as [log ->].
  cbn [fst].
  destruct (hits (es_search e (file_info_request field value))) as [|h1 [|h2 rest]];
    [simpl in Hlen; lia | simpl in Hlen; lia |].
  destruct (exact_matches field value (h1 :: h2 :: rest)) as [kept|x] eqn:Ek.
  - destruct (exact_matches_ok field value _ kept Ek) as [Hall [Hex Hfirst]].
    destruct kept as [|first kept'].
    + split; [reflexivity | exact Hfirst].
    + split; [exact Hall|].
      destruct Hfirst as [before [after [Heq Hb]]].
      exists before, first, after. repeat split; try assumption.
      now inversion Hex.
  - destruct (exact_matches_raises field value _ x Ek) as [-> Hn].
    now split.
Qed.

Lemma transfer_file_info_among_several_witness :
  match fst (run (get_transfer_file_info "filename" "a.txt")
                 (sample_env always_accepts ranked_hits) initial_world) with
  | Ok results =>
      Forall (has_field "filename") (hits (ranked_hits (file_info_request "filename" "a.txt"))) /\
      exists before first after,
        hits (ranked_hits (file_info_request "filename" "a.txt"))
        = (before ++ first :: after)%list /\
        results = hit_source first /\
        exact "filename" "a.txt" first /\
        Forall (inexact "filename" "a.txt") before
  | Raise (ElasticsearchError msg) =>
      msg = no_exact_results /\
      Forall (inexact "filename" "a.txt")
             (hits (ranked_hits (file_info_request "filename" "a.txt")))
  | Raise (KeyError key) =>
      key = "filename" /\
      ~ Forall (has_field "filename")
               (hits (ranked_hits (file_info_request "filename" "a.txt")))
  | Raise _ => False
  end.
Proof.
  apply (transfer_file_info_among_several (sample_env always_accepts ranked_hits)
           initial_world "filename" "a.txt").
  simpl. lia.
Defined.

Section ResultsHelpers.

Lemma dict_get_set_same (d : entries) (k : string) (v : value) :
  dict_get (dict_set d k v) k = Some v.
Proof.
  induction d as [|[k0 x] r IH]; simpl.
  - now rewrite String.eqb_refl.
  - destruct (String.eqb k0 k) eqn:E; simpl; rewrite E; [reflexivity | exact IH].
Qed.

Lemma dict_get_set_other (d : entries) (k k' : string) (v : value) :
  k' <> k -> dict_get (dict_set d k v) k' = dict_get d k'.
Proof.
  intros Hne. induction d as [|[k0 x] r IH]; simpl.
  - destruct (String.eqb_spec k k'); [now subst | reflexivity].
  - destruct (String.eqb_spec k0 k) as [->|Hk]; simpl.
    + destruct (String.eqb_spec k k'); [now subst | reflexivity].
    + now rewrite IH.
Qed.

End ResultsHelpers.

(** X15: [get_aip_data] sends one search on the index [aips], without a
    size and with [fields] only when it is not empty.  When the store
    answers it, the function raises [IndexError] exactly when no document
    matches, and returns the first hit otherwise. *)
Theorem aip_data_of_a_missing_aip
        (e : env) (w : world) (uuid : string) (fields : option string) :
  answers (es_search e (aip_request uuid fields)) (aip_request uuid fields) ->
  let outcome := run (get_aip_data uuid fields) e w in
  es_calls (snd outcome) = (es_calls w ++ [CSearch (aip_request uuid fields)])%list /\
  (total (es_search e (aip_request uuid fields)) = 0 <-> fst outcome = Raise IndexError) /\
  (0 < total (es_search e (aip_request uuid fields)) <->
   exists first rest,
     hits (es_search e (aip_request uuid fields)) = first :: rest /\
     fst outcome = Ok first) /\
  (fields = Some EmptyString -> q_fields (aip_request uuid fields) = None).
Proof.
  intros [H0 Hlen] outcome. subst outcome.
  unfold run, get_aip_data, bind, client_search.
  change (requested_size (aip_request uuid fields)) with 10 in Hlen.
  destruct (hits (es_search e (aip_request uuid fields))) as [|first rest] eqn:Eh;
    cbn [fst snd raise ret called es_calls]; cbn [List.length] in Hlen.
  - assert (Ht : total (es_search e (aip_request uuid fields)) = 0) by lia.
    repeat split; try easy.
    + intros Hpos. lia.
    + intros [f [r [Hd _]]]. discriminate.
    + now intros ->.
  - assert (Ht : 0 < total (es_search e (aip_request uuid fields))) by lia.
    repeat split; try easy.
    + intros Hz. lia.
    + intros _. now exists first, rest.
    + now intros ->.
Qed.

Lemma aip_data_of_a_missing_aip_witness :
  let outcome := run (get_aip_data sample_uuid None)
                     (sample_env always_accepts no_hits) initial_world in
  es_calls (snd outcome) = ([] ++ [CSearch (aip_request sample_uuid None)])%list /\
  (total (no_hits (aip_request sample_uuid None)) = 0 <-> fst outcome = Raise IndexError) /\
  (0 < total (no_hits (aip_request sample_uuid None)) <->
   exists first rest,
     hits (no_hits (aip_request sample_uuid None)) = first :: rest /\
     fst outcome = Ok first) /\
  (@None string = Some EmptyString -> q_fields (aip_request sample_uuid None) = None).
Proof.
  apply (aip_data_of_a_missing_aip (sample_env always_accepts no_hits) initial_world
           sample_uuid None).
  split; [simpl; lia | reflexivity].
Defined.

(** X16: [augment_raw_search_results] gives one mapping per hit, in the
    order of the hits.  Each holds the identifier of its hit under
    [document_id], also when the source has such a key already, and the
    value of the source under every other key; a source without the key
    gets it as its last key. *)
Theorem augmented_results_keep_the_source (raw_results : response) :
  Forall2
    (fun item clone =>
       dict_get clone "document_id" = Some (VStr (hit_id item)) /\
       (forall key, key <> "document_id" ->
                    dict_get clone key = dict_get (hit_source item) key) /\
       (In "document_id" (keys (hit_source item)) ->
        keys clone = keys (hit_source item)) /\
       (~ In "document_id" (keys (hit_source item)) ->
        clone = (hit_source item ++ [("document_id", VStr (hit_id item))])%list))
    (hits raw_results) (augment_raw_search_results raw_results).
Proof.
  unfold augment_raw_search_results.
  induction (hits raw_results) as [|item rest IH]; cbn [map]; constructor; [|exact IH].
  repeat split.
  - apply dict_get_set_same.
  - intros key Hne. now apply dict_get_set_other.
  - intros Hin. rewrite keys_dict_set. unfold add_key.
    apply existsb_eqb_In in Hin. now rewrite Hin.
  - intros Hn. now apply dict_set_fresh.
Qed.

(* ===================================================================== *)
(** * Facts about the documents of the files of an AIP *)
(* ===================================================================== *)

Section AipFileDocuments.

Variable e : env.

Lemma returns_parse (path : string) (root : element) :
  returns e (ElementTree_parse path) root -> xml_files e path = Some root.
Proof.
  intros [w [w' H]]. unfold ElementTree_parse in H.
  destruct (xml_files e path); [|discriminate]. now injection H as -> _.
Qed.

Lemma returns_remove_tool_output (root cleaned : element) :
  returns e (_remove_tool_output_from_mets root) cleaned ->
  cleaned = clear_at tool_output_path root.
Proof.
  intros [w [w' H]]. unfold _remove_tool_output_from_mets, bind, print, ret in H.
  now injection H as <- _.
Qed.

Lemma manifest_files_after_clear (root : element) :
  manifest_files (clear_at tool_output_path root) = manifest_files root.
Proof.
  unfold manifest_files, file_paths, tool_output_path. cbn [map].
  now rewrite !findall_after_clear.
Qed.

(** A file document never holds both a collection identifier and a parent
    reference. *)
Lemma aip_file_collection_fields_one (root : element) :
  fst (aip_file_collection_fields root) = VNone \/
  snd (aip_file_collection_fields root) = VNone.
Proof.
  unfold aip_file_collection_fields.
  destruct (find dublincore_path root) as [dublincore|]; [|now left].
  destruct (or_else _ _) as [t|]; [|now left].
  destruct (String.eqb t "Archival Information Collection"); [now right|].
  destruct (String.eqb t "Archival Information Package"); now left.
Qed.

Lemma emits_index_aip_file_document
      (uuid name version : string) (indexedAt : Q)
      (is_part_of aic_identifier dmdSec origin identifiers transferMetadata : value)
      (root manifest file_ : element) :
  aic_identifier = VNone \/ is_part_of = VNone ->
  In file_ (manifest_files manifest) ->
  emits e (aip_file_call_ok uuid name identifiers manifest)
        (index_aip_file root
           (aip_file_document uuid name version indexedAt is_part_of aic_identifier
                              dmdSec origin identifiers transferMetadata)
           file_).
Proof.
  intros Hone Hin. unfold index_aip_file.
  emits_bind as found Hfound; [apply emits_aip_file_uuid|].
  destruct found as [fileUUID amdSec].
  destruct (find [tagged "mets:FLocat"] file_) as [flocat|] eqn:Eflocat; [|emits_step].
  destruct (assoc (attrib_of flocat) xlink_href) as [filePath|] eqn:Ehref; [|emits_step].
  apply emits_wait_and_index; [exact I|].
  cbn [aip_file_call_ok]. repeat split; try reflexivity.
  - destruct Hone as [-> | ->]; [now left | now right].
  - exists file_, flocat, filePath. repeat split; try assumption; try reflexivity.
    + unfold aip_file_uuid in Hfound. rewrite H in Hfound.
      destruct (assoc (attrib_of file_) "ID") as [id|];
        [|now apply returns_raise in Hfound].
      apply returns_ret in Hfound. now injection Hfound as _ ->.
    + unfold aip_file_uuid in Hfound. rewrite H in Hfound.
      destruct (assoc (attrib_of file_) "ID") as [id|];
        [|now apply returns_raise in Hfound].
      apply returns_ret in Hfound. injection Hfound as -> _.
      now exists id.
Qed.

Lemma emits_index_aip_files_documents
      (uuid mets_path name : string) (identifiers : value) (manifest : element) :
  xml_files e mets_path = Some manifest ->
  emits e (aip_file_call_ok uuid name identifiers manifest)
        (_index_aip_files uuid mets_path name identifiers).
Proof.
  intros Hxml. unfold _index_aip_files.
  emits_bind as root Hroot; [emits_step|].
  apply returns_parse in Hroot. rewrite Hxml in Hroot. injection Hroot as <-.
  emits_bind as cleaned Hcleaned;
    [unfold _remove_tool_output_from_mets; repeat emits_step|].
  apply returns_remove_tool_output in Hcleaned. subst cleaned.
  emits_bind as parse Hparse; [emits_step|].
  pose proof (aip_file_collection_fields_one (clear_at tool_output_path manifest)) as Hone.
  destruct (aip_file_collection_fields (clear_at tool_output_path manifest))
    as [aic_identifier is_part_of].
  cbn [fst snd] in Hone.
  repeat emits_step; try apply emits_extract_transfer_metadata.
  apply emits_for_each. intros file_ Hin.
  apply emits_index_aip_file_document; [exact Hone|].
  rewrite <- manifest_files_after_clear. exact Hin.
Qed.

Lemma index_aip_files_returns
      (uuid mets_path name : string) (identifiers : value) (manifest : element) (r : Z) :
  xml_files e mets_path = Some manifest ->
  returns e (_index_aip_files uuid mets_path name identifiers) r ->
  r = Z.of_nat (List.length (manifest_files manifest)).
Proof.
  intros Hxml H. unfold _index_aip_files in H.
  returns_step H. apply returns_parse in Ha. rewrite Hxml in Ha. injection Ha as <-.
  returns_step H. apply returns_remove_tool_output in Ha. subst a.
  returns_step H.
  destruct (aip_file_collection_fields (clear_at tool_output_path manifest))
    as [aic_identifier is_part_of].
  repeat returns_step H.
  subst r. fold (manifest_files (clear_at tool_output_path manifest)).
  now rewrite manifest_files_after_clear.
Qed.

End AipFileDocuments.

(** X17: all that [_index_aip_files] sends to the client for a manifest
    are health checks and documents for the index [aipfiles]; each
    document carries the AIP's UUID, name and identifiers, not both a
    collection identifier and a parent reference, and the path of an entry
    of the manifest's groups [original] or [metadata]; the document of an
    entry without [ADMID] has an empty [amdSec] and the UUID read from the
    entry's [ID].  When the function returns, it returns the number of
    those entries. *)
Theorem index_aip_files_sends_manifest_entries
        (e : env) (w : world) (uuid mets_path name : string) (identifiers : value)
        (manifest : element) :
  xml_files e mets_path = Some manifest ->
  let outcome := run (_index_aip_files uuid mets_path name identifiers) e w in
  (exists new,
      es_calls (snd outcome) = (es_calls w ++ new)%list /\
      Forall (aip_file_call_ok uuid name identifiers manifest) new) /\
  (forall r, fst outcome = Ok r ->
             r = Z.of_nat (List.length (manifest_files manifest))).
Proof.
  intros Hxml outcome. split.
  - apply (emits_index_aip_files_documents e uuid mets_path name identifiers manifest Hxml w).
  - intros r Hr.
    apply (index_aip_files_returns e uuid mets_path name identifiers manifest r Hxml).
    exists w, (snd outcome). subst outcome. unfold run in *.
    destruct (_index_aip_files uuid mets_path name identifiers e w) as [res w'].
    cbn [fst snd] in *. now subst res.
Qed.

Lemma index_aip_files_sends_manifest_entries_witness :
  let outcome := run (_index_aip_files sample_uuid "/aip/METS.xml" "aip" (VList []))
                     (sample_env always_accepts no_hits) initial_world in
  (exists new,
      es_calls (snd outcome) = ([] ++ new)%list /\
      Forall (aip_file_call_ok sample_uuid "aip" (VList []) sample_mets) new) /\
  (forall r, fst outcome = Ok r ->
             r = Z.of_nat (List.length (manifest_files sample_mets))).
Proof.
  exact (index_aip_files_sends_manifest_entries (sample_env always_accepts no_hits)
           initial_world sample_uuid "/aip/METS.xml" "aip" (VList []) sample_mets eq_refl).
Defined.

(** X18: the document of an AIP and the documents of its files read the
    same collection identifier from the manifest.  The file documents take
    the parent reference only from a manifest of type
    [Archival Information Package], the AIP document from any manifest
    with a Dublin Core section; where a file document has a parent
    reference, the AIP document has the same. *)
Theorem aip_and_file_documents_agree (root : element) :
  fst (aip_file_collection_fields root) = fst (aip_collection_fields root) /\
  (snd (aip_file_collection_fields root) = snd (aip_collection_fields root) \/
   snd (aip_file_collection_fields root) = VNone) /\
  (forall dublincore,
      find dublincore_path root = Some dublincore ->
      snd (aip_collection_fields root)
      = value_of_text (findtext [tagged "dcterms:isPartOf"] dublincore) /\
      (snd (aip_file_collection_fields root) <> VNone ->
       or_else (findtext [tagged "dc:type"] dublincore)
               (findtext [tagged "dcterms:type"] dublincore)
       = Some "Archival Information Package")).
Proof.
  unfold aip_file_collection_fields, aip_collection_fields.
  destruct (find dublincore_path root) as [d|].
  2:{ cbn [fst snd]. split; [reflexivity|]. split; [now left|].
      intros dublincore H. discriminate. }
  remember (or_else (findtext [tagged "dc:type"] d)
                    (findtext [tagged "dcterms:type"] d)) as ty eqn:Et.
  assert (Hd : forall P : element -> Prop,
             P d -> forall dublincore, Some d = Some dublincore -> P dublincore).
  { intros P Hp dublincore H. now injection H as <-. }
  destruct ty as [t|].
  - destruct (String.eqb t "Archival Information Collection") eqn:Ec.
    + cbn [fst snd]. split; [reflexivity|]. split; [now right|].
      apply Hd. split; [reflexivity | intros Hn; now elim Hn].
    + destruct (String.eqb_spec t "Archival Information Package") as [->|Hp].
      * cbn [fst snd]. split; [reflexivity|]. split; [now left|].
        apply Hd. rewrite <- Et. now split.
      * cbn [fst snd]. split; [reflexivity|]. split; [now right|].
        apply Hd. split; [reflexivity | intros Hn; now elim Hn].
  - cbn [fst snd]. split; [reflexivity|]. split; [now right|].
    apply Hd. split; [reflexivity | intros Hn; now elim Hn].
Qed.

(* ===================================================================== *)
(** * Facts about the reports of bulk_extractor *)
(* ===================================================================== *)

Section BulkExtractorReports.

Variable e : env.

Lemma each_report_run (log_path : string) (w : world) (l reports : list string) :
  (fix each_report (l : list string) (reports : list string) : M (list string) :=
     match l with
     | [] => ret reports
     | report :: rest =>
         let path := path_join log_path (report ++ ".txt") in
         bind (os_path_isfile path)
              (fun is_file =>
                 if is_file
                 then bind (os_path_getsize path)
                           (fun size =>
                              each_report rest
                                (if size >? 0 then (reports ++ [report])%list
                                 else reports))
                 else each_report rest reports)
     end) l reports e w
  = (Ok (reports ++ filter (report_present e log_path) l)%list, w).
Proof.
  revert reports. induction l as [|report rest IH]; intros reports.
  - unfold ret. now rewrite app_nil_r.
  - cbv zeta. unfold bind at 1. unfold os_path_isfile at 1, ask at 1.
    cbn [filter]. unfold report_present at 1.
    destruct (node_at (fs_root e) (path_join log_path (report ++ ".txt")))
      as [n|] eqn:En.
    + destruct (node_is_dir n); cbn [negb andb].
      * apply IH.
      * unfold bind at 1. unfold os_path_getsize at 1. rewrite En.
        rewrite IH. destruct (node_size n >? 0); [|reflexivity].
        now rewrite <- app_assoc.
    + apply IH.
Qed.

End BulkExtractorReports.

(** X19: [_list_bulk_extractor_reports] never raises and changes nothing.
    Without a directory [logs/bulk-<uuid>] under the transfer it returns
    the empty list; otherwise it returns the list telephone, ccn,
    ccn_track2, pii, in this order, without the names whose [.txt] file in
    that directory is not a regular file of more than zero bytes. *)
Theorem bulk_extractor_reports_are_the_nonempty_files
        (e : env) (w : world) (transfer_path file_uuid : string) :
  let log_path := bulk_log_path transfer_path file_uuid in
  let reports :=
    if is_directory e log_path
    then filter (report_present e log_path) ["telephone"; "ccn"; "ccn_track2"; "pii"]
    else [] in
  run (_list_bulk_extractor_reports transfer_path file_uuid) e w = (Ok reports, w) /\
  (forall report,
      In report reports <->
      In report report_names /\
      is_directory e log_path = true /\
      report_present e log_path report = true) /\
  NoDup reports.
Proof.
  intros log_path reports. subst reports.
  unfold run, _list_bulk_extractor_reports.
  fold (bulk_log_path transfer_path file_uuid). fold log_path.
  unfold bind at 1. unfold os_path_isdir at 1, ask at 1.
  fold (is_directory e log_path).
  destruct (is_directory e log_path); cbn [negb].
  - pose proof (each_report_run e log_path w report_names []) as Hrun.
    unfold report_names in Hrun at 1. rewrite Hrun. clear Hrun. cbn [app].
    fold report_names.
    split; [reflexivity|]. split.
    + intros report. rewrite filter_In. intuition.
    + apply NoDup_filter. unfold report_names.
      repeat constructor; simpl; intuition discriminate.
  - split; [reflexivity|]. split.
    + intros report. split; [intros [] | intros [_ [Hd _]]; discriminate].
    + constructor.
Qed.

(* ===================================================================== *)
(** * Facts about the documents of an AIP *)
(* ===================================================================== *)

Section AipDocuments.

Variable e : env.

Lemma returns_created (mets_hdr : element) (now created : Q) :
  now = time_time e ->
  returns e
    (match assoc (attrib_of mets_hdr) "CREATEDATE" with
     | Some (String c m) =>
         bind (ask (fun e => timegm_strptime e (String c m)))
              (fun parsed =>
                 match parsed with
                 | Some t => ret t
                 | None =>
                     bind (printfn ("Failed to parse METS CREATEDATE: " ++ String c m) Stdout)
                          (fun _ => ret now)
                 end)
     | _ => ret now
     end) created ->
  created_from e mets_hdr created.
Proof.
  intros Hnow H. unfold created_from.
  destruct (assoc (attrib_of mets_hdr) "CREATEDATE") as [[|c m]|].
  - apply returns_ret in H. congruence.
  - returns_step H. apply returns_ask in Ha. subst a.
    destruct (timegm_strptime e (String c m)) as [t|].
    + now apply returns_ret in H.
    + repeat returns_step H. congruence.
  - apply returns_ret in H. congruence.
Qed.

Lemma find_mets_hdr_after_clear (root : element) :
  find [tagged "mets:metsHdr"] (clear_at tool_output_path root)
  = find [tagged "mets:metsHdr"] root.
Proof.
  unfold find, tool_output_path. cbn [map].
  now rewrite findall_after_clear.
Qed.

Lemma collection_fields_after_clear (root : element) :
  aip_collection_fields (clear_at tool_output_path root) = aip_collection_fields root.
Proof.
  unfold aip_collection_fields. now rewrite find_dublincore_after_clear.
Qed.

Lemma emits_index_aip_documents
      (uuid path mets_path name : string) (size aips_in_aic : option Z)
      (identifiers : value) (encrypted : bool) :
  emits e (aip_document_ok e uuid path mets_path name size aips_in_aic identifiers encrypted)
        (index_aip_and_files uuid path mets_path name size aips_in_aic
                             identifiers encrypted).
Proof.
  unfold index_aip_and_files.
  emits_bind as path_exists Hpe; [emits_step|].
  emits_bind as mets_exists Hme; [emits_step|].
  destruct path_exists, mets_exists; cbn [negb];
    try (simpl; repeat emits_step; fail).
  emits_step; [emits_step|]. emits_step; [emits_step|].
  emits_bind as parsed Hparsed; [emits_step|].
  apply returns_parse in Hparsed.
  emits_bind as cleared Hcleared;
    [unfold _remove_tool_output_from_mets; repeat emits_step|].
  apply returns_remove_tool_output in Hcleared. subst cleared.
  rewrite collection_fields_after_clear, find_mets_hdr_after_clear.
  destruct (aip_collection_fields parsed) as [aic_identifier is_part_of] eqn:Efields.
  emits_bind as parse Hparse; [emits_step|]. apply returns_ask in Hparse. subst parse.
  emits_bind as mets_data Hmets; [emits_step|].
  apply returns_lift in Hmets.
  destruct (normalize_normal_form _ _ Hmets) as [Hshape Hkeys].
  destruct (find [tagged "mets:metsHdr"] parsed) as [mets_hdr|] eqn:Ehdr; [|emits_step].
  emits_bind as now Hnow; [emits_step|]. apply returns_ask in Hnow.
  emits_bind as created Hcreated.
  { destruct (assoc (attrib_of mets_hdr) "CREATEDATE") as [[|c1 m1]|];
      repeat emits_step.
    match goal with
    | |- emits _ _ (match ?p with _ => _ end) => destruct p; repeat emits_step
    end. }
  apply (returns_created mets_hdr now created Hnow) in Hcreated.
  emits_bind as bytes Hbytes.
  { unfold size_or_getsize. destruct size as [[|s|s]|]; emits_step. }
  apply size_or_getsize_returns in Hbytes.
  emits_bind as origin Horigin; [emits_step|]. apply returns_ask in Horigin.
  emits_step; [apply emits_extract_transfer_metadata|].
  emits_step.
  { apply emits_wait_and_index; [exact I|].
    cbn [aip_document_ok]. split; [reflexivity|]. left.
    split; [reflexivity|]. split; [reflexivity|]. split; [reflexivity|].
    split; [reflexivity|]. split; [now rewrite Horigin|].
    split; [reflexivity|]. split; [reflexivity|]. split; [reflexivity|].
    exists parsed, mets_hdr, created, mets_data, bytes.
    rewrite Efields. cbn [fst snd].
    repeat split; try assumption; reflexivity. }
  emits_step; [emits_step|]. emits_step; [emits_step|].
  emits_step.
  { apply (emits_weaken e (aip_file_call_ok uuid name identifiers parsed)).
    - intros [|index doc_type body| |]; cbn; try easy.
      intros [Hi [Hd [Hu [Hn [Hids _]]]]]. split; [exact Hd|]. right. now repeat split.
    - now apply emits_index_aip_files_documents. }
  repeat emits_step.
Qed.

End AipDocuments.

(** X20: all that [index_aip_and_files] sends to the client are health
    checks, documents for [aips] and documents for [aipfiles], whatever
    the manifest holds and whether the call returns or raises; it never
    searches or updates.  A document for [aips] carries the UUID, name,
    path, identifiers, count and flag given and is made from the manifest
    at [mets_path]: [created] is the parsed [CREATEDATE] of its
    [mets:metsHdr] if there is one that is not empty and that parses, and
    the current time otherwise; [mets] is the normalized parse of the
    manifest without its tool output, a tree in which no key holds a
    mapping directly and list keys end in [_list]; [AICID] and [isPartOf]
    are the collection fields of the manifest; [size] is the byte count
    divided by 1024 twice.  A document for [aipfiles] carries the same
    UUID, name and identifiers. *)
Theorem index_aip_sends_only_its_documents
        (e : env) (w : world) (uuid path mets_path name : string)
        (size aips_in_aic : option Z) (identifiers : value) (encrypted : bool) :
  exists new,
    es_calls (snd (run (index_aip_and_files uuid path mets_path name size aips_in_aic
                                            identifiers encrypted) e w))
    = (es_calls w ++ new)%list /\
    Forall (aip_document_ok e uuid path mets_path name size aips_in_aic identifiers
                            encrypted) new.
Proof.
  apply (emits_index_aip_documents e uuid path mets_path name size aips_in_aic
           identifiers encrypted w).
Qed.

(* ===================================================================== *)
(** * Facts about setting up *)
(* ===================================================================== *)

Section SettingUp.

Variable c : cluster.

Lemma create_each_calls (l : list string) :
  forall s, exists created rest,
    indices_calls (snd (create_each c l s))
    = (indices_calls s ++ map creation created)%list /\
    (map fst created ++ rest)%list = l /\
    Forall (fun ib => index_body c (fst ib) = Done (snd ib)) created /\
    (fst (create_each c l s) = Done tt -> rest = []).
Proof.
  induction l as [|index l IH]; intros s.
  - exists [], []. cbn. rewrite app_nil_r. repeat split; try easy.
  - cbn [create_each]. destruct (index_body c index) as [body|x] eqn:Eb.
    + cbv zeta. destruct (indices_create c index body) as [x|] eqn:Ec.
      * exists [(index, body)], l. cbn [fst snd map app].
        split; [reflexivity|]. split; [reflexivity|].
        split; [now repeat constructor | discriminate].
      * match goal with
        | |- context [create_each c l ?s1] =>
            destruct (IH s1) as [created [rest [Hc [Hl [Hb Hd]]]]]
        end.
        exists ((index, body) :: created), rest. rewrite Hc.
        cbn [fst snd map app setup_log setup_called indices_calls].
        rewrite <- app_assoc. cbn [app].
        split; [reflexivity|]. split; [now rewrite Hl|].
        split; [constructor; [exact Eb | exact Hb] | exact Hd].
    + exists [], (index :: l). cbn [fst snd map app]. rewrite app_nil_r.
      split; [reflexivity|]. split; [reflexivity|].
      split; [constructor | discriminate].
Qed.

Lemma exists_call_comes_first (s : setup_world) :
  exists more,
    indices_calls (snd (create_indexes_if_needed c s))
    = (indices_calls s ++ IExists "aips,aipfiles,transfers,transferfiles" :: more)%list.
Proof.
  unfold create_indexes_if_needed.
  change (comma_join INDICES) with "aips,aipfiles,transfers,transferfiles".
  destruct (indices_exists c "aips,aipfiles,transfers,transferfiles") as [[|]|x].
  - exists []. reflexivity.
  - destruct (create_each_calls INDICES
                (setup_called (IExists "aips,aipfiles,transfers,transferfiles") s))
      as [created [rest [Hc _]]].
    exists (map creation created). rewrite Hc. cbn [setup_called indices_calls].
    now rewrite <- app_assoc.
  - exists []. reflexivity.
Qed.

End SettingUp.

(** X21: [create_indexes_if_needed] first asks whether the four indexes
    exist, all in one call.  When the cluster says yes it creates nothing.
    Otherwise it sends creations, each with the body that belongs to its
    index and with status 400 ignored, for the indexes in the order aips,
    aipfiles, transfers, transferfiles: for all four when it returns, and
    for the first ones only, up to the one that fails, when it raises. *)
Theorem create_indexes_in_order (c : cluster) (s : setup_world) :
  let names := "aips,aipfiles,transfers,transferfiles" in
  let outcome := create_indexes_if_needed c s in
  exists created rest,
    indices_calls (snd outcome)
    = (indices_calls s ++ IExists names :: map creation created)%list /\
    (map fst created ++ rest)%list = INDICES /\
    Forall (fun ib => index_body c (fst ib) = Done (snd ib)) created /\
    (indices_exists c names = Ok true -> created = [] /\ fst outcome = Done tt) /\
    (fst outcome = Done tt ->
     indices_exists c names = Ok true \/ map fst created = INDICES).
Proof.
  intros names outcome. subst outcome. unfold create_indexes_if_needed.
  change (comma_join INDICES) with names.
  destruct (indices_exists c names) as [[|]|x] eqn:Ex.
  - exists [], INDICES. cbn [fst snd map app setup_log setup_called indices_calls].
    split; [reflexivity|]. split; [reflexivity|]. split; [constructor|].
    split; [easy | now left].
  - destruct (create_each_calls c INDICES (setup_called (IExists names) s))
      as [created [rest [Hc [Hl [Hb Hd]]]]].
    exists created, rest. rewrite Hc. cbn [setup_called indices_calls].
    rewrite <- app_assoc. cbn [app].
    split; [reflexivity|]. split; [exact Hl|]. split; [exact Hb|].
    split; [discriminate|]. intros Hdone. right.
    rewrite (Hd Hdone), app_nil_r in Hl. exact Hl.
  - exists [], INDICES. cbn [fst snd map app setup_log setup_called indices_calls].
    split; [reflexivity|]. split; [reflexivity|]. split; [constructor|].
    split; discriminate.
Qed.

(** X22: the body of an index is built only when its turn comes.  When
    no index exists yet and the mapping file for [aipfiles] cannot be
    read, while the one for [aips] can and the cluster accepts the
    creation, [create_indexes_if_needed] raises after creating [aips]
    alone: [transfers] and [transferfiles], whose bodies need no file, are
    not created. *)
Theorem create_indexes_stops_at_a_missing_mapping
        (c : cluster) (s : setup_world) (x : exn) (mets : value) :
  indices_exists c "aips,aipfiles,transfers,transferfiles" = Ok false ->
  json_load c "elasticsearch/aips_mets_mapping.json" = Ok mets ->
  json_load c "elasticsearch/aipfiles_mets_mapping.json" = Raise x ->
  (forall body, indices_create c "aips" body = None) ->
  exists body,
    _get_aips_index_body c = Done body /\
    fst (create_indexes_if_needed c s) = Failed (Raised x) /\
    indices_calls (snd (create_indexes_if_needed c s))
    = (indices_calls s ++ [IExists "aips,aipfiles,transfers,transferfiles";
                           ICreate "aips" body 400])%list.
Proof.
  intros Hex Haips Hfiles Hcreate.
  unfold create_indexes_if_needed.
  change (comma_join INDICES) with "aips,aipfiles,transfers,transferfiles".
  rewrite Hex. unfold INDICES. cbn [create_each].
  change (index_body c "aips") with (_get_aips_index_body c).
  change (index_body c "aipfiles") with (_get_aipfiles_index_body c).
  unfold _get_aips_index_body, _get_aipfiles_index_body, _load_mets_mapping.
  change ("elasticsearch/" ++ "aips" ++ "_mets_mapping.json")
    with "elasticsearch/aips_mets_mapping.json".
  change ("elasticsearch/" ++ "aipfiles" ++ "_mets_mapping.json")
    with "elasticsearch/aipfiles_mets_mapping.json".
  rewrite Haips, Hfiles. cbv zeta. rewrite Hcreate.
  eexists. split; [reflexivity|]. split; [reflexivity|].
  cbn [snd setup_log setup_called indices_calls].
  now rewrite <- app_assoc.
Qed.

Lemma create_indexes_stops_at_a_missing_mapping_witness :
  exists body,
    _get_aips_index_body cluster_without_aipfiles_mapping = Done body /\
    fst (create_indexes_if_needed cluster_without_aipfiles_mapping (SetupWorld [] []))
    = Failed (Raised (OSError "elasticsearch/aipfiles_mets_mapping.json")) /\
    indices_calls (snd (create_indexes_if_needed cluster_without_aipfiles_mapping
                                                 (SetupWorld [] [])))
    = ([] ++ [IExists "aips,aipfiles,transfers,transferfiles";
              ICreate "aips" body 400])%list.
Proof.
  exact (create_indexes_stops_at_a_missing_mapping cluster_without_aipfiles_mapping
           (SetupWorld [] []) (OSError "elasticsearch/aipfiles_mets_mapping.json")
           (VDict PlainDict []) eq_refl eq_refl eq_refl (fun _ => eq_refl)).
Defined.

(** X23: before [setup], [get_client] and [get_host] raise
    [ImproperlyConfigured] and the cluster sees no call.  After [setup],
    [get_client] asks the cluster about the indexes on every call; it
    returns the client of the last [setup], with a dead timeout of 2, and
    only when the check of the indexes has returned; [get_host] raises for
    an empty text or list of hosts and gives the text or the first of the
    list otherwise. *)
Theorem client_only_after_setup
        (c : cluster) (s : setup_world) (m : module_state)
        (hosts : hosts_value) (timeout : Z) :
  get_client c module_loaded s = (Failed (ImproperlyConfigured client_not_set_up), s) /\
  get_host module_loaded = Failed (ImproperlyConfigured hosts_not_set_up) /\
  (let outcome := get_client c (setup hosts timeout m) s in
   snd outcome = snd (create_indexes_if_needed c s) /\
   (exists more,
       indices_calls (snd outcome)
       = (indices_calls s ++ IExists "aips,aipfiles,transfers,transferfiles" :: more)%list) /\
   forall client,
     fst outcome = Done client ->
     client = EsClient hosts timeout 2 /\
     fst (create_indexes_if_needed c s) = Done tt) /\
  (forall host,
      get_host (setup hosts timeout m) = Done host <->
      (hosts = HostsText host /\ host <> EmptyString) \/
      (exists others, hosts = HostsList (host :: others))).
Proof.
  split; [reflexivity|]. split; [reflexivity|]. split.
  - cbv zeta. unfold get_client, setup. cbn [_es_client].
    destruct (exists_call_comes_first c s) as [more Hmore].
    destruct (create_indexes_if_needed c s) as [[[]|x] s'] eqn:E; cbn [fst snd] in *.
    + split; [reflexivity|]. split; [now exists more|]. now intros client [= <-].
    + split; [reflexivity|]. split; [now exists more|]. discriminate.
  - intros host. unfold get_host, setup. cbn [_es_hosts].
    destruct hosts as [|[|a h]|[|first others]]; split; intros H;
      try discriminate;
      try (destruct H as [[H Hn]|[l H]]; try discriminate).
    + injection H as <-. now elim Hn.
    + injection H as <-. left. split; [reflexivity | discriminate].
    + now injection H as <-.
    + injection H as <-. right. now exists others.
    + now injection H as <- _.
Qed.
